(** * Flexget SFTP plugins: list, download and upload over an SFTP session

    A shallow embedding of [flexget/components/ftp/sftp.py].  The plugin
    code is effectful Python: it talks to an SFTP server through a
    [pysftp.Connection], to the local file system through [os] and
    [os.path], it sleeps, it logs through [loguru] and it marks task
    entries as failed.  Every function of the module is rendered as a
    computation in a state-and-exception monad over an explicit [World];
    the libraries the module calls ([pysftp], [os], [loguru],
    [itertools], [posixpath]) are modelled next to it, each under a
    heading that says so. *)

From Stdlib Require Import ZArith Ascii String List Lia Bool.
From stdpp Require Import base option list gmap strings pretty.

Local Open Scope string_scope.
Local Open Scope Z_scope.

(** ** Python exceptions *)

Inductive ExnClass :=
| OSError              (* [IOError] is an alias of [OSError] *)
| FileNotFoundError
| FileExistsError
| NotADirectoryError
| IsADirectoryError
| SSHException         (* paramiko: protocol failure, dropped connection *)
| SFTPError
| TypeError
| IndexError
| KeyError
| ValueError
| AttributeError
| RecursionError
| PluginError
| DependencyError
| RenderError.

Record Exn := mkExn { exn_class : ExnClass; exn_msg : string }.

#[global] Instance ExnClass_eq_dec : EqDecision ExnClass.
Proof. solve_decision. Defined.

(** [isinstance(e, IOError)]: the [OSError] family. *)
Definition is_IOError (e : Exn) : bool :=
  match exn_class e with
  | OSError | FileNotFoundError | FileExistsError
  | NotADirectoryError | IsADirectoryError => true
  | _ => false
  end.

Definition is_class (c : ExnClass) (e : Exn) : bool :=
  bool_decide (exn_class e = c).

(** ** The state-and-exception monad

    [M St A] is a computation over a state [St] that either returns an
    [A] or raises; the state survives a raise, as Python's heap does. *)

Definition Res (A : Type) : Type := (Exn + A)%type.

Definition M (St A : Type) : Type := St -> Res A * St.

Definition ret {St A} (a : A) : M St A := fun s => (inr a, s).

Definition raise {St A} (e : Exn) : M St A := fun s => (inl e, s).

Definition bind {St A B} (c : M St A) (k : A -> M St B) : M St B :=
  fun s => match c s with
           | (inr a, s') => k a s'
           | (inl e, s') => (inl e, s')
           end.

(** [try: c  except <class matching sel> as e: h e] *)
Definition try_except {St A} (c : M St A) (sel : Exn -> bool)
    (h : Exn -> M St A) : M St A :=
  fun s => match c s with
           | (inr a, s') => (inr a, s')
           | (inl e, s') => if sel e then h e s' else (inl e, s')
           end.

(** [except Exception]: every class modelled here derives from it. *)
Definition any_exception (e : Exn) : bool := true.

Definition lift_res {St A} (r : Res A) : M St A := fun s => (r, s).

Notation "x <- c ;; k" := (bind c (fun x => k))
  (at level 100, c at next level, right associativity).
Notation "c ;;; k" := (bind c (fun _ => k))
  (at level 100, right associativity).

(** [for x in l: body x] *)
Fixpoint for_each {St A} (l : list A) (body : A -> M St unit) : M St unit :=
  match l with
  | [] => ret tt
  | x :: l' => body x ;;; for_each l' body
  end.

(** Run a computation on the second component of a product state; the
    first component holds a list captured by a closure ([sizes],
    [entries]). *)
Definition liftW {L W A} (c : M W A) : M (L * W) A :=
  fun s => let '(r, w') := c (snd s) in (r, (fst s, w')).

(** ** [posixpath] (Python standard library) *)

Module posixpath.

Definition is_slash (c : ascii) : bool := Ascii.eqb c "/"%char.

(** [p[:i], p[i:]] with [i = p.rfind('/') + 1], when [p] has a slash. *)
Fixpoint cut_last_slash (p : string) : option (string * string) :=
  match p with
  | EmptyString => None
  | String c p' =>
      match cut_last_slash p' with
      | Some (h, t) => Some (String c h, t)
      | None => if is_slash c then Some (String c EmptyString, p') else None
      end
  end.

Fixpoint rstrip_slash (s : string) : string :=
  match s with
  | EmptyString => EmptyString
  | String c s' =>
      let r := rstrip_slash s' in
      if is_slash c && String.eqb r "" then "" else String c r
  end.

Fixpoint all_slashes (s : string) : bool :=
  match s with
  | EmptyString => true
  | String c s' => is_slash c && all_slashes s'
  end.

Definition split (p : string) : string * string :=
  let '(head, tail) :=
    match cut_last_slash p with Some ht => ht | None => ("", p) end in
  let head :=
    if negb (String.eqb head "") && negb (all_slashes head)
    then rstrip_slash head else head in
  (head, tail).

Definition dirname (p : string) : string := fst (split p).

Definition basename (p : string) : string :=
  match cut_last_slash p with Some (_, t) => t | None => p end.

Definition startswith_slash (s : string) : bool :=
  match s with String c _ => is_slash c | EmptyString => false end.

Fixpoint endswith_slash (s : string) : bool :=
  match s with
  | EmptyString => false
  | String c EmptyString => is_slash c
  | String _ s' => endswith_slash s'
  end.

Definition join (a b : string) : string :=
  if startswith_slash b then b
  else if String.eqb a "" || endswith_slash a then a +:+ b
  else a +:+ "/" +:+ b.

(** [p.split('/')] *)
Fixpoint split_on_slash (p : string) : list string :=
  match p with
  | EmptyString => [""]
  | String c p' =>
      if is_slash c then "" :: split_on_slash p'
      else match split_on_slash p' with
           | x :: xs => String c x :: xs
           | [] => [String c ""]
           end
  end.

Fixpoint join_with_slash (comps : list string) : string :=
  match comps with
  | [] => ""
  | [x] => x
  | x :: xs => x +:+ "/" +:+ join_with_slash xs
  end.

(** The component loop of [normpath]; [new_comps] is kept reversed. *)
Fixpoint normpath_comps (initial_slashes : nat) (comps : list string)
    (new_comps : list string) : list string :=
  match comps with
  | [] => rev new_comps
  | comp :: comps' =>
      if String.eqb comp "" || String.eqb comp "." then
        normpath_comps initial_slashes comps' new_comps
      else if negb (String.eqb comp "..")
              || (Nat.eqb initial_slashes 0 && bool_decide (new_comps = []))
              || match new_comps with
                 | top :: _ => String.eqb top ".."
                 | [] => false
                 end
      then normpath_comps initial_slashes comps' (comp :: new_comps)
      else normpath_comps initial_slashes comps' (tail new_comps)
  end.

Definition normpath (path : string) : string :=
  if String.eqb path "" then "."
  else
    let initial_slashes :=
      match path with
      | String a (String b (String c _)) =>
          if is_slash a then
            if is_slash b && negb (is_slash c) then 2%nat else 1%nat
          else 0%nat
      | String a (String b EmptyString) =>
          if is_slash a then if is_slash b then 2%nat else 1%nat else 0%nat
      | String a EmptyString => if is_slash a then 1%nat else 0%nat
      | EmptyString => 0%nat
      end in
    let comps := normpath_comps initial_slashes (split_on_slash path) [] in
    let path' :=
      match initial_slashes with
      | 0%nat => join_with_slash comps
      | 1%nat => "/" +:+ join_with_slash comps
      | _ => "//" +:+ join_with_slash comps
      end in
    if String.eqb path' "" then "." else path'.

End posixpath.

(** ** String formatting (Python built-ins and loguru) *)

(** [fmt % args] for the conversions the module uses ([%s], [%d]); the
    arguments are already rendered with [str].  A right operand that is
    not a tuple is the one-element list. *)
Fixpoint percent_format (fmt : string) (args : list string) : Res string :=
  match fmt with
  | EmptyString =>
      match args with
      | [] => inr ""
      | _ => inl (mkExn TypeError
                    "not all arguments converted during string formatting")
      end
  | String c rest =>
      if Ascii.eqb c "%"%char then
        match rest with
        | String d rest' =>
            if Ascii.eqb d "s"%char || Ascii.eqb d "d"%char then
              match args with
              | a :: args' =>
                  match percent_format rest' args' with
                  | inr s => inr (a +:+ s)
                  | inl e => inl e
                  end
              | [] => inl (mkExn TypeError
                             "not enough arguments for format string")
              end
            else if Ascii.eqb d "%"%char then
              match percent_format rest' args with
              | inr s => inr (String d s)
              | inl e => inl e
              end
            else inl (mkExn ValueError "unsupported format character")
        | EmptyString => inl (mkExn ValueError "incomplete format")
        end
      else
        match percent_format rest args with
        | inr s => inr (String c s)
        | inl e => inl e
        end
  end.

(** Number of [{}] replacement fields of a loguru message. *)
Fixpoint count_fields (fmt : string) : nat :=
  match fmt with
  | EmptyString => 0%nat
  | String c rest =>
      match rest with
      | String d rest' =>
          if Ascii.eqb c "{"%char && Ascii.eqb d "}"%char
          then S (count_fields rest') else count_fields rest
      | EmptyString => 0%nat
      end
  end.

(** [str(x)] of an optional string: [None] prints as ["None"]. *)
Definition str_opt (o : option string) : string :=
  match o with Some s => s | None => "None" end.

(** Truth value of an optional string: [None] and [''] are false. *)
Definition truthy_str (o : option string) : bool :=
  match o with Some s => negb (String.eqb s "") | None => false end.






(** ** Data of the module *)

(** [ConnectionConfig]: the named tuple that identifies a connection.
    Fields hold what Python puts there: [None] or a value. *)
Record ConnectionConfig := mkConnectionConfig {
  conf_host : option string;
  conf_port : Z;
  conf_username : option string;
  conf_password : option string;
  conf_private_key : option string;
  conf_private_key_pass : option string
}.

#[global] Instance ConnectionConfig_eq_dec : EqDecision ConnectionConfig.
Proof. solve_decision. Defined.

(** A task entry: [title], [url] and the fields the plugins read or set. *)
Record Entry := mkEntry {
  title : string;
  url : string;
  location : option string;
  content_size : option Z;
  entry_private_key : option string;
  entry_private_key_pass : option string
}.

#[global] Instance Entry_eq_dec : EqDecision Entry.
Proof. solve_decision. Defined.

(** [dirs] is one string or a list of strings ([one_or_more]). *)
Inductive OneOrMore := One (d : string) | Many (ds : list string).

(** The plugin configuration dictionary, with the keys of the three
    schemas; a key that may be absent is an [option]. *)
Record Config := mkConfig {
  cfg_host : string;
  cfg_port : Z;                      (* the schema default is 22 *)
  cfg_username : string;
  cfg_password : option string;
  cfg_private_key : option string;
  cfg_private_key_pass : option string;
  cfg_files_only : bool;
  cfg_recursive : bool;
  cfg_get_size : bool;
  cfg_dirs : option OneOrMore;
  cfg_to : option string;
  cfg_delete_origin : bool
}.

(** What [urlparse(url)] exposes; reading [port] raises [ValueError] on a
    port that is not a number. *)
Record ParseResult := mkParseResult {
  pr_scheme : string;
  pr_hostname : option string;
  pr_username : option string;
  pr_password : option string;
  pr_port : Res (option Z);
  pr_path : string
}.

(** The path module bound to [os.path] on the host. *)
Record PathModule := mkPathModule {
  pm_join : string -> string -> string;
  pm_split : string -> string * string;
  pm_dirname : string -> string;
  pm_basename : string -> string
}.

Definition remotepath : PathModule :=
  mkPathModule posixpath.join posixpath.split posixpath.dirname
    posixpath.basename.

(** Collaborators outside the module: [os.path], [urllib.parse], the
    template renderer and [str] of an entry. *)
Class Platform := mkPlatform {
  localpath : PathModule;
  urlparse : string -> ParseResult;
  quote : string -> string;
  unquote : string -> string;
  urljoin : string -> string -> string;
  render_from_entry : string -> Entry -> Res string;
  entry_str : Entry -> string
}.

(** ** The world *)

(** A node of a server's namespace.  [lstat] reports the length of a
    file's content and, for other nodes, the size the server stores. *)
Inductive rnode :=
| RFile (content : string)
| RDir (st_size : Z) (names : list string)
| ROther (st_size : Z).

Inductive lnode := LFile (content : string) | LDir.

#[global] Instance rnode_eq_dec : EqDecision rnode.
Proof. solve_decision. Defined.

#[global] Instance lnode_eq_dec : EqDecision lnode.
Proof. solve_decision. Defined.

(** A transport fault: the request fails at once, or (for a transfer)
    after [k] bytes were written to the target. *)
Inductive Fault := Abort (e : Exn) | Cut (k : nat) (e : Exn).

Definition Session : Type := nat.

Record SessionState := mkSessionState {
  ss_conf : ConnectionConfig;
  ss_cwd : option string;
  ss_timeout : option Z;
  ss_live : bool
}.

Inductive Call :=
| CStat (p : string) | CLstat (p : string) | CListdir (p : string)
| CNormalize (p : string)
| CGet (remote_p local_p : string) | CPut (local_p remote_p : string)
| CRemove (p : string) | CRmdir (p : string) | CMkdir (p : string).

Inductive Event :=
| EvConnect (conf : ConnectionConfig)
| EvSleep (seconds : Z)
| EvRequest (s : Session) (c : Call)
| EvClose (s : Session).

#[global] Instance Call_eq_dec : EqDecision Call.
Proof. solve_decision. Defined.

#[global] Instance Event_eq_dec : EqDecision Event.
Proof. solve_decision. Defined.

Inductive Level := DEBUG | VERBOSE | WARNING | ERROR.

Record LogRecord := mkLogRecord {
  lr_level : Level; lr_message : string; lr_args : list string
}.

Record World := mkWorld {
  has_pysftp : bool;                  (* [import pysftp] succeeded *)
  conn_plan : nat -> option Exn;      (* fate of the n-th connection attempt *)
  attempts : nat;                     (* connection attempts so far *)
  fault_plan : nat -> option Fault;   (* fault met by the n-th request *)
  requests : nat;                     (* requests sent so far *)
  sessions : list SessionState;       (* connection objects, by identity *)
  remote : gmap string (gmap string rnode);  (* host, then request path *)
  local : gmap string lnode;          (* local file system *)
  log_active : bool;                  (* a loguru handler is installed *)
  log : list LogRecord;               (* calls made to the logger *)
  trace : list Event;                 (* connections, sleeps, requests *)
  failed : list (Entry * string)      (* calls of [entry.fail] *)
}.

Definition set_attempts (n : nat) (w : World) : World :=
  mkWorld (has_pysftp w) (conn_plan w) n (fault_plan w) (requests w)
    (sessions w) (remote w) (local w) (log_active w) (log w) (trace w)
    (failed w).

Definition set_requests (n : nat) (w : World) : World :=
  mkWorld (has_pysftp w) (conn_plan w) (attempts w) (fault_plan w) n
    (sessions w) (remote w) (local w) (log_active w) (log w) (trace w)
    (failed w).

Definition set_sessions (ss : list SessionState) (w : World) : World :=
  mkWorld (has_pysftp w) (conn_plan w) (attempts w) (fault_plan w)
    (requests w) ss (remote w) (local w) (log_active w) (log w) (trace w)
    (failed w).

Definition set_remote (r : gmap string (gmap string rnode)) (w : World)
    : World :=
  mkWorld (has_pysftp w) (conn_plan w) (attempts w) (fault_plan w)
    (requests w) (sessions w) r (local w) (log_active w) (log w) (trace w)
    (failed w).

Definition set_local (l : gmap string lnode) (w : World) : World :=
  mkWorld (has_pysftp w) (conn_plan w) (attempts w) (fault_plan w)
    (requests w) (sessions w) (remote w) l (log_active w) (log w) (trace w)
    (failed w).

Definition add_log (r : LogRecord) (w : World) : World :=
  mkWorld (has_pysftp w) (conn_plan w) (attempts w) (fault_plan w)
    (requests w) (sessions w) (remote w) (local w) (log_active w)
    (log w ++ [r]) (trace w) (failed w).

Definition add_event (ev : Event) (w : World) : World :=
  mkWorld (has_pysftp w) (conn_plan w) (attempts w) (fault_plan w)
    (requests w) (sessions w) (remote w) (local w) (log_active w) (log w)
    (trace w ++ [ev]) (failed w).

Definition add_failed (e : Entry) (reason : string) (w : World) : World :=
  mkWorld (has_pysftp w) (conn_plan w) (attempts w) (fault_plan w)
    (requests w) (sessions w) (remote w) (local w) (log_active w) (log w)
    (trace w) (failed w ++ [(e, reason)]).

(** ** [time], [loguru] and [Entry.fail] *)

Definition time_sleep (seconds : Z) : M World unit :=
  fun w => (inr tt, add_event (EvSleep seconds) w).

(** [logger.<level>(message, *args)]: with a handler installed the
    message is formatted with [str.format] when arguments are given, and
    a replacement field without an argument raises [IndexError]. *)
Definition logger (lvl : Level) (message : string) (args : list string)
    : M World unit :=
  fun w =>
    if log_active w
       && match args with
          | [] => false
          | _ => Nat.ltb (length args) (count_fields message)
          end
    then (inl (mkExn IndexError
                 ("Replacement index " +:+ pretty (length args)
                  +:+ " out of range for positional args tuple")),
          w)
    else (inr tt, add_log (mkLogRecord lvl message args) w).

Definition entry_fail (e : Entry) (reason : string) : M World unit :=
  fun w => (inr tt, add_failed e reason w).

Definition get_world : M World World := fun w => (inr w, w).

Definition modify_world (f : World -> World) : M World unit :=
  fun w => (inr tt, f w).

(** ** [os] and [os.path] on the local file system (modelled library)

    The local file system is a table from path strings to nodes; an
    operation fails only for the reason the table shows (a missing parent,
    a name already taken). *)

Section LocalFileSystem.
Context `{Platform}.

Definition os_path_exists (p : string) : M World bool :=
  fun w => (inr (bool_decide (is_Some (local w !! p))), w).

Definition os_remove (p : string) : M World unit :=
  w <- get_world ;;
  match local w !! p with
  | Some (LFile _) => modify_world (set_local (delete p (local w)))
  | Some LDir => raise (mkExn IsADirectoryError p)
  | None => raise (mkExn FileNotFoundError p)
  end.

(** The parent of a bare name is the working directory, which exists. *)
Definition parent_is_dir (p : string) (w : World) : bool :=
  let d := pm_dirname localpath p in
  String.eqb d "" || bool_decide (local w !! d = Some LDir).

Definition os_mkdir (p : string) : M World unit :=
  w <- get_world ;;
  if String.eqb p "" then raise (mkExn FileNotFoundError p)
  else if bool_decide (is_Some (local w !! p))
  then raise (mkExn FileExistsError p)
  else if negb (parent_is_dir p w) then raise (mkExn FileNotFoundError p)
  else modify_world (set_local (<[p := LDir]> (local w))).

(** [os.makedirs(name)]; [depth] bounds the recursion on the head. *)
Fixpoint os_makedirs_rec (depth : nat) (name : string) : M World unit :=
  match depth with
  | O => raise (mkExn RecursionError "maximum recursion depth exceeded")
  | S depth' =>
      let '(head, tail) := pm_split localpath name in
      let '(head, tail) :=
        if String.eqb tail "" then pm_split localpath head
        else (head, tail) in
      head_exists <- os_path_exists head ;;
      if negb (String.eqb head "") && negb (String.eqb tail "")
         && negb head_exists
      then
        try_except (os_makedirs_rec depth' head)
          (is_class FileExistsError) (fun _ => ret tt) ;;;
        if String.eqb tail "." then ret tt else os_mkdir name
      else os_mkdir name
  end.

Definition os_makedirs (name : string) : M World unit :=
  os_makedirs_rec (S (String.length name)) name.

(** [open(p, 'wb')] followed by writing [content]. *)
Definition local_write (p content : string) : M World unit :=
  w <- get_world ;;
  match local w !! p with
  | Some LDir => raise (mkExn IsADirectoryError p)
  | _ =>
      if String.eqb p "" || negb (parent_is_dir p w)
      then raise (mkExn FileNotFoundError p)
      else modify_world (set_local (<[p := LFile content]> (local w)))
  end.

End LocalFileSystem.

(** ** [pysftp.Connection] (modelled library)

    A server's namespace is a table from the path string of a request to
    a node; two spellings of one path are two keys.  A request first
    meets the fault plan, then the table. *)

Inductive FileType := S_IFREG | S_IFDIR | S_IFOTHER.

Record SFTPAttributes := mkAttrs { st_mode : FileType; attr_size : Z }.

Definition attrs_of (n : rnode) : SFTPAttributes :=
  match n with
  | RFile content => mkAttrs S_IFREG (Z.of_nat (String.length content))
  | RDir sz _ => mkAttrs S_IFDIR sz
  | ROther sz => mkAttrs S_IFOTHER sz
  end.

Definition no_such_file (p : string) : Exn := mkExn FileNotFoundError p.

(** paramiko's [_adjust_cwd]. *)
Definition adjust_cwd (cwd : option string) (path : string) : string :=
  match cwd with
  | None => path
  | Some d =>
      if posixpath.startswith_slash path then path
      else if String.eqb d "/" then d +:+ path
      else d +:+ "/" +:+ path
  end.

Definition server_of (w : World) (ss : SessionState) : gmap string rnode :=
  match conf_host (ss_conf ss) with
  | Some h => default ∅ (remote w !! h)
  | None => ∅
  end.

Definition set_server (ss : SessionState) (fs : gmap string rnode)
    (w : World) : World :=
  match conf_host (ss_conf ss) with
  | Some h => set_remote (<[h := fs]> (remote w)) w
  | None => w
  end.

Definition parent_key (a : string) : string :=
  let d := posixpath.dirname a in if String.eqb d "" then "." else d.

Definition has_name (x : string) (names : list string) : bool :=
  existsb (String.eqb x) names.

(** Enter or drop the name of [a] in the listing of its parent. *)
Definition link (a : string) (fs : gmap string rnode) : gmap string rnode :=
  alter (fun n =>
           match n with
           | RDir sz names =>
               let x := posixpath.basename a in
               RDir sz (if has_name x names then names else names ++ [x])
           | _ => n
           end) (parent_key a) fs.

Definition unlink (a : string) (fs : gmap string rnode) : gmap string rnode :=
  alter (fun n =>
           match n with
           | RDir sz names =>
               RDir sz (List.filter
                          (fun x => negb (String.eqb x (posixpath.basename a)))
                          names)
           | _ => n
           end) (parent_key a) (delete a fs).

Fixpoint insert_sorted (x : string) (l : list string) : list string :=
  match l with
  | [] => [x]
  | y :: l' => if String.leb x y then x :: l else y :: insert_sorted x l'
  end.

(** [sorted(names)] *)
Definition sorted (l : list string) : list string :=
  fold_right insert_sorted [] l.

(** [pysftp.Connection(...)]: the next entry of the connection plan
    decides; a new connection object is live, with no working directory. *)
Definition pysftp_Connection (conf : ConnectionConfig) : M World Session :=
  fun w =>
    if negb (has_pysftp w)
    then (inl (mkExn AttributeError
                 "'NoneType' object has no attribute 'Connection'"), w)
    else
      let w1 := add_event (EvConnect conf)
                  (set_attempts (S (attempts w)) w) in
      match conn_plan w (attempts w) with
      | Some e => (inl e, w1)
      | None =>
          (inr (length (sessions w)),
           set_sessions
             (sessions w ++ [mkSessionState conf None None true]) w1)
      end.

Definition update_session (s : Session) (f : SessionState -> SessionState)
    : M World unit :=
  modify_world (fun w => set_sessions (alter f s (sessions w)) w).

(** [sftp.timeout = seconds], as a plain assignment.  pysftp's setter
    opens the SFTP channel before it sets the timeout; a failure of the
    channel at this point is left out of the model, where the setter
    always returns. *)
Definition set_timeout (s : Session) (seconds : Z) : M World unit :=
  update_session s (fun ss =>
    mkSessionState (ss_conf ss) (ss_cwd ss) (Some seconds) (ss_live ss)).

Definition sftp_close (s : Session) : M World unit :=
  update_session s (fun ss =>
    mkSessionState (ss_conf ss) (ss_cwd ss) (ss_timeout ss) false) ;;;
  modify_world (add_event (EvClose s)).


(** Send a request: it is counted and recorded, needs a live session,
    and meets the fault planned for it, if any. *)
Definition begin_request (s : Session) (c : Call)
    : M World (SessionState * option Fault) :=
  fun w =>
    let w1 := add_event (EvRequest s c) (set_requests (S (requests w)) w) in
    match sessions w !! s with
    | Some ss =>
        if ss_live ss then (inr (ss, fault_plan w (requests w)), w1)
        else (inl (mkExn SSHException "SSH session not active"), w1)
    | None => (inl (mkExn SSHException "SSH session not active"), w1)
    end.

Definition request (s : Session) (c : Call) : M World SessionState :=
  r <- begin_request s c ;;
  match snd r with
  | Some (Abort e) | Some (Cut _ e) => raise e
  | None => ret (fst r)
  end.

(** The node a request path names: the table is asked for the string
    paramiko sends, as it is.  A server would resolve other spellings of
    a path too (the empty path, a trailing slash); here they name no
    node. *)
Definition node_at (w : World) (ss : SessionState) (path : string)
    : option rnode :=
  server_of w ss !! adjust_cwd (ss_cwd ss) path.

Definition sftp_stat (s : Session) (path : string) : M World SFTPAttributes :=
  ss <- request s (CStat path) ;;
  w <- get_world ;;
  match node_at w ss path with
  | Some n => ret (attrs_of n)
  | None => raise (no_such_file path)
  end.

Definition sftp_lstat (s : Session) (path : string) : M World SFTPAttributes :=
  ss <- request s (CLstat path) ;;
  w <- get_world ;;
  match node_at w ss path with
  | Some n => ret (attrs_of n)
  | None => raise (no_such_file path)
  end.

(** [exists], [lexists], [isfile], [isdir]: an [IOError] means no. *)
Definition sftp_exists (s : Session) (path : string) : M World bool :=
  try_except (sftp_stat s path ;;; ret true) is_IOError (fun _ => ret false).

Definition sftp_lexists (s : Session) (path : string) : M World bool :=
  try_except (sftp_lstat s path ;;; ret true) is_IOError (fun _ => ret false).

Definition sftp_isfile (s : Session) (path : string) : M World bool :=
  try_except
    (a <- sftp_stat s path ;;
     ret (match st_mode a with S_IFREG => true | _ => false end))
    is_IOError (fun _ => ret false).

Definition sftp_isdir (s : Session) (path : string) : M World bool :=
  try_except
    (a <- sftp_stat s path ;;
     ret (match st_mode a with S_IFDIR => true | _ => false end))
    is_IOError (fun _ => ret false).

Definition sftp_listdir (s : Session) (path : string)
    : M World (list string) :=
  ss <- request s (CListdir path) ;;
  w <- get_world ;;
  match node_at w ss path with
  | Some (RDir _ names) => ret (sorted names)
  | _ => raise (no_such_file path)
  end.

(** The server's [realpath], for a namespace without links whose home
    directory is the root. *)
Definition sftp_normalize (s : Session) (path : string) : M World string :=
  ss <- request s (CNormalize path) ;;
  ret (posixpath.normpath
         (posixpath.join "/" (adjust_cwd (ss_cwd ss) path))).

(** [cwd] / [chdir] *)
Definition sftp_cwd (s : Session) (path : string) : M World unit :=
  a <- sftp_stat s path ;;
  match st_mode a with
  | S_IFDIR =>
      p <- sftp_normalize s path ;;
      update_session s (fun ss =>
        mkSessionState (ss_conf ss) (Some p) (ss_timeout ss) (ss_live ss))
  | _ => raise (mkExn SFTPError ("Not a directory: " +:+ path))
  end.

Definition sftp_remove (s : Session) (path : string) : M World unit :=
  ss <- request s (CRemove path) ;;
  w <- get_world ;;
  match node_at w ss path with
  | Some (RFile _) | Some (ROther _) =>
      modify_world
        (set_server ss (unlink (adjust_cwd (ss_cwd ss) path) (server_of w ss)))
  | Some (RDir _ _) => raise (mkExn OSError "Failure")
  | None => raise (no_such_file path)
  end.

Definition sftp_rmdir (s : Session) (path : string) : M World unit :=
  ss <- request s (CRmdir path) ;;
  w <- get_world ;;
  match node_at w ss path with
  | Some (RDir _ []) =>
      modify_world
        (set_server ss (unlink (adjust_cwd (ss_cwd ss) path) (server_of w ss)))
  | Some _ => raise (mkExn OSError "Failure")
  | None => raise (no_such_file path)
  end.

Definition is_rdir (o : option rnode) : bool :=
  match o with Some (RDir _ _) => true | _ => false end.

Definition sftp_mkdir (s : Session) (path : string) : M World unit :=
  ss <- request s (CMkdir path) ;;
  w <- get_world ;;
  let a := adjust_cwd (ss_cwd ss) path in
  match server_of w ss !! a with
  | Some _ => raise (mkExn OSError "Failure")
  | None =>
      if is_rdir (server_of w ss !! parent_key a)
      then modify_world
             (set_server ss (<[a := RDir 4096 []]> (link a (server_of w ss))))
      else raise (no_such_file path)
  end.

Section Transfers.
Context `{Platform}.

(** [makedirs(remotedir)]: create the directory and its missing
    ancestors; [depth] bounds the recursion on the head. *)
Fixpoint sftp_makedirs_rec (depth : nat) (s : Session) (remotedir : string)
    : M World unit :=
  match depth with
  | O => raise (mkExn RecursionError "maximum recursion depth exceeded")
  | S depth' =>
      is_d <- sftp_isdir s remotedir ;;
      if is_d then ret tt
      else
        is_f <- sftp_isfile s remotedir ;;
        if is_f
        then raise (mkExn OSError
                      ("a file with the same name as the remotedir, '"
                       +:+ remotedir +:+ "', already exists."))
        else
          let '(head, tail) := pm_split localpath remotedir in
          (if negb (String.eqb head "")
           then head_is_d <- sftp_isdir s head ;;
                if head_is_d then ret tt
                else sftp_makedirs_rec depth' s head
           else ret tt) ;;;
          if negb (String.eqb tail "") then sftp_mkdir s remotedir
          else ret tt
  end.

Definition sftp_makedirs (s : Session) (remotedir : string) : M World unit :=
  sftp_makedirs_rec (S (String.length remotedir)) s remotedir.

(** [get(remotepath, localpath)]: the local file is opened for writing
    first, then the remote content is copied into it. *)
Definition sftp_get (s : Session) (remote_p local_p : string)
    : M World unit :=
  let local_p :=
    if String.eqb local_p "" then snd (pm_split localpath remote_p)
    else local_p in
  r <- begin_request s (CGet remote_p local_p) ;;
  match snd r with
  | Some (Abort e) => raise e
  | fault =>
      local_write local_p "" ;;;
      w <- get_world ;;
      match node_at w (fst r) remote_p with
      | Some (RFile content) =>
          match fault with
          | Some (Cut k e) =>
              local_write local_p (String.substring 0 k content) ;;;
              raise e
          | _ => local_write local_p content
          end
      | _ => raise (no_such_file remote_p)
      end
  end.

(** [put(localpath, remotepath)]: the local file is read, the remote
    file is opened for writing in its directory, then written. *)
Definition sftp_put (s : Session) (local_p remote_p : string)
    : M World unit :=
  let remote_p :=
    if String.eqb remote_p "" then snd (pm_split localpath local_p)
    else remote_p in
  r <- begin_request s (CPut local_p remote_p) ;;
  match snd r with
  | Some (Abort e) => raise e
  | fault =>
      w <- get_world ;;
      match local w !! local_p with
      | Some (LFile content) =>
          let ss := fst r in
          let a := adjust_cwd (ss_cwd ss) remote_p in
          if is_rdir (server_of w ss !! parent_key a)
             && negb (is_rdir (server_of w ss !! a))
          then
            match fault with
            | Some (Cut k e) =>
                modify_world
                  (set_server ss
                     (<[a := RFile (String.substring 0 k content)]>
                        (link a (server_of w ss)))) ;;;
                raise e
            | _ =>
                modify_world
                  (set_server ss
                     (<[a := RFile content]> (link a (server_of w ss))))
            end
          else raise (no_such_file remote_p)
      | Some LDir => raise (mkExn IsADirectoryError local_p)
      | None => raise (mkExn FileNotFoundError local_p)
      end
  end.

End Transfers.

(** [walktree(remotepath, fcallback, dcallback, ucallback, recurse)]: the
    children of [remotepath], in listing order, each passed to the
    callback of its kind; a directory is entered after its callback.  The
    recursive call leaves [recurse] at its default, [True].  [depth]
    bounds the nesting of calls.  The callbacks run over a state that
    pairs the world with the list their closure captured. *)
Fixpoint walktree {L} (depth : nat) (s : Session) (remotepath : string)
    (fcallback dcallback ucallback : string -> M (L * World) unit)
    (recurse : bool) : M (L * World) unit :=
  match depth with
  | O => raise (mkExn RecursionError "maximum recursion depth exceeded")
  | S depth' =>
      names <- liftW (sftp_listdir s remotepath) ;;
      for_each names (fun entry =>
        let pathname := posixpath.join remotepath entry in
        a <- liftW (sftp_stat s pathname) ;;
        match st_mode a with
        | S_IFDIR =>
            dcallback pathname ;;;
            if recurse
            then walktree depth' s pathname fcallback dcallback ucallback true
            else ret tt
        | S_IFREG => fcallback pathname
        | S_IFOTHER => ucallback pathname
        end)
  end.

(** Run [c] with a fresh captured list and give the list back with the
    result. *)
Definition with_captured {L A} (init : L) (c : M (L * World) A)
    : M World (A * L) :=
  fun w => match c (init, w) with
           | (inr a, (l, w')) => (inr (a, l), w')
           | (inl e, (_, w')) => (inl e, w')
           end.

(** [captured.append(x)] *)
Definition append_captured {X} (x : X) : M (list X * World) unit :=
  fun s => (inr tt, ((fst s ++ [x])%list, snd s)).

(** A method call on a variable that holds [None] or a connection. *)
Definition on_sftp {St A} (sftp : option Session) (k : Session -> M St A)
    : M St A :=
  match sftp with
  | Some s => k s
  | None => raise (mkExn AttributeError "'NoneType' object has no attribute")
  end.

(** * The module [sftp.py] *)

(** Retry configuration constants. *)
Definition CONNECT_TRIES : nat := 3.
Definition RETRY_INTERVAL : Z := 15.
Definition RETRY_STEP : Z := 5.
Definition SOCKET_TIMEOUT : Z := 15.

(** The loop of [sftp_connect], with its two counters as arguments.  The
    loop ends when [sftp] holds a connection object, which is what it then
    returns; the variable starts as [None].  The variable is bound when
    the constructor returns; after that nothing raises here ([set_timeout]
    always returns and the log call has its argument), so the handler runs
    only with [sftp] still [None] and the pass after it opens a new
    connection.  A pass whose constructor returned and whose timeout
    assignment raised would, in the source, leave the loop after the wait
    with the connection it has; that pass does not exist in this model. *)
Fixpoint sftp_connect_loop (tries : nat) (retry_interval : Z)
    (conf : ConnectionConfig) : M World (option Session) :=
  try_except
    (s <- pysftp_Connection conf ;;
     set_timeout s SOCKET_TIMEOUT ;;;
     logger VERBOSE "Connected to {}" [str_opt (conf_host conf)] ;;;
     ret (Some s))
    any_exception
    (fun e =>
       match tries with
       | O => raise e
       | S tries' =>
           logger DEBUG "Caught exception: {}" [exn_msg e] ;;;
           logger WARNING
             "Failed to connect to {}; waiting {} seconds before retrying."
             [str_opt (conf_host conf); pretty retry_interval] ;;;
           time_sleep retry_interval ;;;
           sftp_connect_loop tries' (retry_interval + RETRY_STEP) conf
       end).

(** Helper function to connect to an sftp server. *)
Definition sftp_connect (conf : ConnectionConfig) : M World (option Session) :=
  sftp_connect_loop CONNECT_TRIES RETRY_INTERVAL conf.

(** Creates an SFTP connection from a Flexget config object. *)
Definition sftp_from_config (config : Config) : M World (option Session) :=
  let conn_conf :=
    mkConnectionConfig (Some (cfg_host config)) (cfg_port config)
      (Some (cfg_username config)) (cfg_password config)
      (cfg_private_key config) (cfg_private_key_pass config) in
  try_except (sftp_connect conn_conf) any_exception
    (fun e =>
       msg <- lift_res (percent_format "Failed to connect to %s (%s)"
                          [cfg_host config; exn_msg e]) ;;
       raise (mkExn PluginError msg)).

(** Generate SFTP URL prefix. *)
Definition sftp_prefix (config : Config) : Res string :=
  let login_str :=
    if negb (String.eqb (cfg_username config) "")
       && truthy_str (cfg_password config)
    then percent_format "%s:%s@"
           [cfg_username config; str_opt (cfg_password config)]
    else if negb (String.eqb (cfg_username config) "")
    then percent_format "%s@" [cfg_username config]
    else inr "" in
  let port_str :=
    if negb (cfg_port config =? 0) && negb (cfg_port config =? 22)
    then percent_format ":%d" [pretty (cfg_port config)]
    else inr "" in
  match login_str, port_str with
  | inr l, inr p => percent_format "sftp://%s%s%s/" [l; cfg_host config; p]
  | inl e, _ => inl e
  | _, inl e => inl e
  end.

(** Check if pysftp module is present. *)
Definition dependency_check : M World unit :=
  w <- get_world ;;
  if negb (has_pysftp w)
  then raise (mkExn DependencyError
                "sftp plugin requires the pysftp Python module.")
  else ret tt.

Definition with_content_size (e : Entry) (size : Z) : Entry :=
  mkEntry (title e) (url e) (location e) (Some size)
    (entry_private_key e) (entry_private_key_pass e).

Definition with_private_key (e : Entry) (k : string) : Entry :=
  mkEntry (title e) (url e) (location e) (content_size e)
    (Some k) (entry_private_key_pass e).

Definition with_private_key_pass (e : Entry) (k : string) : Entry :=
  mkEntry (title e) (url e) (location e) (content_size e)
    (entry_private_key e) (Some k).

(** [sum(sizes)] *)
Definition sum (sizes : list Z) : Z := fold_right Z.add 0 sizes.

Module SftpList.
Section SftpList.
Context `{Platform}.

(** Sets defaults for the provided configuration. *)
Definition prepare_config (config : Config) : Config :=
  mkConfig (cfg_host config) (cfg_port config) (cfg_username config)
    (cfg_password config) (cfg_private_key config)
    (cfg_private_key_pass config) (cfg_files_only config)
    (cfg_recursive config) (cfg_get_size config)
    (Some (default (Many ["."]) (cfg_dirs config)))
    (cfg_to config) (cfg_delete_origin config).

Section Handlers.
(** The variables the nested functions of [on_task_input] capture;
    [depth] is the bound handed to [walktree]. *)
Variable depth : nat.
Variable sftp : option Session.
Variable url_prefix : string.
Variables files_only get_size : bool.
Variables private_key private_key_pass : option string.

(** Helper function to get the size of a node. *)
Definition file_size (path : string) : M World Z :=
  on_sftp sftp (fun s => a <- sftp_lstat s path ;; ret (attr_size a)).

Definition node_size (f : string) : M (list Z * World) unit :=
  sz <- liftW (file_size f) ;;
  append_captured sz.

(** Walk a directory to get its size. *)
Definition dir_size (path : string) : M World Z :=
  r <- with_captured []
         (on_sftp sftp (fun s =>
            walktree depth s path node_size node_size node_size true)) ;;
  ret (sum (snd r)).

(** Generic helper function for handling a remote file system node. *)
Definition handle_node (path : string) (size_handler : string -> M World Z)
    (is_dir : bool) : M (list Entry * World) unit :=
  if is_dir && files_only then ret tt
  else
    normalized <- liftW (on_sftp sftp (fun s => sftp_normalize s path)) ;;
    let url := urljoin url_prefix (quote normalized) in
    let title := posixpath.basename path in
    let entry := mkEntry title url None None None None in
    entry <-
      (if get_size
       then
         size <- liftW
           (try_except (size_handler path) any_exception
              (fun e =>
                 logger ERROR "Failed to get size for {} ({})"
                   [path; exn_msg e] ;;;
                 ret (-1))) ;;
         ret (with_content_size entry size)
       else ret entry) ;;
    let entry :=
      if truthy_str private_key
      then
        let entry := with_private_key entry (str_opt private_key) in
        if truthy_str private_key_pass
        then with_private_key_pass entry (str_opt private_key_pass)
        else entry
      else entry in
    append_captured entry.

Definition handle_file (path : string) : M (list Entry * World) unit :=
  handle_node path file_size false.

Definition handle_dir (path : string) : M (list Entry * World) unit :=
  handle_node path dir_size true.

(** Skip unknown files. *)
Definition handle_unknown (path : string) : M (list Entry * World) unit :=
  liftW (logger WARNING "Skipping unknown file: {}" [path]).

End Handlers.

(** Input task handler. *)
Definition on_task_input (depth : nat) (config : Config)
    : M World (list Entry) :=
  dependency_check ;;;
  let config := prepare_config config in
  let files_only := cfg_files_only config in
  let recursive := cfg_recursive config in
  let get_size := cfg_get_size config in
  let private_key := cfg_private_key config in
  let private_key_pass := cfg_private_key_pass config in
  let dirs :=
    match cfg_dirs config with
    | Some (Many ds) => ds
    | Some (One d) => [d]
    | None => []
    end in
  logger DEBUG "Connecting to {}" [cfg_host config] ;;;
  sftp <- sftp_from_config config ;;
  url_prefix <- lift_res (sftp_prefix config) ;;
  r <- with_captured []
         (for_each dirs (fun dir =>
            try_except
              (on_sftp sftp (fun s =>
                 walktree depth s dir
                   (handle_file sftp url_prefix files_only get_size
                      private_key private_key_pass)
                   (handle_dir depth sftp url_prefix files_only get_size
                      private_key private_key_pass)
                   handle_unknown recursive))
              is_IOError
              (fun e =>
                 liftW (logger ERROR "Failed to open {} ({})"
                          [dir; exn_msg e])))) ;;
  on_sftp sftp sftp_close ;;;
  ret (snd r).

End SftpList.
End SftpList.

(** ** [itertools.groupby] (Python standard library)

    [groupby(items, key)] yields one pair of a key and a run for each
    maximal run of consecutive items with equal keys. *)
Fixpoint groupby {A K} `{EqDecision K} (key : A -> K) (items : list A)
    : list (K * list A) :=
  match items with
  | [] => []
  | x :: items' =>
      match groupby key items' with
      | (k, run) :: groups =>
          if decide (key x = k) then (k, x :: run) :: groups
          else (key x, [x]) :: (k, run) :: groups
      | [] => [(key x, [x])]
      end
  end.

(** The loop [for k, run in groupby(items, key): ...] as it executes: the
    iterator is lazy, so the key of an item is computed when the loop
    reaches it, after the items before it were processed.  [start k] is
    the loop body up to the inner loop and yields what the rest of the
    body needs, [item g x] is the body of the inner loop over the run, and
    [finish g] is the loop body after it. *)
Fixpoint for_groupby_from {St A K G} `{EqDecision K} (key : A -> M St K)
    (start : K -> M St G) (item : G -> A -> M St unit)
    (finish : G -> M St unit) (k : K) (g : G) (rest : list A) : M St unit :=
  match rest with
  | [] => finish g
  | x :: rest' =>
      k' <- key x ;;
      if decide (k' = k)
      then item g x ;;; for_groupby_from key start item finish k g rest'
      else
        finish g ;;;
        g' <- start k' ;;
        item g' x ;;;
        for_groupby_from key start item finish k' g' rest'
  end.

Definition for_groupby {St A K G} `{EqDecision K} (key : A -> M St K)
    (start : K -> M St G) (item : G -> A -> M St unit)
    (finish : G -> M St unit) (items : list A) : M St unit :=
  match items with
  | [] => ret tt
  | x :: rest =>
      k <- key x ;;
      g <- start k ;;
      item g x ;;;
      for_groupby_from key start item finish k g rest
  end.

Module SftpDownload.
Section SftpDownload.
Context `{Platform}.

(** [x or None] for a string that may be [None]. *)
Definition or_none (o : option string) : option string :=
  if truthy_str o then o else None.

(** Parses a url and returns a hashable config. *)
Definition get_sftp_config (entry : Entry)
    : M World (option ConnectionConfig) :=
  let parsed := urlparse (url entry) in
  let host := pr_hostname parsed in
  let username := or_none (pr_username parsed) in
  let password := or_none (pr_password parsed) in
  parsed_port <- lift_res (pr_port parsed) ;;
  let port :=
    match parsed_port with
    | Some p => if p =? 0 then 22 else p
    | None => 22
    end in
  let private_key := entry_private_key entry in
  let private_key_pass := entry_private_key_pass entry in
  if String.eqb (pr_scheme parsed) "sftp"
  then ret (Some (mkConnectionConfig host port username password
                    private_key private_key_pass))
  else
    logger WARNING "Scheme does not match SFTP: {}" [url entry] ;;;
    ret None.

(** Remove a directory if it's empty. *)
Definition remove_dir (sftp : Session) (path : string) : M World unit :=
  ex <- sftp_exists sftp path ;;
  empty <- (if ex
            then names <- sftp_listdir sftp path ;;
                 ret (bool_decide (names = []))
            else ret false) ;;
  if empty
  then
    logger DEBUG "Attempting to delete directory {}" [path] ;;;
    try_except (sftp_rmdir sftp path) any_exception
      (fun e =>
         logger ERROR "Failed to delete directory {} ({})"
           [path; exn_msg e])
  else ret tt.

(** The local path [download_file] writes [path] to under [dest]. *)
Definition destination_of (path dest : string) : string :=
  let dest_relpath :=
    pm_join localpath (fst (pm_split remotepath path))
      (snd (pm_split remotepath path)) in
  pm_join localpath dest dest_relpath.

(** Download a file from path to dest. *)
Definition download_file (path dest : string) (sftp : Session)
    (delete_origin : bool) : M World unit :=
  let dir_name := pm_dirname remotepath path in
  let destination := destination_of path dest in
  let dest_dir := pm_dirname localpath destination in
  dest_exists <- os_path_exists destination ;;
  if dest_exists
  then logger VERBOSE "Destination file already exists. Skipping {}" [path]
  else
    dir_exists <- os_path_exists dest_dir ;;
    (if negb dir_exists then os_makedirs dest_dir else ret tt) ;;;
    logger VERBOSE "Downloading file {} to {}" [path; destination] ;;;
    try_except (sftp_get sftp path destination) any_exception
      (fun e =>
         logger ERROR "Failed to download {} ({})" [path; exn_msg e] ;;;
         partial <- os_path_exists destination ;;
         (if partial
          then
            logger DEBUG "Removing partially downloaded file {}"
              [destination] ;;;
            os_remove destination
          else ret tt) ;;;
         raise e) ;;;
    if delete_origin
    then
      logger DEBUG "Deleting remote file {}" [path] ;;;
      removed <-
        try_except (sftp_remove sftp path ;;; ret true) any_exception
          (fun e =>
             logger ERROR "Failed to delete file {} ({})"
               [path; exn_msg e] ;;;
             ret false) ;;
      if removed then remove_dir sftp dir_name else ret tt
    else ret tt.

(** Dummy directory handler. Does nothing. *)
Definition handle_dir (path : string) : M (unit * World) unit := ret tt.

(** Dummy unknown file handler. Warns about unknown files. *)
Definition handle_unknown (path : string) : M (unit * World) unit :=
  liftW (logger WARNING "Skipping unknown file {}" [path]).

(** Downloads the file(s) described in entry. *)
Definition download_entry (depth : nat) (entry : Entry) (config : Config)
    (sftp : Session) : M World unit :=
  let path :=
    let p := unquote (pr_path (urlparse (url entry))) in
    if String.eqb p "" then "." else p in
  let delete_origin := cfg_delete_origin config in
  let recursive := cfg_recursive config in
  to <- match cfg_to config with
        | Some t => ret t
        | None => raise (mkExn KeyError "'to'")
        end ;;
  rendered <-
    (if negb (String.eqb to "")
     then
       try_except
         (t <- lift_res (render_from_entry to entry) ;; ret (Some t))
         (is_class RenderError)
         (fun e =>
            logger ERROR "Could not render path: {}" [to] ;;;
            entry_fail entry (exn_msg e) ;;;
            ret None)
     else ret (Some to)) ;;
  match rendered with
  | None => ret tt
  | Some to =>
      present <- sftp_lexists sftp path ;;
      if negb present
      then logger ERROR "Remote path does not exist: {}" [path]
      else
        is_f <- sftp_isfile sftp path ;;
        if is_f
        then
          let source_file := pm_basename remotepath path in
          let source_dir := pm_dirname remotepath path in
          try_except
            (sftp_cwd sftp source_dir ;;;
             download_file source_file to sftp delete_origin)
            any_exception
            (fun e =>
               error <- lift_res
                 (percent_format "Failed to download file %s (%s)"
                    [path; exn_msg e]) ;;
               logger ERROR error [] ;;;
               entry_fail entry error)
        else
          is_d <- sftp_isdir sftp path ;;
          if is_d
          then
            let base_path :=
              posixpath.normpath (pm_join remotepath path "..") in
            let dir_name := pm_basename remotepath path in
            let handle_file := fun p =>
              liftW (download_file p to sftp delete_origin) in
            walked <-
              try_except
                (sftp_cwd sftp base_path ;;;
                 r <- with_captured tt
                        (walktree depth sftp dir_name handle_file
                           handle_dir handle_unknown recursive) ;;
                 ret true)
                any_exception
                (fun e =>
                   error <- lift_res
                     (percent_format "Failed to download directory %s (%s)"
                        [path; exn_msg e]) ;;
                   logger ERROR error [] ;;;
                   entry_fail entry error ;;;
                   ret false) ;;
            if walked && delete_origin then remove_dir sftp path
            else ret tt
          else logger WARNING "Skipping unknown file {}" [path]
  end.

(** What one turn of the outer loop of [on_task_download] holds once the
    inner loop starts: nothing when the group is skipped, else the
    variables [sftp] and [error_message]. *)
Definition GroupState : Type := option (option Session * option string).

(** Task handler for sftp_download plugin. *)
Definition on_task_download (depth : nat) (accepted : list Entry)
    (config : Config) : M World unit :=
  dependency_check ;;;
  (* Download entries by host so we can reuse the connection *)
  for_groupby get_sftp_config
    (fun sftp_config =>
       match sftp_config with
       | None => ret None                              (* [continue] *)
       | Some conf =>
           r <- try_except
                  (sftp <- sftp_connect conf ;; ret (sftp, None))
                  any_exception
                  (fun e =>
                     error_message <- lift_res
                       (percent_format "Failed to connect to %s (%s)"
                          [str_opt (conf_host conf); exn_msg e]) ;;
                     logger ERROR error_message [] ;;;
                     ret (None, Some error_message)) ;;
           ret (Some r)
       end)
    (fun (g : GroupState) entry =>
       match g with
       | None => ret tt
       | Some (Some sftp, _) => download_entry depth entry config sftp
       | Some (None, error_message) =>
           entry_fail entry (str_opt error_message)
       end)
    (fun (g : GroupState) =>
       match g with
       | Some (Some sftp, _) => sftp_close sftp
       | _ => ret tt
       end)
    accepted.

End SftpDownload.
End SftpDownload.

(** [try: body  except IOError as e: h1 e  except Exception as e: h2 e];
    an exception raised inside a handler leaves the statement. *)
Definition try_except_IOError_else {St A} (body : M St A)
    (h1 h2 : Exn -> M St A) : M St A :=
  fun s => match body s with
           | (inr a, s') => (inr a, s')
           | (inl e, s') => if is_IOError e then h1 e s' else h2 e s'
           end.

Module SftpUpload.
Section SftpUpload.
Context `{Platform}.

(** Sets defaults for the provided configuration: [None] for [password],
    [private_key], [private_key_pass] and [to], which is what an absent
    key of the record already reads as. *)
Definition prepare_config (config : Config) : Config := config.

(** [remotepath.join(to, filename)]; [None] is not a path. *)
Definition join_to (to : option string) (filename : string) : Res string :=
  match to with
  | Some t => inr (pm_join remotepath t filename)
  | None => inl (mkExn TypeError
                   "expected str, bytes or os.PathLike object, not NoneType")
  end.

Definition handle_entry (entry : Entry) (sftp : Session) (config : Config)
    (url_prefix : string) : M World unit :=
  location <- match location entry with
              | Some l => ret l
              | None => raise (mkExn KeyError "'location'")
              end ;;
  let filename := pm_basename localpath location in
  rendered <-
    (if truthy_str (cfg_to config)
     then
       try_except
         (t <- lift_res
                 (render_from_entry (str_opt (cfg_to config)) entry) ;;
          ret (Some (Some t)))
         (is_class RenderError)
         (fun e =>
            logger ERROR "Could not render path: {}"
              [str_opt (cfg_to config)] ;;;
            entry_fail entry (exn_msg e) ;;;
            ret None)
     else ret (Some (cfg_to config))) ;;
  match rendered with
  | None => ret tt
  | Some to =>
      destination <- lift_res (join_to to filename) ;;
      let destination_url := urljoin url_prefix destination in
      let to := str_opt to in
      source_exists <- os_path_exists location ;;
      if negb source_exists
      then logger WARNING "File no longer exists: {}" [location]
      else
        present <- sftp_lexists sftp to ;;
        made <-
          (if negb present
           then
             try_except (sftp_makedirs sftp to ;;; ret true) any_exception
               (fun e =>
                  logger ERROR "Failed to create remote directory {} ({})"
                    [to; exn_msg e] ;;;
                  entry_fail entry (exn_msg e) ;;;
                  ret false)
           else ret true) ;;
        if negb made then ret tt
        else
          is_d <- sftp_isdir sftp to ;;
          if negb is_d
          then
            logger ERROR "Not a directory: {}" [to] ;;;
            msg <- lift_res (percent_format "Not a directory: %s" [to]) ;;
            entry_fail entry msg
          else
            uploaded <-
              try_except_IOError_else
                (sftp_put sftp location destination ;;;
                 logger VERBOSE "Successfully uploaded {} to {}"
                   [location; destination_url] ;;;
                 ret true)
                (fun e =>
                   logger ERROR "Remote directory does not exist: {} ({})"
                     [to] ;;;
                   msg <- lift_res
                     (percent_format
                        "Remote directory does not exist: %s (%s)" [to]) ;;
                   entry_fail entry msg ;;;
                   ret false)
                (fun e =>
                   logger ERROR "Failed to upload {} ({})"
                     [location; exn_msg e] ;;;
                   msg <- lift_res
                     (percent_format "Failed to upload %s (%s)"
                        [location; exn_msg e]) ;;
                   entry_fail entry msg ;;;
                   ret false) ;;
            if uploaded && cfg_delete_origin config
            then
              try_except (os_remove location) any_exception
                (fun e =>
                   logger ERROR "Failed to delete file {} ({})"
                     [location; exn_msg e])
            else ret tt
  end.

(** Uploads accepted entries to the specified SFTP server. *)
Definition on_task_output (accepted : list Entry) (config : Config)
    : M World unit :=
  let config := prepare_config config in
  sftp <- sftp_from_config config ;;
  url_prefix <- lift_res (sftp_prefix config) ;;
  for_each accepted (fun entry =>
    match sftp with
    | Some s =>
        logger DEBUG "Uploading file: {}" [entry_str entry] ;;;
        handle_entry entry s config url_prefix
    | None =>
        logger DEBUG "SFTP connection failed; failing entry: {}"
          [entry_str entry] ;;;
        msg <- lift_res
          (percent_format "SFTP connection failed; failing entry: %s"
             [entry_str entry]) ;;
        entry_fail entry msg
    end).

End SftpUpload.
End SftpUpload.

(** * A concrete platform and concrete worlds

    Used by the examples, the witnesses and the counterexamples below: a
    POSIX host ([os.path] is [posixpath]), URLs of the shape
    [scheme://[user[:password]@]host[:port]/path] without query, fragment
    or characters that need quoting, templates without fields, and an
    entry printed as its title. *)

Module Demo.

Fixpoint cut_at (c : ascii) (s : string) : option (string * string) :=
  match s with
  | EmptyString => None
  | String d s' =>
      if Ascii.eqb c d then Some ("", s')
      else match cut_at c s' with
           | Some (a, b) => Some (String d a, b)
           | None => None
           end
  end.

Fixpoint cut_at_last (c : ascii) (s : string) : option (string * string) :=
  match s with
  | EmptyString => None
  | String d s' =>
      match cut_at_last c s' with
      | Some (a, b) => Some (String d a, b)
      | None => if Ascii.eqb c d then Some ("", s') else None
      end
  end.

Definition lower (c : ascii) : ascii :=
  let n := nat_of_ascii c in
  if (Nat.leb 65 n && Nat.leb n 90)%bool then ascii_of_nat (n + 32) else c.

Fixpoint lowercase (s : string) : string :=
  match s with
  | EmptyString => EmptyString
  | String c s' => String (lower c) (lowercase s')
  end.

Fixpoint parse_digits (s : string) (acc : Z) : Res (option Z) :=
  match s with
  | EmptyString => inr (Some acc)
  | String c s' =>
      let n := nat_of_ascii c in
      if (Nat.leb 48 n && Nat.leb n 57)%bool
      then parse_digits s' (10 * acc + Z.of_nat (n - 48))
      else inl (mkExn ValueError "Port could not be cast to integer value")
  end.

Definition parse_port (s : string) : Res (option Z) :=
  if String.eqb s "" then inr None else parse_digits s 0.

Definition demo_urlparse (u : string) : ParseResult :=
  match cut_at ":" u with
  | Some (scheme, String "/" (String "/" rest)) =>
      let '(netloc, path) :=
        match cut_at "/" rest with
        | Some (n, p) => (n, String "/" p)
        | None => (rest, "")
        end in
      let '(userinfo, hostinfo) :=
        match cut_at_last "@" netloc with
        | Some (ui, h) => (Some ui, h)
        | None => (None, netloc)
        end in
      let '(user, pass) :=
        match userinfo with
        | Some ui =>
            match cut_at ":" ui with
            | Some (a, b) => (Some a, Some b)
            | None => (Some ui, None)
            end
        | None => (None, None)
        end in
      let '(hostname, port) :=
        match cut_at ":" hostinfo with
        | Some (h, p) => (h, parse_port p)
        | None => (hostinfo, inr None)
        end in
      mkParseResult (lowercase scheme)
        (if String.eqb hostname "" then None else Some (lowercase hostname))
        user pass port path
  | Some (scheme, rest) => mkParseResult (lowercase scheme) None None None
                             (inr None) rest
  | None => mkParseResult "" None None None (inr None) u
  end.

(** [urljoin(base, ref)] for a base that ends in [/]: an absolute
    reference replaces the path of the base. *)
Definition demo_urljoin (base ref : string) : string :=
  if posixpath.startswith_slash ref
  then posixpath.rstrip_slash base +:+ ref
  else base +:+ ref.

#[global] Instance platform : Platform :=
  mkPlatform remotepath demo_urlparse (fun s => s) (fun s => s)
    demo_urljoin (fun t _ => inr t) title.

Definition never {A} (n : nat) : option A := None.

(** A world with nothing in it: no session, no file, no fault. *)
Definition quiet : World :=
  mkWorld true never 0 never 0 [] ∅ ∅ true [] [] [].

Definition with_conn_plan (p : nat -> option Exn) (w : World) : World :=
  mkWorld (has_pysftp w) p (attempts w) (fault_plan w) (requests w)
    (sessions w) (remote w) (local w) (log_active w) (log w) (trace w)
    (failed w).

Definition with_fault_plan (p : nat -> option Fault) (w : World) : World :=
  mkWorld (has_pysftp w) (conn_plan w) (attempts w) p (requests w)
    (sessions w) (remote w) (local w) (log_active w) (log w) (trace w)
    (failed w).

Definition with_log_active (b : bool) (w : World) : World :=
  mkWorld (has_pysftp w) (conn_plan w) (attempts w) (fault_plan w)
    (requests w) (sessions w) (remote w) (local w) b (log w) (trace w)
    (failed w).

(** The fault [f] at request number [n], none elsewhere. *)
Definition fault_at (n : nat) (f : Fault) (k : nat) : option Fault :=
  if Nat.eqb k n then Some f else None.

Definition refused : Exn := mkExn SSHException "Unable to connect".

Definition dropped : Exn := mkExn SSHException "Server connection dropped".

Definition timed_out : Exn := mkExn OSError "timed out".

Definition conf_of (h : string) : ConnectionConfig :=
  mkConnectionConfig (Some h) 22 None None None None.

Definition entry_of (u : string) : Entry :=
  mkEntry u u None None None None.

Definition config_of (h : string) : Config :=
  mkConfig h 22 "user" None None None false true true None None false.

End Demo.



(** * Vocabulary of the statements *)

(** A logger call that cannot raise: every replacement field has an
    argument. *)
Definition fields_ok (message : string) (args : list string) : bool :=
  match args with
  | [] => true
  | _ => negb (Nat.ltb (length args) (count_fields message))
  end.

(** The connection attempts and the waits between them that a retry loop
    with [tries] retries left leaves in the trace when every attempt
    fails. *)
Fixpoint retry_trace (conf : ConnectionConfig) (tries : nat) (interval : Z)
    : list Event :=
  match tries with
  | O => [EvConnect conf]
  | S t =>
      EvConnect conf :: EvSleep interval
        :: retry_trace conf t (interval + RETRY_STEP)
  end.

(** The waits of a trace, in order. *)
Fixpoint sleeps (tr : list Event) : list Z :=
  match tr with
  | [] => []
  | EvSleep n :: tr' => n :: sleeps tr'
  | _ :: tr' => sleeps tr'
  end.

(** The byte copies a trace asks for. *)
Fixpoint gets (tr : list Event) : list (string * string) :=
  match tr with
  | [] => []
  | EvRequest _ (CGet r l) :: tr' => (r, l) :: gets tr'
  | _ :: tr' => gets tr'
  end.

(** [respects R c]: whatever [c] does, returning or raising, the state it
    leaves is related by [R] to the state it started in. *)
Definition respects {St A} (R : relation St) (c : M St A) : Prop :=
  forall s r s', c s = (r, s') -> R s s'.

Definition on_world {L} (R : relation World) : relation (L * World) :=
  fun s s' => R (snd s) (snd s').

(** Relations between worlds that log lines, trace events and the two
    counters cannot break. *)
Class Quiet (R : relation World) := {
  quiet_preorder :: PreOrder R;
  quiet_log : forall r w, R w (add_log r w);
  quiet_event : forall ev w, R w (add_event ev w);
  quiet_requests : forall n w, R w (set_requests n w);
  quiet_attempts : forall n w, R w (set_attempts n w)
}.

Class IgnoresSessions (R : relation World) :=
  ignores_sessions : forall ss w, R w (set_sessions ss w).

Class IgnoresRemote (R : relation World) :=
  ignores_remote : forall r w, R w (set_remote r w).

Class IgnoresLocal (R : relation World) :=
  ignores_local : forall l w, R w (set_local l w).

(** [keeps f]: the part [f] of the world is left as it was. *)
Definition keeps {X} (f : World -> X) : relation World :=
  fun w w' => f w' = f w.

(** [fails_only P]: the calls of [entry.fail] made are all on entries that
    satisfy [P]. *)
Definition fails_only (P : Entry -> Prop) : relation World :=
  fun w w' =>
    exists l, failed w' = (failed w ++ l)%list /\ Forall (fun p => P (fst p)) l.

(** [untouched w w']: nothing happened between [w] and [w'] but logging:
    no request was sent, no file changed on either side, no session
    changed, no entry was failed. *)
Definition untouched (w w' : World) : Prop :=
  trace w' = trace w /\ requests w' = requests w
  /\ remote w' = remote w /\ local w' = local w
  /\ sessions w' = sessions w /\ failed w' = failed w.

(** Two computations that do the same from every state. *)
Definition meq {St A} (c1 c2 : M St A) : Prop := forall s, c1 s = c2 s.

(** ** Grouping *)

(** The leading items of [rest] whose key is [k], and what follows them. *)
Fixpoint run_of {A K} `{EqDecision K} (kp : A -> K) (k : K) (rest : list A)
    : list A :=
  match rest with
  | [] => []
  | x :: rest' => if decide (kp x = k) then x :: run_of kp k rest' else []
  end.

Fixpoint after_run {A K} `{EqDecision K} (kp : A -> K) (k : K)
    (rest : list A) : list A :=
  match rest with
  | [] => []
  | x :: rest' => if decide (kp x = k) then after_run kp k rest' else rest
  end.

(** Neighbours in a list of keys are different. *)
Definition adjacent_differ {K} (keys : list K) : Prop :=
  forall i k1 k2, keys !! i = Some k1 -> keys !! S i = Some k2 -> k1 <> k2.

(** One turn of the loop over [groupby] for a key function that is
    [pre x] followed by the value [kp x]. *)
Definition group_body {St A K G} (pre : A -> M St unit)
    (start : K -> M St G) (item : G -> A -> M St unit)
    (finish : G -> M St unit) (grp : K * list A) : M St unit :=
  match snd grp with
  | [] => ret tt
  | x :: run =>
      pre x ;;;
      g <- start (fst grp) ;;
      item g x ;;;
      for_each run (fun y => pre y ;;; item g y) ;;;
      finish g
  end.

(** Reading the port of the entry's URL does not raise. *)
Definition port_readable `{Platform} (entry : Entry) : Prop :=
  exists p, pr_port (urlparse (url entry)) = inr p.

(** The connection identity [get_sftp_config] derives from an entry whose
    port is readable: [None] when the scheme is not [sftp]. *)
Definition identity_of `{Platform} (entry : Entry)
    : option ConnectionConfig :=
  let parsed := urlparse (url entry) in
  if String.eqb (pr_scheme parsed) "sftp"
  then Some (mkConnectionConfig (pr_hostname parsed)
               match pr_port parsed with
               | inr (Some p) => if p =? 0 then 22 else p
               | _ => 22
               end
               (SftpDownload.or_none (pr_username parsed))
               (SftpDownload.or_none (pr_password parsed))
               (entry_private_key entry) (entry_private_key_pass entry))
  else None.

(** The URL of the entry has the scheme [sftp]. *)
Definition sftp_scheme `{Platform} (entry : Entry) : Prop :=
  pr_scheme (urlparse (url entry)) = "sftp".

(** The warning [get_sftp_config] logs for an entry that is not on an
    SFTP server. *)
Definition scheme_warning_line (entry : Entry) : LogRecord :=
  mkLogRecord WARNING "Scheme does not match SFTP: {}" [url entry].

(** The port of the entry's URL can be read and its scheme is not
    [sftp]. *)
Definition foreign `{Platform} (entry : Entry) : Prop :=
  port_readable entry /\ ~ sftp_scheme entry.

(** What computing the identity of an entry does besides returning it. *)
Definition scheme_warning `{Platform} (entry : Entry) : M World unit :=
  if String.eqb (pr_scheme (urlparse (url entry))) "sftp" then ret tt
  else logger WARNING "Scheme does not match SFTP: {}" [url entry].

(** What [on_task_download] does with one group: a group without an
    identity is only warned about; for a group with an identity one
    connection is tried, every entry is downloaded over it or, without a
    connection, failed with the connection error, and the connection is
    closed. *)
Definition download_group `{Platform} (depth : nat) (config : Config)
    (grp : option ConnectionConfig * list Entry) : M World unit :=
  match fst grp with
  | None => for_each (snd grp) scheme_warning
  | Some conf =>
      r <- try_except
             (sftp <- sftp_connect conf ;; ret (sftp, None))
             any_exception
             (fun e =>
                error_message <- lift_res
                  (percent_format "Failed to connect to %s (%s)"
                     [str_opt (conf_host conf); exn_msg e]) ;;
                logger ERROR error_message [] ;;;
                ret (None, Some error_message)) ;;
      for_each (snd grp) (fun entry =>
        match r with
        | (Some sftp, _) => SftpDownload.download_entry depth entry config sftp
        | (None, error_message) => entry_fail entry (str_opt error_message)
        end) ;;;
      match r with
      | (Some sftp, _) => sftp_close sftp
      | _ => ret tt
      end
  end.

(** ** Remote trees *)

(** A node of the remote namespace with what lies below it; [size] is
    what [lstat] reports for the node itself, and the children of a
    directory come in listing order. *)
Unset Elimination Schemes.
Inductive rtree :=
| T_file (name : string) (size : Z)
| T_dir (name : string) (size : Z) (children : list rtree)
| T_other (name : string) (size : Z).
Set Elimination Schemes.

Definition node_name (t : rtree) : string :=
  match t with T_file n _ | T_dir n _ _ | T_other n _ => n end.

Definition own_size (t : rtree) : Z :=
  match t with T_file _ s | T_dir _ s _ | T_other _ s => s end.

(** The [lstat] sizes of all nodes below [t], in the order of the walk. *)
Fixpoint sizes_below (t : rtree) : list Z :=
  match t with
  | T_dir _ _ children =>
      flat_map (fun c => own_size c :: sizes_below c) children
  | _ => []
  end.

(** The sum of the [lstat] sizes of all nodes below [t]: files,
    directories and other nodes alike. *)
Fixpoint below (t : rtree) : Z :=
  match t with
  | T_dir _ _ children => sum (map (fun c => own_size c + below c) children)
  | _ => 0
  end.

(** The sum of the sizes of the files below [t], and of nothing else. *)
Fixpoint files_below (t : rtree) : Z :=
  match t with
  | T_dir _ _ children =>
      sum (map (fun c =>
                  match c with T_file _ s => s | _ => 0 end + files_below c)
             children)
  | _ => 0
  end.

(** Every node below [t] is a file. *)
Definition only_files (t : rtree) : bool :=
  match t with
  | T_dir _ _ children =>
      forallb (fun c => match c with T_file _ _ => true | _ => false end)
        children
  | _ => true
  end.

(** The nesting of [walktree] calls a walk of [t] needs. *)
Fixpoint need (t : rtree) : nat :=
  match t with
  | T_dir _ _ children => S (fold_right Nat.max 0%nat (map need children))
  | _ => 0%nat
  end.

(** The namespace [fs], seen from the working directory [cwd], has the
    tree [t] at [path]. *)
Fixpoint shaped (fs : gmap string rnode) (cwd : option string)
    (path : string) (t : rtree) : bool :=
  match t with
  | T_file _ sz =>
      match fs !! adjust_cwd cwd path with
      | Some (RFile content) => Z.of_nat (String.length content) =? sz
      | _ => false
      end
  | T_other _ sz =>
      match fs !! adjust_cwd cwd path with
      | Some (ROther s) => s =? sz
      | _ => false
      end
  | T_dir _ sz children =>
      match fs !! adjust_cwd cwd path with
      | Some (RDir s names) =>
          (s =? sz)
          && bool_decide (sorted names = map node_name children)
          && forallb (fun c =>
                        shaped fs cwd (posixpath.join path (node_name c)) c)
               children
      | _ => false
      end
  end.

(** The session [sftp] is open on the namespace [fs] and no request
    meets a fault. *)
Definition calm (sftp : Session) (ss : SessionState)
    (fs : gmap string rnode) (w : World) : Prop :=
  sessions w !! sftp = Some ss
  /\ (forall n, fault_plan w n = None)
  /\ server_of w ss = fs.

(** The world after the request [c] was sent on [sftp]. *)
Definition tick (sftp : Session) (c : Call) (w : World) : World :=
  add_event (EvRequest sftp c) (set_requests (S (requests w)) w).

(** ** What a listing yields *)

(** The string holds no [/]: it is one name, not a path. *)
Fixpoint no_slash (s : string) : bool :=
  match s with
  | EmptyString => true
  | String c s' => negb (posixpath.is_slash c) && no_slash s'
  end.

(** Every node of the tree has a name without [/]. *)
Fixpoint slash_free (t : rtree) : bool :=
  no_slash (node_name t)
  && match t with
     | T_dir _ _ children => forallb slash_free children
     | _ => true
     end.

(** The names a walk that enters directories reports for the node [t]
    and what lies below it, in the order of the walk: files, and
    directories unless [files_only]; nodes of other kinds never. *)
Fixpoint listed (files_only : bool) (t : rtree) : list string :=
  match t with
  | T_file n _ => [n]
  | T_other _ _ => []
  | T_dir n _ children =>
      ((if files_only then [] else [n])
         ++ flat_map (listed files_only) children)%list
  end.

(** The names a walk that does not enter directories reports for [t]. *)
Definition listed_flat (files_only : bool) (t : rtree) : list string :=
  match t with
  | T_file n _ => [n]
  | T_other _ _ => []
  | T_dir n _ _ => if files_only then [] else [n]
  end.

(** The names a listing of the directory [t] reports. *)
Definition listing (files_only recursive : bool) (t : rtree) : list string :=
  match t with
  | T_dir _ _ children =>
      flat_map (if recursive then listed files_only
                else listed_flat files_only) children
  | _ => []
  end.

(** ** Sessions, failures and messages *)

(** Which of the sessions are open, by identity. *)
Definition lives (w : World) : list bool := map ss_live (sessions w).

(** [stays_open w w']: every session of [w] is as open in [w'] as it was
    in [w], and every session opened since is open. *)
Definition stays_open (w w' : World) : Prop :=
  exists new, lives w' = (lives w ++ new)%list /\ Forall (eq true) new.



(** Relations between worlds that a call of [entry.fail] cannot break. *)
Class IgnoresFailed (R : relation World) :=
  ignores_failed : forall e reason w, R w (add_failed e reason w).

(** Relations that admit a new open session. *)
Class AdmitsOpen (R : relation World) :=
  admits_open : forall conf w,
    R w (set_sessions
           (sessions w ++ [mkSessionState conf None None true])%list w).

(** Relations that admit a change to a session that leaves it as open or
    closed as it was: a timeout, a working directory. *)
Class AdmitsUpdate (R : relation World) :=
  admits_update : forall (f : SessionState -> SessionState) s w,
    (forall ss, ss_live (f ss) = ss_live ss) ->
    R w (set_sessions (alter f s (sessions w)) w).

(** The message of the error raised for a host that cannot be reached. *)
Definition connect_error_message (host cause : string) : string :=
  "Failed to connect to " +:+ host +:+ " (" +:+ cause +:+ ")".

(** The exception [pysftp.Connection] meets when [pysftp] is [None]. *)
Definition no_pysftp : Exn :=
  mkExn AttributeError "'NoneType' object has no attribute 'Connection'".

(** The error of [dependency_check]. *)
Definition dependency_error : Exn :=
  mkExn DependencyError "sftp plugin requires the pysftp Python module.".

(** The waits of [tries] retries that start at [interval] seconds. *)
Fixpoint waits (tries : nat) (interval : Z) : list Z :=
  match tries with
  | O => []
  | S t => interval :: waits t (interval + RETRY_STEP)
  end.

(** The identity [sftp_from_config] connects with. *)
Definition conn_conf_of (config : Config) : ConnectionConfig :=
  mkConnectionConfig (Some (cfg_host config)) (cfg_port config)
    (Some (cfg_username config)) (cfg_password config)
    (cfg_private_key config) (cfg_private_key_pass config).

(** The failures a download run records when no server answers with
    anything but [cause]: one for each entry with an identity, with the
    message that names its host. *)
Definition unreachable_failures `{Platform} (cause : Exn)
    (accepted : list Entry) : list (Entry * string) :=
  omap (fun entry =>
          match identity_of entry with
          | Some conf =>
              Some (entry,
                    connect_error_message (str_opt (conf_host conf))
                      (exn_msg cause))
          | None => None
          end) accepted.

(** Every connection attempt meets [cause]. *)
Definition all_refused (cause : Exn) (w : World) : Prop :=
  has_pysftp w = true /\ forall n, conn_plan w n = Some cause.

(** * Scenes: concrete worlds for witnesses and counterexamples *)

Module Scenes.
Import Demo.

(** A host that refuses every connection attempt. *)
Definition unreachable : World :=
with_conn_plan (fun _ => Some refused) quiet.

(** The namespace of [example.com]: [/data] holds the file [a.txt] of
  ten bytes and the empty directory [sub]. *)
Definition data_tree : gmap string rnode :=
list_to_map
  [("/data", RDir 4096 ["a.txt"; "sub"]);
   ("/data/a.txt", RFile "0123456789");
   ("/data/sub", RDir 4096 [])].

(** [example.com] serves [data_tree]; the local directory [/dl] exists. *)
Definition served : World :=
set_local {[ "/dl" := LDir ]}
  (set_remote {[ "example.com" := data_tree ]} quiet).

(** [served], with session 0 open on [example.com] in [/data]. *)
Definition connected : World :=
set_sessions
  [mkSessionState (conf_of "example.com") (Some "/data") (Some 15) true]
  served.

Definition sftp0 : Session := 0%nat.

(** [connected], with [/dl/a.txt] already downloaded. *)
Definition downloaded : World :=
set_local (<["/dl/a.txt" := LFile "0123456789"]> (local connected))
  connected.

(** [connected], where the first request is cut after four bytes. *)
Definition flaky : World :=
with_fault_plan (fault_at 0 (Cut 4 dropped)) connected.

(** [flaky] after the cut copy of [a.txt] to [/dl/a.txt]. *)
Definition flaky_cut : World :=
snd (sftp_get sftp0 "a.txt" "/dl/a.txt"
       (add_log (mkLogRecord VERBOSE "Downloading file {} to {}"
                   ["a.txt"; "/dl/a.txt"]) flaky)).

(** The [sftp_download] configuration: download to [/dl]. *)
Definition to_dl : Config :=
  mkConfig "" 22 "" None None None false true true None (Some "/dl") false.

(** Four entries with the identities A, A, B, A. *)
Definition a1 : Entry := entry_of "sftp://a.example/f1".
Definition a2 : Entry := entry_of "sftp://a.example/f2".
Definition b1 : Entry := entry_of "sftp://b.example/g".
Definition a3 : Entry := entry_of "sftp://a.example/f3".

(** An entry that is not on an SFTP server, and two that are. *)
Definition on_web : Entry := entry_of "http://example.com/data/a.txt".
Definition present : Entry := entry_of "sftp://example.com/data/a.txt".
Definition missing : Entry := entry_of "sftp://example.com/data/missing.txt".

(** The [sftp_list] configuration: list [/data] on [example.com] with
    sizes, directories included. *)
Definition list_data : Config :=
  mkConfig "example.com" 22 "user" None None None false true true
    (Some (One "/data")) None false.


(** [/data] of [data_tree] as a tree. *)
Definition data_t : rtree :=
  T_dir "data" 4096 [T_file "a.txt" 10; T_dir "sub" 4096 []].

(** Session 0 is open on [example.com], where [/pub] holds three files
    of 30, 20 and 10 bytes. *)
Definition publishing : World :=
  set_sessions
    [mkSessionState (conf_of "example.com") None (Some 15) true]
    (set_remote
       {[ "example.com" :=
            (list_to_map
               [("/pub", RDir 4096 ["small"; "mid"; "big"]);
                ("/pub/big", RFile "012345678901234567890123456789");
                ("/pub/mid", RFile "01234567890123456789");
                ("/pub/small", RFile "0123456789")]
             : gmap string rnode) ]}
       quiet).

Definition pub_t : rtree :=
  T_dir "pub" 4096 [T_file "big" 30; T_file "mid" 20; T_file "small" 10].

(** The [sftp_upload] configuration: upload to [/incoming]. *)
Definition to_incoming : Config :=
  mkConfig "example.com" 22 "user" None None None false true true None
    (Some "/incoming") false.

(** A local file to upload. *)
Definition report : Entry :=
  mkEntry "report" "file:///up/report.txt" (Some "/up/report.txt") None
    None None.

(** Session 0 is open on [example.com], which has the directory
    [/incoming]; the local file [/up/report.txt] exists. *)
Definition uploading : World :=
  set_sessions
    [mkSessionState (conf_of "example.com") None (Some 15) true]
    (set_local {[ "/up" := LDir; "/up/report.txt" := LFile "figures" ]}
       (set_remote
          {[ "example.com" :=
               ({[ "/" := RDir 4096 ["incoming"];
                   "/incoming" := RDir 4096 [] ]} : gmap string rnode) ]}
          quiet)).

(** [uploading], where the third request (the [put]) fails. *)
Definition put_fails (e : Exn) : World :=
  with_fault_plan (fault_at 2 (Abort e)) uploading.

(** [served], where the first two connection attempts are refused. *)
Definition recovering : World :=
  with_conn_plan (fun n => if Nat.ltb n 2 then Some refused else None) served.

(** [served] on a host where [pysftp] is not installed. *)
Definition without_pysftp : World :=
  mkWorld false never 0 never 0 [] (remote served) (local served) true []
    [] [].

(** An [sftp_upload] configuration without [to]. *)
Definition no_to : Config :=
  mkConfig "example.com" 22 "user" None None None false true true None
    None false.

(** A platform whose templates know no field [nope]. *)
Definition strict_templates : Platform :=
  mkPlatform remotepath demo_urlparse (fun s => s) (fun s => s)
    demo_urljoin
    (fun t _ =>
       if String.eqb t "/incoming/{{ nope }}"
       then inl (mkExn RenderError "'nope' is undefined")
       else inr t)
    title.

(** A configuration whose destination uses that field. *)
Definition to_nope : Config :=
  mkConfig "example.com" 22 "user" None None None false true true None
    (Some "/incoming/{{ nope }}") false.

End Scenes.

(** ** Sanity checks of the modelled libraries *)

Example split_example : posixpath.split "/data/sub/a.txt" = ("/data/sub", "a.txt").
Proof. reflexivity. Qed.

Example split_root_example : posixpath.split "/a.txt" = ("/", "a.txt").
Proof. reflexivity. Qed.

Example join_example : posixpath.join "/data" "a.txt" = "/data/a.txt".
Proof. reflexivity. Qed.

Example normpath_example : posixpath.normpath "/data/sub/.." = "/data".
Proof. reflexivity. Qed.

Example percent_format_example :
  percent_format "Failed to connect to %s (%s)" ["h"; "boom"]
  = inr "Failed to connect to h (boom)".
Proof. reflexivity. Qed.

Example demo_urlparse_example :
  Demo.demo_urlparse "sftp://bob:pw@Example.com:2222/data/a.txt"
  = mkParseResult "sftp" (Some "example.com") (Some "bob") (Some "pw")
      (inr (Some 2222)) "/data/a.txt".
Proof. reflexivity. Qed.

Example sftp_prefix_example :
  sftp_prefix (mkConfig "example.com" 2222 "bob" (Some "pw") None None
                 false true true None None false)
  = inr "sftp://bob:pw@example.com:2222/".
Proof. vm_compute. reflexivity. Qed.

(** * Properties *)

(** ** The monad and the [respects] discipline *)

Lemma logger_ok lvl message args w :
  fields_ok message args = true ->
  logger lvl message args w
  = (inr tt, add_log (mkLogRecord lvl message args) w).
Proof.
  unfold fields_ok, logger. destruct args as [|a args].
  - intros _. now rewrite andb_false_r.
  - intros Hok. apply negb_true_iff in Hok. rewrite Hok.
    now rewrite andb_false_r.
Qed.

#[global] Instance on_world_preorder {L} (R : relation World) `{!PreOrder R} :
  PreOrder (@on_world L R).
Proof.
  split.
  - intros s. unfold on_world. reflexivity.
  - intros a b c Hab Hbc. unfold on_world in *. etransitivity; eauto.
Qed.

Section Respects.
Context {St : Type} (R : relation St) `{!PreOrder R}.

Lemma respects_ret {A} (a : A) : respects R (ret a).
Proof. intros s r s' E. inversion E. reflexivity. Qed.

Lemma respects_raise {A} e : respects R (@raise St A e).
Proof. intros s r s' E. inversion E. reflexivity. Qed.

Lemma respects_lift_res {A} (x : Res A) : respects R (lift_res x).
Proof. intros s r s' E. inversion E. reflexivity. Qed.

Lemma respects_bind {A B} (c : M St A) (k : A -> M St B) :
  respects R c -> (forall a, respects R (k a)) -> respects R (bind c k).
Proof.
  intros Hc Hk s r s' E. unfold bind in E.
  destruct (c s) as [[e|a] s1] eqn:Ec.
  - inversion E; subst. eapply Hc; eauto.
  - etransitivity; [eapply Hc; eauto | eapply Hk; eauto].
Qed.

Lemma respects_try_except {A} (c : M St A) sel h :
  respects R c -> (forall e, respects R (h e)) ->
  respects R (try_except c sel h).
Proof.
  intros Hc Hh s r s' E. unfold try_except in E.
  destruct (c s) as [[e|a] s1] eqn:Ec.
  - destruct (sel e).
    + etransitivity; [eapply Hc; eauto | eapply Hh; eauto].
    + inversion E; subst. eapply Hc; eauto.
  - inversion E; subst. eapply Hc; eauto.
Qed.

Lemma respects_try_except_IOError_else {A} (c : M St A) h1 h2 :
  respects R c -> (forall e, respects R (h1 e)) ->
  (forall e, respects R (h2 e)) ->
  respects R (try_except_IOError_else c h1 h2).
Proof.
  intros Hc H1 H2 s r s' E. unfold try_except_IOError_else in E.
  destruct (c s) as [[e|a] s1] eqn:Ec.
  - destruct (is_IOError e).
    + etransitivity; [eapply Hc; eauto | eapply H1; eauto].
    + etransitivity; [eapply Hc; eauto | eapply H2; eauto].
  - inversion E; subst. eapply Hc; eauto.
Qed.

Lemma respects_for_each {A} (l : list A) body :
  (forall x, respects R (body x)) -> respects R (for_each l body).
Proof.
  intros Hb. induction l as [|x l IH]; cbn [for_each].
  - apply respects_ret.
  - apply respects_bind; auto.
Qed.

Lemma respects_on_sftp {A} sftp (k : Session -> M St A) :
  (forall s, respects R (k s)) -> respects R (on_sftp sftp k).
Proof.
  intros Hk. destruct sftp; cbn [on_sftp]; [apply Hk | apply respects_raise].
Qed.
End Respects.

Section RespectsWorld.
Context (R : relation World) `{!PreOrder R}.

Lemma respects_get_world : respects R get_world.
Proof. intros s r s' E. inversion E. reflexivity. Qed.

Lemma respects_modify_world f :
  (forall w, R w (f w)) -> respects R (modify_world f).
Proof. intros Hf s r s' E. inversion E. apply Hf. Qed.

Lemma respects_liftW {L A} (c : M World A) :
  respects R c -> respects (@on_world L R) (liftW c).
Proof.
  intros Hc [l w] r [l' w'] E. unfold liftW in E. cbn in E.
  destruct (c w) as [r1 w1] eqn:Ec. inversion E; subst.
  unfold on_world; cbn. eapply Hc; eauto.
Qed.

Lemma respects_with_captured {L A} (init : L) (c : M (L * World) A) :
  respects (on_world R) c -> respects R (with_captured init c).
Proof.
  intros Hc w r w' E. unfold with_captured in E.
  destruct (c (init, w)) as [[e|a] [l w1]] eqn:Ec; inversion E; subst;
    apply (Hc _ _ _ Ec).
Qed.

Lemma respects_append_captured {X} (x : X) :
  respects (on_world R) (append_captured x).
Proof.
  intros [l w] r [l' w'] E. inversion E; subst. unfold on_world; cbn.
  reflexivity.
Qed.
End RespectsWorld.

(** Close a goal [R w w'] where [w'] is [w] under updates that [R]
    ignores. *)
Ltac frame_solve :=
  lazymatch goal with
  | |- _ ?w ?w => reflexivity
  | |- _ ?w (add_log _ ?t) =>
      transitivity t; [frame_solve | apply quiet_log]
  | |- _ ?w (add_event _ ?t) =>
      transitivity t; [frame_solve | apply quiet_event]
  | |- _ ?w (set_requests _ ?t) =>
      transitivity t; [frame_solve | apply quiet_requests]
  | |- _ ?w (set_attempts _ ?t) =>
      transitivity t; [frame_solve | apply quiet_attempts]
  | |- _ ?w (set_sessions _ ?t) =>
      transitivity t; [frame_solve | apply ignores_sessions]
  | |- _ ?w (set_remote _ ?t) =>
      transitivity t; [frame_solve | apply ignores_remote]
  | |- _ ?w (set_local _ ?t) =>
      transitivity t; [frame_solve | apply ignores_local]
  | |- _ ?w (set_server ?ss _ ?t) =>
      unfold set_server; destruct (conf_host (ss_conf ss)); frame_solve
  end.

(** Take a computation apart along its binds, handlers, loops and case
    distinctions; what is left are calls with a lemma of their own. *)
Ltac preorder := try (exact _).

Ltac respects_step :=
  first
    [ apply respects_ret; preorder
    | apply respects_raise; preorder
    | apply respects_lift_res; preorder
    | apply respects_get_world; preorder
    | apply respects_append_captured; preorder
    | apply respects_modify_world; preorder; intros ?; frame_solve
    | apply respects_bind; preorder; [| intros ?]
    | apply respects_try_except; preorder; [| intros ?]
    | apply respects_try_except_IOError_else; preorder;
      [| intros ? | intros ?]
    | apply respects_for_each; preorder; intros ?
    | apply respects_on_sftp; preorder; intros ?
    | apply respects_liftW; preorder
    | apply respects_with_captured; preorder
    | match goal with
      | |- respects _ (let _ := _ in _) => cbv zeta
      | |- respects _ (match ?x with _ => _ end) => destruct x
      end ].

Create HintDb respects discriminated.

Ltac respects_tac :=
  repeat first
    [ solve [eauto 3 with respects typeclass_instances] | respects_step ].

Section Primitives.
Context (R : relation World) `{!Quiet R}.

Lemma respects_time_sleep n : respects R (time_sleep n).
Proof. intros w r w' E. inversion E. frame_solve. Qed.

Lemma respects_logger lvl m a : respects R (logger lvl m a).
Proof.
  intros w r w' E. unfold logger in E.
  destruct (_ && _) in E; inversion E; frame_solve.
Qed.

Lemma respects_dependency_check : respects R dependency_check.
Proof. unfold dependency_check. respects_tac. Qed.

Lemma respects_begin_request s c : respects R (begin_request s c).
Proof.
  intros w r w' E. unfold begin_request in E.
  destruct (sessions w !! s) as [ss|]; [destruct (ss_live ss)|];
    inversion E; frame_solve.
Qed.

Hint Resolve respects_logger respects_begin_request : respects.

Lemma respects_request s c : respects R (request s c).
Proof. unfold request. respects_tac. Qed.

Hint Resolve respects_request : respects.

Lemma respects_sftp_stat s p : respects R (sftp_stat s p).
Proof. unfold sftp_stat. respects_tac. Qed.

Lemma respects_sftp_lstat s p : respects R (sftp_lstat s p).
Proof. unfold sftp_lstat. respects_tac. Qed.

Hint Resolve respects_sftp_stat respects_sftp_lstat : respects.

Lemma respects_sftp_exists s p : respects R (sftp_exists s p).
Proof. unfold sftp_exists. respects_tac. Qed.

Lemma respects_sftp_lexists s p : respects R (sftp_lexists s p).
Proof. unfold sftp_lexists. respects_tac. Qed.

Lemma respects_sftp_isfile s p : respects R (sftp_isfile s p).
Proof. unfold sftp_isfile. respects_tac. Qed.

Lemma respects_sftp_isdir s p : respects R (sftp_isdir s p).
Proof. unfold sftp_isdir. respects_tac. Qed.

Lemma respects_sftp_listdir s p : respects R (sftp_listdir s p).
Proof. unfold sftp_listdir. respects_tac. Qed.

Lemma respects_sftp_normalize s p : respects R (sftp_normalize s p).
Proof. unfold sftp_normalize. respects_tac. Qed.

Lemma respects_os_path_exists `{Platform} p : respects R (os_path_exists p).
Proof. intros w r w' E. inversion E. reflexivity. Qed.

Hint Resolve respects_sftp_listdir respects_sftp_normalize
  respects_sftp_exists respects_sftp_lexists respects_sftp_isfile
  respects_sftp_isdir respects_os_path_exists : respects.

(** [walktree] respects what its callbacks respect. *)
Lemma respects_walktree {L} depth : forall s p
    (f d u : string -> M (L * World) unit) recurse,
  (forall x, respects (on_world R) (f x)) ->
  (forall x, respects (on_world R) (d x)) ->
  (forall x, respects (on_world R) (u x)) ->
  respects (on_world R) (walktree depth s p f d u recurse).
Proof.
  induction depth as [|depth IH]; intros s p f d u recurse Hf Hd Hu;
    cbn [walktree].
  - respects_tac.
  - respects_tac.
Qed.

Section Sessions.
Context `{!IgnoresSessions R}.

Lemma respects_update_session s f : respects R (update_session s f).
Proof. unfold update_session. respects_tac. Qed.

Hint Resolve respects_update_session : respects.

Lemma respects_set_timeout s n : respects R (set_timeout s n).
Proof. unfold set_timeout. respects_tac. Qed.

Lemma respects_sftp_close s : respects R (sftp_close s).
Proof. unfold sftp_close. respects_tac. Qed.

Lemma respects_sftp_cwd s p : respects R (sftp_cwd s p).
Proof. unfold sftp_cwd. respects_tac. Qed.

Lemma respects_pysftp_Connection conf : respects R (pysftp_Connection conf).
Proof.
  intros w r w' E. unfold pysftp_Connection in E.
  destruct (negb (has_pysftp w)); [inversion E; reflexivity|].
  destruct (conn_plan w (attempts w)); inversion E; frame_solve.
Qed.

Hint Resolve respects_set_timeout respects_pysftp_Connection
  respects_time_sleep : respects.

Lemma respects_sftp_connect_loop tries : forall interval conf,
  respects R (sftp_connect_loop tries interval conf).
Proof.
  induction tries as [|tries IH]; intros interval conf;
    cbn [sftp_connect_loop]; respects_tac.
Qed.

Lemma respects_sftp_connect conf : respects R (sftp_connect conf).
Proof. apply respects_sftp_connect_loop. Qed.

Hint Resolve respects_sftp_connect : respects.

Lemma respects_sftp_from_config config :
  respects R (sftp_from_config config).
Proof. unfold sftp_from_config. respects_tac. Qed.
End Sessions.

Section Remote.
Context `{!IgnoresRemote R}.

Lemma respects_sftp_remove s p : respects R (sftp_remove s p).
Proof. unfold sftp_remove. respects_tac. Qed.

Lemma respects_sftp_rmdir s p : respects R (sftp_rmdir s p).
Proof. unfold sftp_rmdir. respects_tac. Qed.

Lemma respects_sftp_mkdir s p : respects R (sftp_mkdir s p).
Proof. unfold sftp_mkdir. respects_tac. Qed.
End Remote.

End Primitives.

#[global] Hint Resolve respects_time_sleep respects_logger
  respects_dependency_check respects_begin_request respects_request
  respects_sftp_stat respects_sftp_lstat respects_sftp_exists
  respects_sftp_lexists respects_sftp_isfile respects_sftp_isdir
  respects_sftp_listdir respects_sftp_normalize respects_os_path_exists
  respects_update_session respects_set_timeout respects_sftp_close
  respects_sftp_cwd respects_pysftp_Connection respects_sftp_connect
  respects_sftp_from_config respects_sftp_remove respects_sftp_rmdir
  respects_sftp_mkdir : respects.

Section LocalPrimitives.
Context `{Platform} (R : relation World) `{!Quiet R} `{!IgnoresLocal R}.

Lemma respects_os_remove p : respects R (os_remove p).
Proof. unfold os_remove. respects_tac. Qed.

Lemma respects_os_mkdir p : respects R (os_mkdir p).
Proof. unfold os_mkdir. respects_tac. Qed.

Hint Resolve respects_os_mkdir : respects.

Lemma respects_os_makedirs_rec depth : forall name,
  respects R (os_makedirs_rec depth name).
Proof.
  induction depth as [|depth IH]; intros name; cbn [os_makedirs_rec];
    respects_tac.
Qed.

Lemma respects_os_makedirs name : respects R (os_makedirs name).
Proof. apply respects_os_makedirs_rec. Qed.

Lemma respects_local_write p c : respects R (local_write p c).
Proof. unfold local_write. respects_tac. Qed.

Hint Resolve respects_local_write : respects.

Lemma respects_sftp_get s rp lp : respects R (sftp_get s rp lp).
Proof. unfold sftp_get. respects_tac. Qed.
End LocalPrimitives.

#[global] Hint Resolve respects_os_remove respects_os_mkdir
  respects_os_makedirs respects_local_write respects_sftp_get : respects.

Section RemotePrimitives.
Context `{Platform} (R : relation World) `{!Quiet R} `{!IgnoresRemote R}.

Lemma respects_sftp_makedirs_rec depth : forall s p,
  respects R (sftp_makedirs_rec depth s p).
Proof.
  induction depth as [|depth IH]; intros s p; cbn [sftp_makedirs_rec];
    respects_tac.
Qed.

Lemma respects_sftp_makedirs s p : respects R (sftp_makedirs s p).
Proof. apply respects_sftp_makedirs_rec. Qed.

Lemma respects_sftp_put s lp rp : respects R (sftp_put s lp rp).
Proof. unfold sftp_put. respects_tac. Qed.

Lemma respects_remove_dir s p : respects R (SftpDownload.remove_dir s p).
Proof. unfold SftpDownload.remove_dir. respects_tac. Qed.
End RemotePrimitives.

#[global] Hint Resolve respects_sftp_makedirs respects_sftp_put
  respects_remove_dir : respects.

Section Download.
Context `{Platform} (R : relation World) `{!Quiet R} `{!IgnoresRemote R}
  `{!IgnoresLocal R}.

Lemma respects_download_file path dest s del :
  respects R (SftpDownload.download_file path dest s del).
Proof. unfold SftpDownload.download_file. respects_tac. Qed.

Hint Resolve respects_download_file : respects.

Lemma respects_get_sftp_config e :
  respects R (SftpDownload.get_sftp_config e).
Proof. unfold SftpDownload.get_sftp_config. respects_tac. Qed.

Context `{!IgnoresSessions R}.

(** [download_entry] touches the failure list only through
    [entry.fail] on its own entry. *)
Lemma respects_download_entry depth entry config s :
  (forall reason w, R w (add_failed entry reason w)) ->
  respects R (SftpDownload.download_entry depth entry config s).
Proof.
  intros Hfail.
  assert (Hf : forall reason, respects R (entry_fail entry reason)).
  { intros reason w r w' E. inversion E. apply Hfail. }
  unfold SftpDownload.download_entry.
  respects_tac; try apply respects_walktree; try exact _; intros;
    unfold SftpDownload.handle_dir, SftpDownload.handle_unknown;
    respects_tac.
Qed.
End Download.

#[global] Hint Resolve respects_download_file respects_get_sftp_config
  : respects.

(** ** Relations used below *)

#[global] Instance keeps_preorder {X} (f : World -> X) : PreOrder (keeps f).
Proof.
  split.
  - intros w. reflexivity.
  - intros a b c Hab Hbc. unfold keeps in *. congruence.
Qed.

#[global] Instance fails_only_preorder P : PreOrder (fails_only P).
Proof.
  split.
  - intros w. exists []. split; [now rewrite app_nil_r | constructor].
  - intros a b c [l1 [E1 F1]] [l2 [E2 F2]]. exists (l1 ++ l2)%list. split.
    + rewrite E2, E1. now rewrite app_assoc.
    + apply Forall_app; auto.
Qed.

Lemma fails_only_same P w w' : failed w' = failed w -> fails_only P w w'.
Proof.
  intros E. exists []. split; [now rewrite app_nil_r | constructor].
Qed.

#[global] Instance keeps_sessions_quiet : Quiet (keeps sessions).
Proof. split; [exact _ | reflexivity ..]. Qed.
#[global] Instance keeps_sessions_remote : IgnoresRemote (keeps sessions).
Proof. intros r w. reflexivity. Qed.
#[global] Instance keeps_sessions_local : IgnoresLocal (keeps sessions).
Proof. intros r w. reflexivity. Qed.

#[global] Instance keeps_local_quiet : Quiet (keeps local).
Proof. split; [exact _ | reflexivity ..]. Qed.
#[global] Instance keeps_local_remote : IgnoresRemote (keeps local).
Proof. intros r w. reflexivity. Qed.
#[global] Instance keeps_local_sessions : IgnoresSessions (keeps local).
Proof. intros r w. reflexivity. Qed.

#[global] Instance keeps_remote_quiet : Quiet (keeps remote).
Proof. split; [exact _ | reflexivity ..]. Qed.
#[global] Instance keeps_remote_local : IgnoresLocal (keeps remote).
Proof. intros r w. reflexivity. Qed.
#[global] Instance keeps_remote_sessions : IgnoresSessions (keeps remote).
Proof. intros r w. reflexivity. Qed.

#[global] Instance keeps_failed_quiet : Quiet (keeps failed).
Proof. split; [exact _ | reflexivity ..]. Qed.
#[global] Instance keeps_failed_local : IgnoresLocal (keeps failed).
Proof. intros r w. reflexivity. Qed.
#[global] Instance keeps_failed_remote : IgnoresRemote (keeps failed).
Proof. intros r w. reflexivity. Qed.
#[global] Instance keeps_failed_sessions : IgnoresSessions (keeps failed).
Proof. intros r w. reflexivity. Qed.

#[global] Instance fails_only_quiet P : Quiet (fails_only P).
Proof. split; [exact _ | intros; now apply fails_only_same ..]. Qed.
#[global] Instance fails_only_local P : IgnoresLocal (fails_only P).
Proof. intros r w. now apply fails_only_same. Qed.
#[global] Instance fails_only_remote P : IgnoresRemote (fails_only P).
Proof. intros r w. now apply fails_only_same. Qed.
#[global] Instance fails_only_sessions P : IgnoresSessions (fails_only P).
Proof. intros r w. now apply fails_only_same. Qed.

(** ** Connecting: [sftp_connect], [sftp_from_config] *)

Lemma bind_ok_inv {St A B} (c : M St A) (k : A -> M St B) s b s' :
  bind c k s = (inr b, s') ->
  exists a s1, c s = (inr a, s1) /\ k a s1 = (inr b, s').
Proof.
  unfold bind. destruct (c s) as [[e|a] s1]; [discriminate | eauto].
Qed.

(** When every attempt fails, the loop with [tries] retries makes
    [tries + 1] attempts, waits between them, opens nothing and raises the
    exception of the last attempt. *)
Lemma sftp_connect_loop_all_fail tries :
  forall interval conf w (fate : nat -> Exn),
    has_pysftp w = true ->
    (forall n, (n <= tries)%nat ->
               conn_plan w (n + attempts w) = Some (fate n)) ->
    exists w',
      sftp_connect_loop tries interval conf w = (inl (fate tries), w')
      /\ trace w' = (trace w ++ retry_trace conf tries interval)%list
      /\ attempts w' = (S tries + attempts w)%nat
      /\ sessions w' = sessions w.
Proof.
  induction tries as [|tries IH]; intros interval conf w fate Hpy Hplan;
    pose proof (Hplan 0%nat ltac:(lia)) as H0; cbn in H0;
    cbn [sftp_connect_loop]; unfold try_except, bind at 1;
    unfold bind at 1; unfold pysftp_Connection;
    rewrite Hpy; cbn [negb]; rewrite H0; cbn [any_exception].
  - eexists; split; [reflexivity|]. cbn. auto.
  - unfold bind at 1. rewrite logger_ok by reflexivity.
    unfold bind at 1. rewrite logger_ok by reflexivity.
    unfold bind at 1. unfold time_sleep.
    destruct (IH (interval + RETRY_STEP) conf
                (add_event (EvSleep interval)
                   (add_log
                      (mkLogRecord WARNING
                         "Failed to connect to {}; waiting {} seconds before retrying."
                         [str_opt (conf_host conf); pretty interval])
                      (add_log
                         (mkLogRecord DEBUG "Caught exception: {}"
                            [exn_msg (fate 0%nat)])
                         (add_event (EvConnect conf)
                            (set_attempts (S (attempts w)) w)))))
                (fun n => fate (S n)))
      as [w' [E [Ht [Ha Hs]]]].
    + exact Hpy.
    + intros n Hn. cbn [conn_plan attempts add_event add_log set_attempts].
      rewrite <- (Hplan (S n)) by lia. f_equal. lia.
    + exists w'. split; [exact E|]. rewrite Ht, Ha, Hs. cbn.
      repeat split; try lia. rewrite <- !app_assoc. reflexivity.
Qed.

(** When the loop returns, it returns a connection object, never [None]. *)
Lemma sftp_connect_loop_returns tries :
  forall interval conf w v w',
    sftp_connect_loop tries interval conf w = (inr v, w') ->
    exists s, v = Some s.
Proof.
  induction tries as [|tries IH]; intros interval conf w v w' E;
    cbn [sftp_connect_loop] in E; unfold try_except in E;
    match type of E with
    | match ?c w with _ => _ end = _ => destruct (c w) as [[e|a] w1] eqn:Ec
    end.
  - discriminate E.
  - inversion E; subst.
    apply bind_ok_inv in Ec as (s & w2 & _ & Ec).
    apply bind_ok_inv in Ec as (? & w3 & _ & Ec).
    apply bind_ok_inv in Ec as (? & w4 & _ & Ec).
    inversion Ec. eauto.
  - cbn [any_exception] in E.
    apply bind_ok_inv in E as (? & w2 & _ & E).
    apply bind_ok_inv in E as (? & w3 & _ & E).
    apply bind_ok_inv in E as (? & w4 & _ & E).
    eapply IH; eauto.
  - inversion E; subst.
    apply bind_ok_inv in Ec as (s & w2 & _ & Ec).
    apply bind_ok_inv in Ec as (? & w3 & _ & Ec).
    apply bind_ok_inv in Ec as (? & w4 & _ & Ec).
    inversion Ec. eauto.
Qed.

Lemma sftp_from_config_outcome config w r w' :
  sftp_from_config config w = (r, w') ->
  match r with
  | inr v => exists s, v = Some s
  | inl e => exn_class e = PluginError
  end.
Proof.
  unfold sftp_from_config, try_except.
  destruct (sftp_connect _ w) as [[e|v] w1] eqn:Ec.
  - cbn [any_exception]. unfold bind, lift_res. cbn. intros E.
    inversion E. reflexivity.
  - intros E. inversion E; subst. eapply sftp_connect_loop_returns; eauto.
Qed.

Lemma sftp_prefix_total config : exists p, sftp_prefix config = inr p.
Proof.
  unfold sftp_prefix.
  repeat match goal with
         | |- context [if ?b then _ else _] => destruct b
         end; cbn; eauto.
Qed.

(** C1, as amended: when every attempt to open a connection fails,
    [sftp_connect] (3 retries, first wait 15, step 5) makes four attempts,
    waits 15, then 20, then 25 seconds between them, and raises the
    exception of the fourth attempt without a further wait; no session is
    left behind. *)
Theorem sftp_connect_retry_growth conf w (fate : nat -> Exn) :
  has_pysftp w = true ->
  (forall n, (n <= 3)%nat -> conn_plan w (n + attempts w) = Some (fate n)) ->
  exists w',
    sftp_connect conf w = (inl (fate 3%nat), w')
    /\ trace w'
       = (trace w ++ [EvConnect conf; EvSleep 15; EvConnect conf; EvSleep 20;
                      EvConnect conf; EvSleep 25; EvConnect conf])%list
    /\ attempts w' = (attempts w + 4)%nat
    /\ sessions w' = sessions w.
Proof.
  intros Hpy Hplan.
  destruct (sftp_connect_loop_all_fail CONNECT_TRIES RETRY_INTERVAL conf w
              fate Hpy Hplan) as [w' [E [Ht [Ha Hs]]]].
  exists w'. unfold sftp_connect. repeat split; auto.
  rewrite Ha. unfold CONNECT_TRIES. lia.
Qed.

Lemma sftp_connect_retry_growth_witness :
  exists w',
    sftp_connect (Demo.conf_of "example.com") Scenes.unreachable
    = (inl Demo.refused, w')
    /\ trace w'
       = [EvConnect (Demo.conf_of "example.com"); EvSleep 15;
          EvConnect (Demo.conf_of "example.com"); EvSleep 20;
          EvConnect (Demo.conf_of "example.com"); EvSleep 25;
          EvConnect (Demo.conf_of "example.com")]
    /\ attempts w' = 4%nat
    /\ sessions w' = [].
Proof.
  apply (sftp_connect_retry_growth (Demo.conf_of "example.com")
           Scenes.unreachable (fun _ => Demo.refused)).
  - reflexivity.
  - intros n _. reflexivity.
Defined.

(** C1, as stated, fails: against a host that refuses every attempt the
    waits are 15, 20 and 25, not 15 and 20, and four attempts are made. *)
Lemma sftp_connect_third_wait :
  let w' := snd (sftp_connect (Demo.conf_of "example.com")
                   Scenes.unreachable) in
  sleeps (trace w') = [15; 20; 25]
  /\ sleeps (trace w') <> [15; 20]
  /\ attempts w' = 4%nat
  /\ attempts w' <> 3%nat.
Proof. vm_compute. repeat split; discriminate. Qed.

(** ** Upload: a failed connection aborts the run *)

(** C10: a connection failure aborts the whole upload run.  When
    [sftp_connect] raises for the configured identity, [sftp_from_config]
    raises the [PluginError] that names the host and the cause, and so
    does [on_task_output], in the state the connection attempts left: no
    record is touched, nothing is failed and no file changes on either
    side.  Otherwise [on_task_output] holds a connection object and every
    record takes the [handle_entry] branch.  In neither case is the branch
    taken that fails a record with "SFTP connection failed".  In
    particular, when every one of the four attempts fails the run raises
    the [PluginError] for the last cause, after connection attempts and
    waits only. *)
Theorem upload_connection_failure_aborts `{Platform} accepted config w :
  match sftp_connect (conn_conf_of config) w with
  | (inl cause, w1) =>
      let e := mkExn PluginError
                 (connect_error_message (cfg_host config) (exn_msg cause)) in
      sftp_from_config config w = (inl e, w1)
      /\ SftpUpload.on_task_output accepted config w = (inl e, w1)
      /\ failed w1 = failed w /\ remote w1 = remote w /\ local w1 = local w
  | (inr v, w1) =>
      exists s url_prefix,
        v = Some s
        /\ sftp_from_config config w = (inr (Some s), w1)
        /\ sftp_prefix config = inr url_prefix
        /\ SftpUpload.on_task_output accepted config w
           = for_each accepted (fun entry =>
               logger DEBUG "Uploading file: {}" [entry_str entry] ;;;
               SftpUpload.handle_entry entry s config url_prefix) w1
  end
  /\ (forall fate : nat -> Exn,
        has_pysftp w = true ->
        (forall n, (n <= CONNECT_TRIES)%nat ->
                   conn_plan w (n + attempts w) = Some (fate n)) ->
        exists w1,
          SftpUpload.on_task_output accepted config w
          = (inl (mkExn PluginError
                    (connect_error_message (cfg_host config)
                       (exn_msg (fate CONNECT_TRIES)))), w1)
          /\ trace w1
             = (trace w
                  ++ retry_trace (conn_conf_of config) CONNECT_TRIES
                       RETRY_INTERVAL)%list
          /\ sessions w1 = sessions w /\ failed w1 = failed w
          /\ remote w1 = remote w /\ local w1 = local w).
Proof.
  assert (Hfail : forall cause w1,
            sftp_connect (conn_conf_of config) w = (inl cause, w1) ->
            let e := mkExn PluginError
                       (connect_error_message (cfg_host config)
                          (exn_msg cause)) in
            sftp_from_config config w = (inl e, w1)
            /\ SftpUpload.on_task_output accepted config w = (inl e, w1)
            /\ failed w1 = failed w /\ remote w1 = remote w
            /\ local w1 = local w).
  { intros cause w1 Ec e.
    assert (Efrom : sftp_from_config config w = (inl e, w1)).
    { unfold sftp_from_config, try_except. fold (conn_conf_of config).
      rewrite Ec. reflexivity. }
    split; [exact Efrom|]. split.
    - unfold SftpUpload.on_task_output, SftpUpload.prepare_config.
      unfold bind at 1. now rewrite Efrom.
    - repeat split.
      + apply (respects_sftp_connect (keeps failed) _ _ _ _ Ec).
      + apply (respects_sftp_connect (keeps remote) _ _ _ _ Ec).
      + apply (respects_sftp_connect (keeps local) _ _ _ _ Ec). }
  split.
  - destruct (sftp_connect (conn_conf_of config) w) as [[cause|v] w1] eqn:Ec.
    + now apply Hfail.
    + destruct (sftp_connect_loop_returns _ _ _ _ _ _ Ec) as [s ->].
      destruct (sftp_prefix_total config) as [p Ep].
      assert (Efrom : sftp_from_config config w = (inr (Some s), w1)).
      { unfold sftp_from_config, try_except. fold (conn_conf_of config).
        now rewrite Ec. }
      exists s, p. repeat split; auto.
      unfold SftpUpload.on_task_output, SftpUpload.prepare_config.
      unfold bind at 1. rewrite Efrom. unfold bind at 1, lift_res.
      rewrite Ep. reflexivity.
  - intros fate Hpy Hplan.
    destruct (sftp_connect_loop_all_fail CONNECT_TRIES RETRY_INTERVAL
                (conn_conf_of config) w fate Hpy Hplan)
      as (w1 & Ec & Ht & _ & Hs).
    destruct (Hfail _ _ Ec) as (_ & Erun & Hf & Hr & Hl).
    exists w1. repeat split; assumption.
Qed.

Lemma upload_connection_failure_aborts_witness :
  exists w1,
    SftpUpload.on_task_output [Scenes.report] Scenes.to_incoming
      Scenes.unreachable
    = (inl (mkExn PluginError
              (connect_error_message (cfg_host Scenes.to_incoming)
                 (exn_msg Demo.refused))), w1)
    /\ trace w1
       = (trace Scenes.unreachable
            ++ retry_trace (conn_conf_of Scenes.to_incoming) CONNECT_TRIES
                 RETRY_INTERVAL)%list
    /\ sessions w1 = sessions Scenes.unreachable
    /\ failed w1 = failed Scenes.unreachable
    /\ remote w1 = remote Scenes.unreachable
    /\ local w1 = local Scenes.unreachable.
Proof.
  destruct (upload_connection_failure_aborts [Scenes.report]
              Scenes.to_incoming Scenes.unreachable) as [_ Hall].
  apply (Hall (fun _ => Demo.refused)).
  - reflexivity.
  - intros n _. reflexivity.
Defined.

(** On a host that refuses every connection the run raises and no record
    is failed. *)
Example on_task_output_unreachable :
  let run := SftpUpload.on_task_output [Scenes.report] Scenes.to_incoming
               Scenes.unreachable in
  fst run
  = inl (mkExn PluginError
           "Failed to connect to example.com (Unable to connect)")
  /\ failed (snd run) = [].
Proof. vm_compute. split; reflexivity. Qed.

(** ** Download of one file: [download_file] *)

Lemma local_write_ok `{Platform} p c w w' :
  local_write p c w = (inr tt, w') ->
  local w' = <[p := LFile c]> (local w).
Proof.
  unfold local_write, bind, get_world, modify_world, raise.
  destruct (local w !! p) as [[?|]|];
    try destruct (_ || _); intros E; inversion E; reflexivity.
Qed.

(** A [get] that returns has written the whole file. *)
Lemma sftp_get_ok `{Platform} s rp lp w w' :
  lp <> "" ->
  sftp_get s rp lp w = (inr tt, w') ->
  exists content, local w' !! lp = Some (LFile content).
Proof.
  intros Hlp. unfold sftp_get.
  destruct (String.eqb_spec lp "") as [->|_]; [congruence|].
  intros E. apply bind_ok_inv in E as ([ss fault] & w1 & _ & E).
  cbn [snd fst] in E.
  assert (Hrest :
    (local_write lp "" ;;;
     w0 <- get_world ;;
     match node_at w0 ss rp with
     | Some (RFile content) =>
         match fault with
         | Some (Cut k e) =>
             local_write lp (String.substring 0 k content) ;;; raise e
         | _ => local_write lp content
         end
     | _ => raise (no_such_file rp)
     end) w1 = (inr tt, w')).
  { destruct fault as [[e|k e]|]; [discriminate E | exact E | exact E]. }
  clear E.
  apply bind_ok_inv in Hrest as (? & w2 & _ & E).
  apply bind_ok_inv in E as (w3 & w4 & Eg & E).
  destruct (node_at w3 ss rp) as [[content| |]|]; try discriminate E.
  exists content.
  destruct fault as [[e|k e]|].
  - apply local_write_ok in E. rewrite E. apply lookup_insert_eq.
  - apply bind_ok_inv in E as (? & ? & _ & E). discriminate E.
  - apply local_write_ok in E. rewrite E. apply lookup_insert_eq.
Qed.

Section DownloadFile.
Context `{Platform}.
Variables (path dest : string) (sftp : Session) (delete_origin : bool).

Let destination := SftpDownload.destination_of path dest.
Let skip_line :=
  mkLogRecord VERBOSE "Destination file already exists. Skipping {}" [path].

Lemma download_file_skip w :
  is_Some (local w !! destination) ->
  SftpDownload.download_file path dest sftp delete_origin w
  = (inr tt, add_log skip_line w).
Proof.
  intros Hex. unfold SftpDownload.download_file.
  unfold bind at 1. unfold os_path_exists at 1.
  fold destination. rewrite bool_decide_eq_true_2 by exact Hex.
  now rewrite logger_ok by reflexivity.
Qed.

(** C2: when the destination path already exists, [download_file]
    returns normally and only logs that it skips the file: no request is
    sent (no byte copy, no removal of the remote origin, whatever
    [delete_origin] says) and no file changes; a second call behaves the
    same, so two calls copy nothing. *)
Theorem download_file_existing_noop w :
  is_Some (local w !! destination) ->
  exists w1 w2,
    SftpDownload.download_file path dest sftp delete_origin w = (inr tt, w1)
    /\ SftpDownload.download_file path dest sftp delete_origin w1
       = (inr tt, w2)
    /\ untouched w w1 /\ untouched w w2
    /\ gets (trace w2) = gets (trace w).
Proof.
  intros Hex.
  exists (add_log skip_line w), (add_log skip_line (add_log skip_line w)).
  split; [now apply download_file_skip|].
  split; [now apply download_file_skip|].
  repeat split.
Qed.

(** After a call that returned, the destination exists. *)
Lemma download_file_leaves_destination w w' :
  destination <> "" ->
  SftpDownload.download_file path dest sftp delete_origin w = (inr tt, w') ->
  is_Some (local w' !! destination).
Proof.
  intros Hne E. unfold SftpDownload.download_file in E.
  fold destination in E.
  apply bind_ok_inv in E as (ex & w1 & Eex & E).
  unfold os_path_exists in Eex. inversion Eex; subst w1 ex; clear Eex.
  destruct (bool_decide (is_Some (local w !! destination))) eqn:Hd.
  - apply bool_decide_eq_true_1 in Hd.
    rewrite logger_ok in E by reflexivity. inversion E. exact Hd.
  - apply bind_ok_inv in E as (dex & w1 & _ & E).
    apply bind_ok_inv in E as (? & w2 & _ & E).
    apply bind_ok_inv in E as (? & w3 & _ & E).
    apply bind_ok_inv in E as (? & w4 & Eget & E).
    assert (Hw4 : is_Some (local w4 !! destination)).
    { unfold try_except in Eget.
      destruct (sftp_get sftp path destination w3) as [[e|[]] w5] eqn:Eg.
      - cbn [any_exception] in Eget.
        apply bind_ok_inv in Eget as (? & ? & _ & Eget).
        apply bind_ok_inv in Eget as (? & ? & _ & Eget).
        apply bind_ok_inv in Eget as (? & ? & _ & Eget).
        discriminate Eget.
      - inversion Eget; subst.
        destruct (sftp_get_ok _ _ _ _ _ Hne Eg) as [c Hc]. rewrite Hc. eauto. }
    assert (Hkeep : local w' = local w4).
    { revert E. generalize w4 (inr (A:=Exn) tt) w'.
      change (respects (keeps local)
        (if delete_origin
         then
           logger DEBUG "Deleting remote file {}" [path] ;;;
           removed <-
             try_except (sftp_remove sftp path ;;; ret true) any_exception
               (fun e =>
                  logger ERROR "Failed to delete file {} ({})"
                    [path; exn_msg e] ;;;
                  ret false) ;;
           (if removed
            then SftpDownload.remove_dir sftp (pm_dirname remotepath path)
            else ret tt)
         else ret tt)).
      respects_tac. }
    rewrite Hkeep. exact Hw4.
Qed.

(** Idempotence: after a call that returned, a second call for the same
    pair sends no request and changes no file. *)
Lemma download_file_second_call w w1 :
  destination <> "" ->
  SftpDownload.download_file path dest sftp delete_origin w = (inr tt, w1) ->
  exists w2,
    SftpDownload.download_file path dest sftp delete_origin w1 = (inr tt, w2)
    /\ untouched w1 w2.
Proof.
  intros Hne E. exists (add_log skip_line w1). split.
  - apply download_file_skip. eapply download_file_leaves_destination; eauto.
  - repeat split.
Qed.

(** C3: when the copy raises after part of the destination file was
    written, [download_file] removes that file and raises the same
    exception; afterwards nothing exists at the destination path, and no
    request was sent after the failed copy. *)
Theorem download_file_partial_cleanup w w1 w2 e partial :
  local w !! destination = None ->
  (if negb (bool_decide (is_Some (local w !! pm_dirname localpath destination)))
   then os_makedirs (pm_dirname localpath destination) else ret tt) w
  = (inr tt, w1) ->
  sftp_get sftp path destination
    (add_log (mkLogRecord VERBOSE "Downloading file {} to {}"
                [path; destination]) w1)
  = (inl e, w2) ->
  local w2 !! destination = Some (LFile partial) ->
  exists w',
    SftpDownload.download_file path dest sftp delete_origin w = (inl e, w')
    /\ local w' !! destination = None
    /\ trace w' = trace w2 /\ remote w' = remote w2.
Proof.
  intros Hfresh Hdir Hget Hpartial.
  unfold SftpDownload.download_file. fold destination.
  unfold bind at 1. unfold os_path_exists at 1.
  rewrite bool_decide_eq_false_2
    by (rewrite Hfresh; intros [? ?]; discriminate).
  unfold bind at 1. unfold os_path_exists at 1.
  unfold bind at 1. rewrite Hdir.
  unfold bind at 1. rewrite logger_ok by reflexivity.
  unfold bind at 1. unfold try_except at 1. rewrite Hget.
  cbn [any_exception].
  unfold bind at 1. rewrite logger_ok by reflexivity.
  unfold bind at 1. unfold os_path_exists at 1.
  cbn [local add_log].
  rewrite bool_decide_eq_true_2 by (rewrite Hpartial; eauto).
  unfold bind at 1. unfold bind at 1. rewrite logger_ok by reflexivity.
  unfold os_remove, bind at 1. unfold get_world at 1.
  cbn [local add_log]. rewrite Hpartial.
  unfold bind at 1, modify_world, raise. cbn.
  eexists. split; [reflexivity|]. cbn.
  split; [apply lookup_delete_eq | auto].
Qed.
End DownloadFile.

Lemma download_file_existing_noop_witness :
  exists w1 w2,
    SftpDownload.download_file "a.txt" "/dl" Scenes.sftp0 true
      Scenes.downloaded = (inr tt, w1)
    /\ SftpDownload.download_file "a.txt" "/dl" Scenes.sftp0 true w1
       = (inr tt, w2)
    /\ untouched Scenes.downloaded w1 /\ untouched Scenes.downloaded w2
    /\ gets (trace w2) = gets (trace Scenes.downloaded).
Proof.
  apply (download_file_existing_noop "a.txt" "/dl" Scenes.sftp0 true
           Scenes.downloaded).
  vm_compute. eauto.
Defined.

Lemma download_file_partial_cleanup_witness :
  SftpDownload.destination_of "a.txt" "/dl" = "/dl/a.txt"
  /\ local Scenes.flaky_cut !! "/dl/a.txt" = Some (LFile "0123")
  /\ exists w',
      SftpDownload.download_file "a.txt" "/dl" Scenes.sftp0 false Scenes.flaky
      = (inl Demo.dropped, w')
      /\ local w' !! SftpDownload.destination_of "a.txt" "/dl" = None
      /\ trace w' = trace Scenes.flaky_cut
      /\ remote w' = remote Scenes.flaky_cut.
Proof.
  split; [vm_compute; reflexivity|].
  split; [vm_compute; reflexivity|].
  apply (download_file_partial_cleanup "a.txt" "/dl" Scenes.sftp0 false
           Scenes.flaky Scenes.flaky Scenes.flaky_cut Demo.dropped "0123");
    vm_compute; reflexivity.
Defined.

(** ** Grouping: [groupby] and the loop over it *)

Section Groupby.
Context {A K : Type} `{EqDecision K} (kp : A -> K).

Lemma groupby_cons rest : forall x,
  groupby kp (x :: rest)
  = (kp x, x :: run_of kp (kp x) rest)
      :: groupby kp (after_run kp (kp x) rest).
Proof.
  induction rest as [|y rest IH]; intros x.
  - reflexivity.
  - change (groupby kp (x :: y :: rest))
      with (match groupby kp (y :: rest) with
            | (k, run) :: groups =>
                if decide (kp x = k) then (k, x :: run) :: groups
                else (kp x, [x]) :: (k, run) :: groups
            | [] => [(kp x, [x])]
            end).
    rewrite (IH y). cbn [run_of after_run].
    destruct (decide (kp x = kp y)) as [E|N].
    + rewrite E. rewrite !decide_True by reflexivity. reflexivity.
    + rewrite !decide_False by congruence.
      rewrite <- (IH y). reflexivity.
Qed.

Lemma run_after_app k rest : (run_of kp k rest ++ after_run kp k rest)%list = rest.
Proof.
  induction rest as [|x rest IH]; cbn; [reflexivity|].
  destruct (decide (kp x = k)); cbn; congruence.
Qed.

Lemma after_run_length k rest :
  (length (after_run kp k rest) <= length rest)%nat.
Proof.
  induction rest as [|x rest IH]; cbn; [lia|].
  destruct (decide (kp x = k)); cbn; lia.
Qed.

Lemma run_of_keys k rest : Forall (fun x => kp x = k) (run_of kp k rest).
Proof.
  induction rest as [|x rest IH]; cbn; [constructor|].
  destruct (decide (kp x = k)); [constructor; auto | constructor].
Qed.

Lemma after_run_head k rest y rest' :
  after_run kp k rest = y :: rest' -> kp y <> k.
Proof.
  induction rest as [|x rest IH]; cbn; [discriminate|].
  destruct (decide (kp x = k)); [exact IH|].
  intros E. inversion E; subst. assumption.
Qed.

(** Induction along the groups of a list. *)
Lemma groups_ind (P : list A -> Prop) :
  P [] ->
  (forall x rest, P (after_run kp (kp x) rest) -> P (x :: rest)) ->
  forall l, P l.
Proof.
  intros Hnil Hcons l.
  assert (Hn : forall n l, (length l <= n)%nat -> P l).
  { induction n as [|n IHn]; intros [|x rest] Hl; auto; cbn in Hl; [lia|].
    apply Hcons. apply IHn. pose proof (after_run_length (kp x) rest). lia. }
  apply (Hn (length l)). lia.
Qed.

(** The runs, in order, make up the input. *)
Lemma groupby_concat l : concat (map snd (groupby kp l)) = l.
Proof.
  induction l as [|x rest IH] using groups_ind; [reflexivity|].
  rewrite groupby_cons. cbn [map snd concat]. rewrite IH.
  cbn. f_equal. apply run_after_app.
Qed.

(** A run is not empty and its items all have the key of the run. *)
Lemma groupby_runs l :
  Forall (fun grp => snd grp <> [] /\ Forall (fun x => kp x = fst grp) (snd grp))
    (groupby kp l).
Proof.
  induction l as [|x rest IH] using groups_ind; [constructor|].
  rewrite groupby_cons. constructor; [|exact IH]. cbn. split; [discriminate|].
  constructor; [reflexivity | apply run_of_keys].
Qed.

(** Two runs that follow each other have different keys. *)
Lemma groupby_adjacent_differ l : adjacent_differ (map fst (groupby kp l)).
Proof.
  induction l as [|x rest IH] using groups_ind.
  - intros i k1 k2 E. destruct i; discriminate E.
  - rewrite groupby_cons. intros [|i] k1 k2 E1 E2; cbn in E1, E2.
    + inversion E1; subst k1.
      destruct (after_run kp (kp x) rest) as [|y rest'] eqn:Ea;
        [discriminate E2|].
      rewrite groupby_cons in E2. cbn in E2. inversion E2; subst k2.
      intros E. apply (after_run_head _ _ _ _ Ea). congruence.
    + eapply IH; eauto.
Qed.
End Groupby.

(** ** Laws of the monad, up to [meq] *)

#[global] Instance meq_equivalence {St A} : Equivalence (@meq St A).
Proof.
  split.
  - intros c s. reflexivity.
  - intros c1 c2 E s. symmetry. apply E.
  - intros c1 c2 c3 E1 E2 s. rewrite E1. apply E2.
Qed.

#[global] Instance bind_proper {St A B} :
  Proper (meq ==> pointwise_relation A meq ==> meq) (@bind St A B).
Proof.
  intros c1 c2 Ec k1 k2 Ek s. unfold bind. rewrite Ec.
  destruct (c2 s) as [[e|a] s1]; [reflexivity | apply Ek].
Qed.

#[global] Instance for_each_proper {St A} (l : list A) :
  Proper (pointwise_relation A meq ==> meq) (@for_each St A l).
Proof.
  intros f g E. induction l as [|x l IH]; cbn [for_each].
  - reflexivity.
  - apply bind_proper; [apply E | intros ?; apply IH].
Qed.

Lemma bind_assoc {St A B C} (c : M St A) (f : A -> M St B) (g : B -> M St C) :
  meq (bind (bind c f) g) (bind c (fun a => bind (f a) g)).
Proof.
  intros s. unfold bind. destruct (c s) as [[e|a] s1]; reflexivity.
Qed.

Lemma bind_ret_l {St A B} (a : A) (k : A -> M St B) : meq (bind (ret a) k) (k a).
Proof. intros s. reflexivity. Qed.

Lemma bind_ret_tt {St} (c : M St unit) : meq (bind c (fun _ => ret tt)) c.
Proof.
  intros s. unfold bind, ret. destruct (c s) as [[e|[]] s1]; reflexivity.
Qed.

Lemma for_each_ext {St A} (l : list A) (f g : A -> M St unit) :
  Forall (fun x => meq (f x) (g x)) l -> meq (for_each l f) (for_each l g).
Proof.
  induction 1 as [|x l Hx Hl IH]; cbn [for_each].
  - reflexivity.
  - apply bind_proper; [apply Hx | intros ?; apply IH].
Qed.

(** ** The lazy loop over [groupby] visits the groups of [groupby] *)

Section ForGroupby.
Context {St A K G : Type} `{EqDecision K}.
Variables (pre : A -> M St unit) (kp : A -> K).
Variables (start : K -> M St G) (item : G -> A -> M St unit).
Variable finish : G -> M St unit.

(** Computing the key of the next item and finishing the group before it
    can be done in either order. *)
Hypothesis pre_finish :
  forall x g, meq (pre x ;;; finish g) (finish g ;;; pre x).

Let key := fun x => pre x ;;; ret (kp x).
Let body := group_body pre start item finish.

Lemma for_groupby_from_groups rest : forall k g,
  meq (for_groupby_from key start item finish k g rest)
      (for_each (run_of kp k rest) (fun y => pre y ;;; item g y) ;;;
       finish g ;;;
       for_each (groupby kp (after_run kp k rest)) body).
Proof.
  induction rest as [|x rest IH]; intros k g.
  - cbn [for_groupby_from run_of after_run groupby for_each].
    rewrite bind_ret_l. now rewrite bind_ret_tt.
  - cbn [for_groupby_from run_of after_run]. unfold key at 1.
    rewrite bind_assoc. setoid_rewrite bind_ret_l.
    destruct (decide (kp x = k)) as [E|N].
    + cbn [for_each]. rewrite !bind_assoc.
      setoid_rewrite (IH k g). reflexivity.
    + cbn [for_each]. rewrite bind_ret_l.
      rewrite groupby_cons. cbn [for_each].
      unfold body at 1, group_body. cbn [fst snd].
      setoid_rewrite (IH (kp x)).
      rewrite <- bind_assoc. rewrite (pre_finish x g).
      repeat setoid_rewrite bind_assoc. reflexivity.
Qed.

Lemma for_groupby_groups l :
  meq (for_groupby key start item finish l) (for_each (groupby kp l) body).
Proof.
  destruct l as [|x rest]; [reflexivity|].
  cbn [for_groupby]. unfold key at 1.
  rewrite bind_assoc. setoid_rewrite bind_ret_l.
  setoid_rewrite (for_groupby_from_groups rest (kp x)).
  rewrite groupby_cons. cbn [for_each].
  unfold body at 2, group_body. cbn [fst snd].
  repeat setoid_rewrite bind_assoc. reflexivity.
Qed.
End ForGroupby.

Lemma for_groupby_from_key_ext {St A K G} `{EqDecision K}
    (key1 key2 : A -> M St K) (start : K -> M St G)
    (item : G -> A -> M St unit) (finish : G -> M St unit) rest :
  Forall (fun x => meq (key1 x) (key2 x)) rest ->
  forall k g,
    meq (for_groupby_from key1 start item finish k g rest)
        (for_groupby_from key2 start item finish k g rest).
Proof.
  induction 1 as [|x rest Hx Hrest IH]; intros k g; cbn [for_groupby_from].
  - reflexivity.
  - apply bind_proper; [exact Hx | intros k'].
    destruct (decide (k' = k)).
    + apply bind_proper; [reflexivity | intros ?; apply IH].
    + repeat (apply bind_proper; [reflexivity | intros ?]). apply IH.
Qed.

Lemma for_groupby_key_ext {St A K G} `{EqDecision K}
    (key1 key2 : A -> M St K) (start : K -> M St G)
    (item : G -> A -> M St unit) (finish : G -> M St unit) l :
  Forall (fun x => meq (key1 x) (key2 x)) l ->
  meq (for_groupby key1 start item finish l)
      (for_groupby key2 start item finish l).
Proof.
  destruct 1 as [|x rest Hx Hrest]; cbn [for_groupby]; [reflexivity|].
  apply bind_proper; [exact Hx | intros k].
  repeat (apply bind_proper; [reflexivity | intros ?]).
  now apply for_groupby_from_key_ext.
Qed.

(** ** Download of a task: [on_task_download] *)

Section OnTaskDownload.
Context `{Platform}.

(** [get_sftp_config] is its warning followed by the identity. *)
Lemma get_sftp_config_split entry :
  port_readable entry ->
  meq (SftpDownload.get_sftp_config entry)
      (scheme_warning entry ;;; ret (identity_of entry)).
Proof.
  intros [p Hp] s.
  unfold SftpDownload.get_sftp_config, scheme_warning, identity_of.
  unfold bind at 1, lift_res. rewrite Hp.
  destruct (String.eqb (pr_scheme (urlparse (url entry))) "sftp");
    reflexivity.
Qed.

Lemma identity_scheme entry conf :
  identity_of entry = Some conf ->
  pr_scheme (urlparse (url entry)) = "sftp".
Proof.
  unfold identity_of.
  destruct (String.eqb_spec (pr_scheme (urlparse (url entry))) "sftp");
    [auto | discriminate].
Qed.

Lemma scheme_warning_sftp entry conf :
  identity_of entry = Some conf -> scheme_warning entry = ret tt.
Proof.
  intros E. apply identity_scheme in E. unfold scheme_warning.
  now rewrite E.
Qed.

Variables (depth : nat) (config : Config).

(** The three parts of the loop body of [on_task_download]. *)
Let start (sftp_config : option ConnectionConfig)
    : M World SftpDownload.GroupState :=
  match sftp_config with
  | None => ret None
  | Some conf =>
      r <- try_except
             (sftp <- sftp_connect conf ;; ret (sftp, None))
             any_exception
             (fun e =>
                error_message <- lift_res
                  (percent_format "Failed to connect to %s (%s)"
                     [str_opt (conf_host conf); exn_msg e]) ;;
                logger ERROR error_message [] ;;;
                ret (None, Some error_message)) ;;
      ret (Some r)
  end.

Let item (g : SftpDownload.GroupState) (entry : Entry) : M World unit :=
  match g with
  | None => ret tt
  | Some (Some sftp, _) => SftpDownload.download_entry depth entry config sftp
  | Some (None, error_message) => entry_fail entry (str_opt error_message)
  end.

Let finish (g : SftpDownload.GroupState) : M World unit :=
  match g with
  | Some (Some sftp, _) => sftp_close sftp
  | _ => ret tt
  end.

Lemma on_task_download_unfold accepted :
  SftpDownload.on_task_download depth accepted config
  = (dependency_check ;;;
     for_groupby SftpDownload.get_sftp_config start item finish accepted).
Proof. reflexivity. Qed.

Lemma warning_finish_commute entry g :
  meq (scheme_warning entry ;;; finish g) (finish g ;;; scheme_warning entry).
Proof.
  intros w. unfold scheme_warning.
  destruct (String.eqb (pr_scheme (urlparse (url entry))) "sftp").
  - unfold bind, ret. destruct (finish g w) as [[e|[]] w1]; reflexivity.
  - destruct g as [[[s|] em]|];
      unfold finish, sftp_close, update_session, modify_world, bind, ret;
      rewrite !logger_ok by reflexivity; reflexivity.
Qed.

Lemma group_body_download grp :
  snd grp <> [] ->
  Forall (fun e => identity_of e = fst grp) (snd grp) ->
  meq (group_body scheme_warning start item finish grp)
      (download_group depth config grp).
Proof.
  destruct grp as [k [|x run]]; cbn [fst snd]; [congruence|].
  intros _ Hrun. apply Forall_cons in Hrun as [Hx Hrest].
  unfold group_body, download_group. cbn [fst snd].
  destruct k as [conf|].
  - rewrite (scheme_warning_sftp _ _ Hx). rewrite bind_ret_l.
    unfold start. rewrite bind_assoc.
    apply bind_proper; [reflexivity | intros r].
    rewrite bind_ret_l. cbn [for_each]. rewrite bind_assoc.
    assert (Hitem : forall y, item (Some r) y
                    = match r with
                      | (Some sftp, _) =>
                          SftpDownload.download_entry depth y config sftp
                      | (None, error_message) =>
                          entry_fail y (str_opt error_message)
                      end).
    { intros y. destruct r as [[s|] em]; reflexivity. }
    rewrite Hitem. apply bind_proper; [reflexivity | intros ?].
    apply bind_proper.
    + apply for_each_ext. eapply Forall_impl; [exact Hrest|].
      intros y Hy. cbn beta. rewrite (scheme_warning_sftp _ _ Hy).
      rewrite <- Hitem. intros s. reflexivity.
    + intros ?. destruct r as [[s|] em]; reflexivity.
  - unfold start, item, finish. cbn [for_each].
    apply bind_proper; [reflexivity | intros ?].
    rewrite !bind_ret_l. rewrite bind_ret_tt.
    apply for_each_ext. apply Forall_forall. intros y _.
    apply bind_ret_tt.
Qed.

(** C4: [on_task_download] handles the accepted entries group by group,
    where the groups are the maximal runs of consecutive entries with
    equal connection identities, in input order: the runs concatenate to
    the input, each run is non-empty and of one identity, and two runs
    that follow each other have different identities, so runs that are
    not adjacent are never merged. *)
Theorem on_task_download_groups accepted :
  Forall port_readable accepted ->
  meq (SftpDownload.on_task_download depth accepted config)
      (dependency_check ;;;
       for_each (groupby identity_of accepted) (download_group depth config))
  /\ concat (map snd (groupby identity_of accepted)) = accepted
  /\ Forall (fun grp =>
               snd grp <> []
               /\ Forall (fun e => identity_of e = fst grp) (snd grp))
       (groupby identity_of accepted)
  /\ adjacent_differ (map fst (groupby identity_of accepted)).
Proof.
  intros Hports.
  split; [| split; [apply groupby_concat |
            split; [apply groupby_runs | apply groupby_adjacent_differ]]].
  rewrite on_task_download_unfold.
  apply bind_proper; [reflexivity | intros _].
  rewrite (for_groupby_key_ext SftpDownload.get_sftp_config
             (fun x => scheme_warning x ;;; ret (identity_of x))).
  - rewrite (for_groupby_groups scheme_warning identity_of start item finish
               warning_finish_commute).
    apply for_each_ext. eapply Forall_impl; [apply groupby_runs|].
    intros grp [Hne Hrun]. now apply group_body_download.
  - eapply Forall_impl; [exact Hports|]. intros e He.
    now apply get_sftp_config_split.
Qed.
End OnTaskDownload.

Lemma on_task_download_groups_witness :
  groupby identity_of [Scenes.a1; Scenes.a2; Scenes.b1; Scenes.a3]
  = [(Some (Demo.conf_of "a.example"), [Scenes.a1; Scenes.a2]);
     (Some (Demo.conf_of "b.example"), [Scenes.b1]);
     (Some (Demo.conf_of "a.example"), [Scenes.a3])]
  /\ (meq (SftpDownload.on_task_download 5
             [Scenes.a1; Scenes.a2; Scenes.b1; Scenes.a3] Scenes.to_dl)
          (dependency_check ;;;
           for_each
             (groupby identity_of [Scenes.a1; Scenes.a2; Scenes.b1; Scenes.a3])
             (download_group 5 Scenes.to_dl))
      /\ concat (map snd (groupby identity_of
                            [Scenes.a1; Scenes.a2; Scenes.b1; Scenes.a3]))
         = [Scenes.a1; Scenes.a2; Scenes.b1; Scenes.a3]
      /\ Forall (fun grp =>
                   snd grp <> []
                   /\ Forall (fun e => identity_of e = fst grp) (snd grp))
           (groupby identity_of [Scenes.a1; Scenes.a2; Scenes.b1; Scenes.a3])
      /\ adjacent_differ
           (map fst (groupby identity_of
                       [Scenes.a1; Scenes.a2; Scenes.b1; Scenes.a3]))).
Proof.
  split; [vm_compute; reflexivity|].
  apply (on_task_download_groups 5 Scenes.to_dl
           [Scenes.a1; Scenes.a2; Scenes.b1; Scenes.a3]).
  repeat constructor; eexists; vm_compute; reflexivity.
Defined.

(** The run behind the witness: three sessions, one per run. *)
Example on_task_download_three_sessions :
  trace (snd (SftpDownload.on_task_download 5
                [Scenes.a1; Scenes.a2; Scenes.b1; Scenes.a3]
                Scenes.to_dl Scenes.served))
  = [EvConnect (Demo.conf_of "a.example");
     EvRequest 0%nat (CLstat "/f1"); EvRequest 0%nat (CLstat "/f2");
     EvClose 0%nat;
     EvConnect (Demo.conf_of "b.example");
     EvRequest 1%nat (CLstat "/g"); EvClose 1%nat;
     EvConnect (Demo.conf_of "a.example");
     EvRequest 2%nat (CLstat "/f3"); EvClose 2%nat].
Proof. vm_compute. reflexivity. Qed.

(** ** Which entries [on_task_download] fails *)

Lemma respects_bind_value {St A B} (R : relation St) `{!PreOrder R}
    (c : M St A) (k : A -> M St B) :
  respects R c ->
  (forall a s s', c s = (inr a, s') -> respects R (k a)) ->
  respects R (bind c k).
Proof.
  intros Hc Hk s r s' E. unfold bind in E.
  destruct (c s) as [[e|a] s1] eqn:Ec.
  - inversion E; subst. eapply Hc; eauto.
  - etransitivity; [eapply Hc; eauto | eapply Hk; eauto].
Qed.

Section ForGroupbyRespects.
Context {St A K G : Type} `{EqDecision K} (R : relation St) `{!PreOrder R}.
Variables (key : A -> M St K) (start : K -> M St G).
Variables (item : G -> A -> M St unit) (finish : G -> M St unit).
Variables (J : K -> G -> Prop) (Q : A -> K -> Prop).

Hypothesis key_respects : forall x, respects R (key x).
Hypothesis key_value : forall x s k s', key x s = (inr k, s') -> Q x k.
Hypothesis start_respects : forall k, respects R (start k).
Hypothesis start_value : forall k s g s', start k s = (inr g, s') -> J k g.
Hypothesis item_respects :
  forall k g x, J k g -> Q x k -> respects R (item g x).
Hypothesis finish_respects : forall g, respects R (finish g).

Lemma respects_for_groupby_from rest : forall k g,
  J k g -> respects R (for_groupby_from key start item finish k g rest).
Proof.
  induction rest as [|x rest IH]; intros k g Hg; cbn [for_groupby_from].
  - apply finish_respects.
  - apply respects_bind_value; [exact _ | apply key_respects |].
    intros k' s s' Ek. apply key_value in Ek.
    destruct (decide (k' = k)) as [->|N].
    + apply respects_bind; [exact _ | eapply item_respects; eauto |].
      intros _. now apply IH.
    + apply respects_bind; [exact _ | apply finish_respects | intros _].
      apply respects_bind_value; [exact _ | apply start_respects |].
      intros g' s1 s2 Eg. apply start_value in Eg.
      apply respects_bind; [exact _ | eapply item_respects; eauto |].
      intros _. now apply IH.
Qed.

Lemma respects_for_groupby l :
  respects R (for_groupby key start item finish l).
Proof.
  destruct l as [|x rest]; cbn [for_groupby].
  - now apply respects_ret.
  - apply respects_bind_value; [exact _ | apply key_respects |].
    intros k s s' Ek. apply key_value in Ek.
    apply respects_bind_value; [exact _ | apply start_respects |].
    intros g s1 s2 Eg. apply start_value in Eg.
    apply respects_bind; [exact _ | eapply item_respects; eauto |].
    intros _. now apply respects_for_groupby_from.
Qed.
End ForGroupbyRespects.

Section FailedEntries.
Context `{Platform}.

Lemma get_sftp_config_value entry w k w' :
  SftpDownload.get_sftp_config entry w = (inr k, w') ->
  k <> None -> sftp_scheme entry.
Proof.
  unfold SftpDownload.get_sftp_config, sftp_scheme. intros E Hk.
  apply bind_ok_inv in E as (p & w1 & _ & E).
  destruct (String.eqb_spec (pr_scheme (urlparse (url entry))) "sftp");
    [assumption|].
  apply bind_ok_inv in E as (? & w2 & _ & E). inversion E. congruence.
Qed.

Lemma fails_only_add P entry reason w :
  P entry -> fails_only P w (add_failed entry reason w).
Proof.
  intros HP. exists [(entry, reason)]. split; [reflexivity|].
  constructor; [exact HP | constructor].
Qed.

Lemma get_sftp_config_foreign entry w :
  foreign entry ->
  SftpDownload.get_sftp_config entry w
  = (inr None, add_log (scheme_warning_line entry) w).
Proof.
  intros [Hp Hs]. rewrite (get_sftp_config_split entry Hp w).
  unfold scheme_warning, identity_of, sftp_scheme in *.
  destruct (String.eqb_spec (pr_scheme (urlparse (url entry))) "sftp");
    [contradiction|].
  unfold bind. now rewrite logger_ok by reflexivity.
Qed.

(** A run of entries that are not on an SFTP server only leaves their
    warnings. *)
Lemma for_groupby_from_foreign {G} (start : _ -> M World (option G))
    item finish rest :
  (forall x, item None x = ret tt) -> finish None = ret tt ->
  Forall foreign rest ->
  forall w,
    exists w',
      for_groupby_from SftpDownload.get_sftp_config start item finish
        None None rest w = (inr tt, w')
      /\ untouched w w'
      /\ log w' = (log w ++ map scheme_warning_line rest)%list.
Proof.
  intros Hitem Hfinish. induction 1 as [|x rest Hx Hrest IH]; intros w;
    cbn [for_groupby_from].
  - rewrite Hfinish. exists w. unfold untouched.
    cbn. rewrite app_nil_r. repeat split.
  - unfold bind at 1. rewrite (get_sftp_config_foreign x w Hx).
    rewrite decide_True by reflexivity. rewrite Hitem. unfold bind at 1, ret.
    destruct (IH (add_log (scheme_warning_line x) w)) as (w' & E & Hu & Hl).
    exists w'. split; [exact E|]. split; [exact Hu|].
    rewrite Hl. cbn. now rewrite <- app_assoc.
Qed.

(** C8, as amended: [on_task_download] calls [entry.fail] only on
    entries whose URL has the scheme [sftp]; an entry whose connection
    identity cannot be derived is never failed, whatever else happens in
    the run.  A task of such entries alone returns normally with one
    warning logged per entry: no connection is opened, no request sent,
    no file changed and no entry failed. *)
Theorem on_task_download_never_fails_foreign depth accepted config w r w' :
  SftpDownload.on_task_download depth accepted config w = (r, w') ->
  (exists l,
      failed w' = (failed w ++ l)%list
      /\ Forall (fun p => sftp_scheme (fst p)) l)
  /\ (has_pysftp w = true -> Forall foreign accepted ->
      r = inr tt
      /\ untouched w w'
      /\ log w' = (log w ++ map scheme_warning_line accepted)%list).
Proof.
  intros E. split.
  - revert w r w' E.
    change (respects (fails_only sftp_scheme)
              (SftpDownload.on_task_download depth accepted config)).
    unfold SftpDownload.on_task_download.
    apply respects_bind;
      [exact _ | apply respects_dependency_check; exact _ |].
    intros _.
    apply (respects_for_groupby (fails_only sftp_scheme) _ _ _ _
             (fun k g => g <> None -> k <> None)
             (fun x k => k <> None -> sftp_scheme x)).
    + intros x. apply respects_get_sftp_config; exact _.
    + intros x s k s' E. eapply get_sftp_config_value; eauto.
    + intros [conf|]; respects_tac.
    + intros [conf|] s g s' E; [congruence|]. inversion E. congruence.
    + intros k [[[s|] em]|] x HJ HQ.
      * apply respects_download_entry; try exact _.
        intros reason w0. apply fails_only_add. apply HQ, HJ. discriminate.
      * intros w0 r0 w1 E. inversion E. apply fails_only_add.
        apply HQ, HJ. discriminate.
      * apply respects_ret; exact _.
    + intros [[[s|] em]|]; respects_tac.
  - intros Hpy Hall. unfold SftpDownload.on_task_download in E.
    unfold bind at 1, dependency_check, bind at 1, get_world in E.
    rewrite Hpy in E. cbn [negb] in E. unfold ret at 1 in E.
    destruct Hall as [|x rest Hx Hrest]; cbn [for_groupby] in E.
    + inversion E; subst. unfold untouched. cbn. rewrite app_nil_r.
      repeat split.
    + unfold bind at 1 in E. rewrite (get_sftp_config_foreign x w Hx) in E.
      unfold bind at 1, ret at 1 in E. unfold bind at 1, ret at 1 in E.
      match type of E with
      | for_groupby_from _ ?st ?it ?fi _ _ _ _ = _ =>
          destruct (for_groupby_from_foreign st it fi rest
                      ltac:(reflexivity) ltac:(reflexivity) Hrest
                      (add_log (scheme_warning_line x) w))
            as (w1 & E1 & Hu & Hl)
      end.
      rewrite E1 in E. inversion E; subst.
      split; [reflexivity|]. split; [exact Hu|].
      rewrite Hl. cbn. now rewrite <- app_assoc.
Qed.
End FailedEntries.

Lemma on_task_download_never_fails_foreign_witness :
  (exists l,
      failed (snd (SftpDownload.on_task_download 5 [Scenes.on_web]
                     Scenes.to_dl Scenes.served))
      = (failed Scenes.served ++ l)%list
      /\ Forall (fun p => sftp_scheme (fst p)) l)
  /\ (has_pysftp Scenes.served = true -> Forall foreign [Scenes.on_web] ->
      (inr tt : Res unit) = inr tt
      /\ untouched Scenes.served
           (snd (SftpDownload.on_task_download 5 [Scenes.on_web]
                   Scenes.to_dl Scenes.served))
      /\ log (snd (SftpDownload.on_task_download 5 [Scenes.on_web]
                     Scenes.to_dl Scenes.served))
         = (log Scenes.served ++ map scheme_warning_line [Scenes.on_web])%list).
Proof.
  apply (on_task_download_never_fails_foreign 5 [Scenes.on_web] Scenes.to_dl
           Scenes.served (inr tt)
           (snd (SftpDownload.on_task_download 5 [Scenes.on_web]
                   Scenes.to_dl Scenes.served))).
  vm_compute. reflexivity.
Defined.

(** In a mixed task on an unreachable host the entry on the web is
    skipped and the entry on the SFTP server is failed with the
    connection error. *)
Example on_task_download_mixed_task :
  failed (snd (SftpDownload.on_task_download 5
                 [Scenes.on_web; Scenes.present] Scenes.to_dl
                 Scenes.unreachable))
  = [(Scenes.present,
      "Failed to connect to example.com (Unable to connect)")].
Proof. vm_compute. reflexivity. Qed.

(** C8, as stated, fails: an entry with an [http] URL is skipped with a
    warning; the run returns normally without any connection, and no fail
    outcome is recorded for the entry. *)
Lemma on_task_download_foreign_not_failed :
  let run := SftpDownload.on_task_download 5 [Scenes.on_web] Scenes.to_dl
               Scenes.served in
  identity_of Scenes.on_web = None
  /\ fst run = inr tt
  /\ failed (snd run) = []
  /\ trace (snd run) = []
  /\ log (snd run)
     = [mkLogRecord WARNING "Scheme does not match SFTP: {}"
          ["http://example.com/data/a.txt"]].
Proof. vm_compute. repeat split. Qed.

(** ** A missing remote path in [download_entry] *)

(** C7 at its failing input: the remote path of the entry does not
    exist; [download_entry] logs an error and returns normally, and no
    failure is recorded for the entry. *)
Theorem download_entry_missing_path_not_failed :
  let run := SftpDownload.download_entry 5 Scenes.missing Scenes.to_dl
               Scenes.sftp0 Scenes.connected in
  sftp_lexists Scenes.sftp0 "/data/missing.txt" Scenes.connected
  = (inr false,
     add_event (EvRequest Scenes.sftp0 (CLstat "/data/missing.txt"))
       (set_requests 1 Scenes.connected))
  /\ fst run = inr tt
  /\ failed (snd run) = []
  /\ log (snd run)
     = [mkLogRecord ERROR "Remote path does not exist: {}"
          ["/data/missing.txt"]]
  /\ trace (snd run)
     = [EvRequest Scenes.sftp0 (CLstat "/data/missing.txt")].
Proof. vm_compute. repeat split. Qed.

(** The sibling paths of [download_entry] do fail the entry: a transfer
    that raises is recorded with [entry.fail]. *)
Example download_entry_transfer_error_failed :
  let run := SftpDownload.download_entry 5 Scenes.present Scenes.to_dl
               Scenes.sftp0
               (Demo.with_fault_plan (Demo.fault_at 4 (Abort Demo.dropped))
                  Scenes.connected) in
  fst run = inr tt
  /\ failed (snd run)
     = [(Scenes.present,
         "Failed to download file /data/a.txt (Server connection dropped)")].
Proof. vm_compute. repeat split. Qed.

(** ** A failed [put] in [handle_entry] *)

(** C9 at its failing input: [put] raises an [IOError].  The handler of
    that case formats two fields with one argument; with a log handler
    installed the logger call raises [IndexError], without one the [%]
    formatting raises [TypeError]; either way [handle_entry] raises and
    the entry is not failed.  A [put] that raises another exception fails
    the entry and returns. *)
Theorem handle_entry_ioerror_raises :
  let run_io := SftpUpload.handle_entry Scenes.report Scenes.sftp0
                  Scenes.to_incoming "sftp://user@example.com/"
                  (Scenes.put_fails Demo.timed_out) in
  let run_io_silent :=
    SftpUpload.handle_entry Scenes.report Scenes.sftp0
      Scenes.to_incoming "sftp://user@example.com/"
      (Demo.with_log_active false (Scenes.put_fails Demo.timed_out)) in
  let run_other := SftpUpload.handle_entry Scenes.report Scenes.sftp0
                     Scenes.to_incoming "sftp://user@example.com/"
                     (Scenes.put_fails Demo.dropped) in
  is_IOError Demo.timed_out = true
  /\ fst run_io
     = inl (mkExn IndexError
              "Replacement index 1 out of range for positional args tuple")
  /\ failed (snd run_io) = []
  /\ fst run_io_silent
     = inl (mkExn TypeError "not enough arguments for format string")
  /\ failed (snd run_io_silent) = []
  /\ is_IOError Demo.dropped = false
  /\ fst run_other = inr tt
  /\ failed (snd run_other)
     = [(Scenes.report,
         "Failed to upload /up/report.txt (Server connection dropped)")].
Proof. vm_compute. repeat split. Qed.

(** The message of the [IOError] case cannot be built, whatever [to] is. *)
Lemma remote_directory_message_raises to :
  percent_format "Remote directory does not exist: %s (%s)" [to]
  = inl (mkExn TypeError "not enough arguments for format string").
Proof. reflexivity. Qed.

(** ** Listing: [on_task_input] and its session *)

(** The session object a successful [sftp_connect] leaves in the world,
    and what is there once it is closed. *)
Lemma alter_last {X} (f : X -> X) (l : list X) (x : X) :
  alter f (length l) (l ++ [x])%list = (l ++ [f x])%list.
Proof.
  rewrite alter_app_r_alt by lia. now rewrite Nat.sub_diag.
Qed.

Lemma sftp_connect_loop_sessions tries : forall interval conf w r w',
  sftp_connect_loop tries interval conf w = (r, w') ->
  match r with
  | inr v =>
      v = Some (length (sessions w))
      /\ sessions w'
         = (sessions w
              ++ [mkSessionState conf None (Some SOCKET_TIMEOUT) true])%list
  | inl _ => sessions w' = sessions w
  end.
Proof.
  induction tries as [|tries IH]; intros interval conf w r w';
    cbn [sftp_connect_loop]; unfold try_except, bind at 1;
    unfold pysftp_Connection;
    (destruct (has_pysftp w); cbn [negb];
     [destruct (conn_plan w (attempts w)) as [e|] |]);
    cbn [any_exception].
  - intros E. inversion E; subst. reflexivity.
  - unfold bind at 1, set_timeout, update_session, modify_world.
    unfold bind at 1. rewrite logger_ok by reflexivity. unfold ret.
    intros E. inversion E; subst. cbn. split; [reflexivity|].
    rewrite alter_last. reflexivity.
  - intros E. inversion E; subst. reflexivity.
  - unfold bind at 1. rewrite logger_ok by reflexivity.
    unfold bind at 1. rewrite logger_ok by reflexivity.
    unfold bind at 1, time_sleep. intros E. apply IH in E. exact E.
  - unfold bind at 1, set_timeout, update_session, modify_world.
    unfold bind at 1. rewrite logger_ok by reflexivity. unfold ret.
    intros E. inversion E; subst. cbn. split; [reflexivity|].
    rewrite alter_last. reflexivity.
  - unfold bind at 1. rewrite logger_ok by reflexivity.
    unfold bind at 1. rewrite logger_ok by reflexivity.
    unfold bind at 1, time_sleep. intros E. apply IH in E. exact E.
Qed.


Section ListRespects.
Context `{Platform} (R : relation World) `{!Quiet R}.

Lemma respects_file_size sftp p : respects R (SftpList.file_size sftp p).
Proof. unfold SftpList.file_size. respects_tac. Qed.

Hint Resolve respects_file_size : respects.

Lemma respects_node_size sftp f :
  respects (on_world R) (SftpList.node_size sftp f).
Proof. unfold SftpList.node_size. respects_tac. Qed.

Lemma respects_dir_size depth sftp p :
  respects R (SftpList.dir_size depth sftp p).
Proof.
  unfold SftpList.dir_size. respects_tac.
  apply respects_walktree; try exact _; intros; apply respects_node_size.
Qed.

Lemma respects_handle_node sftp prefix files_only get_size pk pkp path
    size_handler is_dir :
  (forall p, respects R (size_handler p)) ->
  respects (on_world R)
    (SftpList.handle_node sftp prefix files_only get_size pk pkp path
       size_handler is_dir).
Proof. intros Hs. unfold SftpList.handle_node. respects_tac. Qed.

Lemma respects_list_walk depth sftp prefix files_only get_size pk pkp
    recursive dirs :
  respects (on_world R)
    (for_each dirs (fun dir =>
       try_except
         (on_sftp sftp (fun s =>
            walktree depth s dir
              (SftpList.handle_file sftp prefix files_only get_size pk pkp)
              (SftpList.handle_dir depth sftp prefix files_only get_size
                 pk pkp)
              SftpList.handle_unknown recursive))
         is_IOError
         (fun e =>
            liftW (logger ERROR "Failed to open {} ({})" [dir; exn_msg e])))).
Proof.
  respects_tac. apply respects_walktree; try exact _; intros.
  - apply respects_handle_node. intros. apply respects_file_size.
  - apply respects_handle_node. intros. apply respects_dir_size.
  - unfold SftpList.handle_unknown. respects_tac.
Qed.
End ListRespects.


Section OnTaskInput.
Context `{Platform}.

End OnTaskInput.


(** The listing scenario of the spec: [/data] holds [a.txt] of ten bytes
    and the empty directory [sub]. *)
Example on_task_input_scenario :
  fst (SftpList.on_task_input 5 Scenes.list_data Scenes.served)
  = inr [mkEntry "a.txt" "sftp://user@example.com/data/a.txt" None (Some 10)
           None None;
         mkEntry "sub" "sftp://user@example.com/data/sub" None (Some 0)
           None None].
Proof. vm_compute. reflexivity. Qed.


(** ** The size of a directory: [dir_size] *)

(** Induction on remote trees, with the children of a directory. *)
Lemma rtree_ind (P : rtree -> Prop) :
  (forall n s, P (T_file n s)) ->
  (forall n s children, Forall P children -> P (T_dir n s children)) ->
  (forall n s, P (T_other n s)) ->
  forall t, P t.
Proof.
  intros Hf Hd Ho. fix IH 1. intros [n s|n s children|n s].
  - apply Hf.
  - apply Hd. induction children as [|c children IHc]; constructor.
    + apply IH.
    + exact IHc.
  - apply Ho.
Qed.

Lemma sum_app l1 l2 : sum (l1 ++ l2) = sum l1 + sum l2.
Proof.
  induction l1 as [|x l1 IH]; cbn [sum fold_right app]; [reflexivity|].
  fold (sum (l1 ++ l2)). fold (sum l1). rewrite IH. lia.
Qed.

Lemma sum_sizes_below t : sum (sizes_below t) = below t.
Proof.
  induction t as [n s|n s children IH|n s] using rtree_ind; try reflexivity.
  cbn [sizes_below below].
  induction IH as [|c children Hc _ IHl]; [reflexivity|].
  cbn [flat_map map]. rewrite sum_app.
  change (sum (own_size c :: sizes_below c))
    with (own_size c + sum (sizes_below c)).
  rewrite Hc, IHl. reflexivity.
Qed.

(** Below a directory that holds only files, every size is a file's. *)
Lemma below_only_files t : only_files t = true -> below t = files_below t.
Proof.
  destruct t as [n s|n s children|n s]; try reflexivity.
  cbn [only_files below files_below].
  induction children as [|c children IH]; [reflexivity|].
  cbn [forallb map]. intros Hall. apply andb_true_iff in Hall as [Hc Hrest].
  change (sum (?x :: ?l)) with (x + sum l). rewrite (IH Hrest).
  destruct c; try discriminate Hc. reflexivity.
Qed.

Section DirSize.
Context `{Platform}.
Variables (sftp : Session) (ss : SessionState) (fs : gmap string rnode).
Hypothesis live : ss_live ss = true.

#[local] Abbreviation calm := (calm sftp ss fs).
#[local] Abbreviation tick := (tick sftp).

Lemma calm_tick c w : calm w -> calm (tick c w).
Proof. intros (Hs & Hf & Hfs). repeat split; assumption. Qed.

Lemma request_calm c w : calm w -> request sftp c w = (inr ss, tick c w).
Proof.
  intros (Hs & Hf & Hfs). unfold request, bind, begin_request.
  rewrite Hs, live, Hf. reflexivity.
Qed.

Lemma sftp_stat_calm p node w :
  calm w -> fs !! adjust_cwd (ss_cwd ss) p = Some node ->
  sftp_stat sftp p w = (inr (attrs_of node), tick (CStat p) w).
Proof.
  intros Hc Hn. unfold sftp_stat, bind at 1. rewrite (request_calm _ _ Hc).
  unfold bind, get_world, node_at.
  destruct (calm_tick (CStat p) w Hc) as (_ & _ & ->). now rewrite Hn.
Qed.

Lemma sftp_lstat_calm p node w :
  calm w -> fs !! adjust_cwd (ss_cwd ss) p = Some node ->
  sftp_lstat sftp p w = (inr (attrs_of node), tick (CLstat p) w).
Proof.
  intros Hc Hn. unfold sftp_lstat, bind at 1. rewrite (request_calm _ _ Hc).
  unfold bind, get_world, node_at.
  destruct (calm_tick (CLstat p) w Hc) as (_ & _ & ->). now rewrite Hn.
Qed.

Lemma sftp_listdir_calm p sz names w :
  calm w -> fs !! adjust_cwd (ss_cwd ss) p = Some (RDir sz names) ->
  sftp_listdir sftp p w = (inr (sorted names), tick (CListdir p) w).
Proof.
  intros Hc Hn. unfold sftp_listdir, bind at 1.
  rewrite (request_calm _ _ Hc). unfold bind, get_world, node_at.
  destruct (calm_tick (CListdir p) w Hc) as (_ & _ & ->). now rewrite Hn.
Qed.

Lemma node_size_calm p node acc w :
  calm w -> fs !! adjust_cwd (ss_cwd ss) p = Some node ->
  SftpList.node_size (Some sftp) p (acc, w)
  = (inr tt, ((acc ++ [attr_size (attrs_of node)])%list, tick (CLstat p) w)).
Proof.
  intros Hc Hn.
  unfold SftpList.node_size, SftpList.file_size, on_sftp, bind at 1, liftW.
  cbn [snd fst]. unfold bind at 1. rewrite (sftp_lstat_calm _ _ _ Hc Hn).
  reflexivity.
Qed.

Let ns := SftpList.node_size (Some sftp).

(** The body of the loop of [walktree] over the children of [parent]. *)
Let visit (depth : nat) (parent entry : string) : M (list Z * World) unit :=
  let pathname := posixpath.join parent entry in
  a <- liftW (sftp_stat sftp pathname) ;;
  match st_mode a with
  | S_IFDIR =>
      ns pathname ;;; walktree depth sftp pathname ns ns ns true
  | S_IFREG => ns pathname
  | S_IFOTHER => ns pathname
  end.

Lemma walktree_unfold depth path :
  walktree (S depth) sftp path ns ns ns true
  = (names <- liftW (sftp_listdir sftp path) ;;
     for_each names (visit depth path)).
Proof. reflexivity. Qed.

(** What visiting the child [c] of [parent] does. *)
Let visits (c : rtree) : Prop :=
  forall depth parent acc w,
    calm w ->
    shaped fs (ss_cwd ss) (posixpath.join parent (node_name c)) c = true ->
    (need c <= depth)%nat ->
    exists w',
      visit depth parent (node_name c) (acc, w)
      = (inr tt, ((acc ++ own_size c :: sizes_below c)%list, w'))
      /\ calm w'.

Lemma for_each_visits children : forall depth path acc w,
  Forall visits children ->
  calm w ->
  forallb (fun c => shaped fs (ss_cwd ss)
                      (posixpath.join path (node_name c)) c) children = true ->
  (fold_right Nat.max 0%nat (map need children) <= depth)%nat ->
  exists w',
    for_each (map node_name children) (visit depth path) (acc, w)
    = (inr tt,
       ((acc ++ flat_map (fun c => own_size c :: sizes_below c) children)%list,
        w'))
    /\ calm w'.
Proof.
  induction children as [|c children IH]; intros depth path acc w Hv Hc Hs Hn.
  - cbn. rewrite app_nil_r. eauto.
  - apply Forall_cons in Hv as [Hvc Hv].
    cbn [forallb] in Hs. apply andb_true_iff in Hs as [Hsc Hs].
    cbn [map fold_right] in Hn.
    destruct (Hvc depth path acc w Hc Hsc ltac:(lia)) as (w1 & E1 & Hc1).
    destruct (IH depth path (acc ++ own_size c :: sizes_below c)%list w1
                Hv Hc1 Hs ltac:(lia)) as (w2 & E2 & Hc2).
    exists w2. split; [|exact Hc2].
    cbn [map for_each flat_map]. unfold bind at 1. rewrite E1, E2.
    now rewrite <- app_assoc.
Qed.

Lemma walktree_calm depth path n sz children acc w :
  Forall visits children ->
  calm w ->
  shaped fs (ss_cwd ss) path (T_dir n sz children) = true ->
  (need (T_dir n sz children) <= depth)%nat ->
  exists w',
    walktree depth sftp path ns ns ns true (acc, w)
    = (inr tt, ((acc ++ sizes_below (T_dir n sz children))%list, w'))
    /\ calm w'.
Proof.
  intros Hv Hc Hs Hn. cbn [need] in Hn.
  destruct depth as [|depth]; [lia|].
  cbn [shaped] in Hs.
  destruct (fs !! adjust_cwd (ss_cwd ss) path) as [[?|s names|?]|] eqn:Hp;
    try discriminate Hs.
  apply andb_true_iff in Hs as [Hs Hch].
  apply andb_true_iff in Hs as [_ Hnames].
  apply bool_decide_eq_true_1 in Hnames.
  rewrite walktree_unfold. unfold bind at 1, liftW at 1. cbn [snd fst].
  rewrite (sftp_listdir_calm _ _ _ _ Hc Hp). rewrite Hnames.
  apply for_each_visits; auto using calm_tick. lia.
Qed.

Lemma visits_all t : visits t.
Proof.
  induction t as [n s|n s children IH|n s] using rtree_ind;
    intros depth parent acc w Hc Hs Hn; cbn [node_name] in *.
  - cbn [shaped] in Hs.
    destruct (fs !! _) as [[content| |]|] eqn:Hp; try discriminate Hs.
    apply Z.eqb_eq in Hs.
    unfold visit, bind at 1, liftW at 1. cbn [snd fst].
    rewrite (sftp_stat_calm _ _ _ Hc Hp). cbn [attrs_of st_mode].
    unfold ns. rewrite (node_size_calm _ _ _ _ (calm_tick _ _ Hc) Hp).
    cbn [attrs_of attr_size sizes_below own_size]. rewrite Hs.
    eauto using calm_tick.
  - pose proof Hs as Hs'. cbn [shaped] in Hs'.
    destruct (fs !! _) as [[?|s0 names|?]|] eqn:Hp; try discriminate Hs'.
    apply andb_true_iff in Hs' as [Hs' _].
    apply andb_true_iff in Hs' as [Hsz _]. apply Z.eqb_eq in Hsz.
    unfold visit, bind at 1, liftW at 1. cbn [snd fst].
    rewrite (sftp_stat_calm _ _ _ Hc Hp). cbn [attrs_of st_mode].
    unfold bind at 1, ns.
    rewrite (node_size_calm _ _ _ _ (calm_tick _ _ Hc) Hp).
    cbn [attrs_of attr_size own_size]. rewrite Hsz.
    destruct (walktree_calm depth (posixpath.join parent n) n s children
                (acc ++ [s])%list
                (tick (CLstat (posixpath.join parent n))
                   (tick (CStat (posixpath.join parent n)) w)))
      as (w' & E & Hc'); auto using calm_tick.
    exists w'. split; [|exact Hc']. fold ns. rewrite E.
    now rewrite <- app_assoc.
  - cbn [shaped] in Hs.
    destruct (fs !! _) as [[?| |s0]|] eqn:Hp; try discriminate Hs.
    apply Z.eqb_eq in Hs.
    unfold visit, bind at 1, liftW at 1. cbn [snd fst].
    rewrite (sftp_stat_calm _ _ _ Hc Hp). cbn [attrs_of st_mode].
    unfold ns. rewrite (node_size_calm _ _ _ _ (calm_tick _ _ Hc) Hp).
    cbn [attrs_of attr_size sizes_below own_size]. rewrite Hs.
    eauto using calm_tick.
Qed.

(** [dir_size] of a directory is the sum of the [lstat] sizes of all the
    nodes below it. *)
Lemma dir_size_below depth path n sz children w :
  calm w ->
  shaped fs (ss_cwd ss) path (T_dir n sz children) = true ->
  (need (T_dir n sz children) <= depth)%nat ->
  exists w',
    SftpList.dir_size depth (Some sftp) path w
    = (inr (below (T_dir n sz children)), w')
    /\ calm w'.
Proof.
  intros Hc Hs Hn.
  destruct (walktree_calm depth path n sz children [] w) as (w' & E & Hc');
    auto.
  { apply Forall_forall. intros c _. apply visits_all. }
  exists w'. split; [|exact Hc'].
  unfold SftpList.dir_size, bind at 1, with_captured, on_sftp.
  fold ns. rewrite E. unfold ret. cbn [snd app].
  now rewrite sum_sizes_below.
Qed.

(** C5, as amended: with [get_size] set, the size [handle_dir] records
    for a directory is the sum of the [lstat] sizes of all the nodes below
    it, directories and unknown nodes included; when only files lie below
    it, that is the sum of their sizes. *)
Theorem handle_dir_records_size_below depth prefix path n sz children
    entries w :
  calm w ->
  shaped fs (ss_cwd ss) path (T_dir n sz children) = true ->
  (need (T_dir n sz children) <= depth)%nat ->
  exists entry w',
    SftpList.handle_dir depth (Some sftp) prefix false true None None path
      (entries, w)
    = (inr tt, ((entries ++ [entry])%list, w'))
    /\ title entry = posixpath.basename path
    /\ content_size entry = Some (below (T_dir n sz children))
    /\ (only_files (T_dir n sz children) = true ->
        content_size entry = Some (files_below (T_dir n sz children))).
Proof.
  intros Hc Hs Hn.
  unfold SftpList.handle_dir, SftpList.handle_node. cbn [andb].
  unfold bind at 1, liftW at 1, on_sftp at 1, sftp_normalize.
  cbn [snd fst]. unfold bind at 1. rewrite (request_calm _ _ Hc).
  unfold ret at 1.
  destruct (dir_size_below depth path n sz children
              (tick (CNormalize path) w) (calm_tick _ _ Hc) Hs Hn)
    as (w' & E & Hc').
  unfold bind at 1. unfold bind at 1, liftW at 1, try_except.
  cbn [snd fst]. rewrite E. unfold ret, append_captured. cbn [snd fst].
  eexists. exists w'. split; [reflexivity|].
  split; [reflexivity|]. split; [reflexivity|].
  intros Hof. rewrite <- (below_only_files _ Hof). reflexivity.
Qed.
End DirSize.

Lemma handle_dir_records_size_below_witness :
  below Scenes.pub_t = 60
  /\ only_files Scenes.pub_t = true
  /\ exists entry w',
      SftpList.handle_dir 5 (Some Scenes.sftp0) "sftp://example.com/" false
        true None None "/pub" ([], Scenes.publishing)
      = (inr tt, (([] ++ [entry])%list, w'))
      /\ title entry = posixpath.basename "/pub"
      /\ content_size entry = Some (below Scenes.pub_t)
      /\ (only_files Scenes.pub_t = true ->
          content_size entry = Some (files_below Scenes.pub_t)).
Proof.
  split; [reflexivity|]. split; [reflexivity|].
  apply (handle_dir_records_size_below Scenes.sftp0
           (mkSessionState (Demo.conf_of "example.com") None (Some 15) true)
           (server_of Scenes.publishing
              (mkSessionState (Demo.conf_of "example.com") None (Some 15)
                 true))
           eq_refl 5 "sftp://example.com/" "/pub" "pub" 4096
           [T_file "big" 30; T_file "mid" 20; T_file "small" 10] []
           Scenes.publishing).
  - split; [reflexivity|]. split; [intros n; reflexivity | reflexivity].
  - vm_compute. reflexivity.
  - vm_compute. lia.
Defined.

(** An empty directory has size 0. *)
Example handle_dir_empty_directory :
  fst (SftpList.handle_dir 5 (Some Scenes.sftp0) "sftp://example.com/" false
         true None None "/data/sub" ([], Scenes.connected))
  = inr tt
  /\ map content_size
       (fst (snd (SftpList.handle_dir 5 (Some Scenes.sftp0)
                    "sftp://example.com/" false true None None "/data/sub"
                    ([], Scenes.connected))))
     = [Some 0].
Proof. vm_compute. split; reflexivity. Qed.

(** C5, as stated, fails: [/data] holds a file of ten bytes and an empty
    directory whose own [lstat] size is 4096; the size recorded for
    [/data] is 4106, not the 10 bytes of the files below it. *)
Lemma handle_dir_counts_directories :
  let run := SftpList.handle_dir 5 (Some Scenes.sftp0) "sftp://example.com/"
               false true None None "/data" ([], Scenes.connected) in
  shaped Scenes.data_tree (Some "/data") "/data" Scenes.data_t = true
  /\ files_below Scenes.data_t = 10
  /\ fst run = inr tt
  /\ map content_size (fst (snd run)) = [Some 4106]
  /\ map content_size (fst (snd run)) <> [Some (files_below Scenes.data_t)].
Proof. vm_compute. repeat split. discriminate. Qed.

(** * Further properties of the module *)

(** ** Connecting *)

Lemma sleeps_app tr1 tr2 : sleeps (tr1 ++ tr2) = (sleeps tr1 ++ sleeps tr2)%list.
Proof.
  induction tr1 as [|ev tr1 IH]; [reflexivity|].
  destruct ev; cbn [sleeps app]; rewrite ?IH; reflexivity.
Qed.

(** X1: [sftp_connect] never returns [None].  When it returns, the
    result is the connection object it created in this call for the given
    identity, and that is the only session added.  However it ends, the
    sessions that existed before are unchanged, and so are the files on
    both sides and the failure records. *)
Theorem sftp_connect_returns_new_session conf w r w' :
  sftp_connect conf w = (r, w') ->
  (forall v, r = inr v ->
     v = Some (length (sessions w))
     /\ exists ss,
         sessions w' = (sessions w ++ [ss])%list /\ ss_conf ss = conf)
  /\ (exists new, sessions w' = (sessions w ++ new)%list)
  /\ remote w' = remote w /\ local w' = local w /\ failed w' = failed w.
Proof.
  intros E.
  pose proof (sftp_connect_loop_sessions _ _ _ _ _ _ E) as Hs.
  split; [|split].
  - intros v ->. destruct Hs as [-> Hs]. split; [reflexivity|].
    eexists. split; [exact Hs | reflexivity].
  - destruct r as [e|v].
    + exists []. now rewrite app_nil_r.
    + destruct Hs as [_ Hs]. eauto.
  - repeat split.
    + apply (respects_sftp_connect (keeps remote) conf _ _ _ E).
    + apply (respects_sftp_connect (keeps local) conf _ _ _ E).
    + apply (respects_sftp_connect (keeps failed) conf _ _ _ E).
Qed.

Lemma sftp_connect_returns_new_session_witness :
  (forall v,
     fst (sftp_connect (Demo.conf_of "example.com") Scenes.recovering)
     = inr v ->
     v = Some (length (sessions Scenes.recovering))
     /\ exists ss,
         sessions (snd (sftp_connect (Demo.conf_of "example.com")
                          Scenes.recovering))
         = (sessions Scenes.recovering ++ [ss])%list
         /\ ss_conf ss = Demo.conf_of "example.com")
  /\ (exists new,
        sessions (snd (sftp_connect (Demo.conf_of "example.com")
                         Scenes.recovering))
        = (sessions Scenes.recovering ++ new)%list)
  /\ remote (snd (sftp_connect (Demo.conf_of "example.com")
                    Scenes.recovering))
     = remote Scenes.recovering
  /\ local (snd (sftp_connect (Demo.conf_of "example.com")
                   Scenes.recovering))
     = local Scenes.recovering
  /\ failed (snd (sftp_connect (Demo.conf_of "example.com")
                    Scenes.recovering))
     = failed Scenes.recovering.
Proof.
  apply (sftp_connect_returns_new_session (Demo.conf_of "example.com")
           Scenes.recovering
           (fst (sftp_connect (Demo.conf_of "example.com")
                   Scenes.recovering))
           (snd (sftp_connect (Demo.conf_of "example.com")
                   Scenes.recovering))).
  vm_compute. reflexivity.
Defined.

(** The loop connects at the first attempt that is not refused, after one
    wait per refused attempt. *)
Lemma sftp_connect_loop_recovers k : forall tries interval conf w
    (fate : nat -> Exn),
  (k <= tries)%nat ->
  has_pysftp w = true ->
  (forall n, (n < k)%nat -> conn_plan w (n + attempts w) = Some (fate n)) ->
  conn_plan w (k + attempts w) = None ->
  exists w',
    sftp_connect_loop tries interval conf w
    = (inr (Some (length (sessions w))), w')
    /\ trace w' = (trace w ++ retry_trace conf k interval)%list
    /\ attempts w' = (S k + attempts w)%nat.
Proof.
  induction k as [|k IH]; intros tries interval conf w fate Hk Hpy Hfail Hok.
  - cbn in Hok.
    destruct tries; cbn [sftp_connect_loop]; unfold try_except, bind at 1;
      unfold pysftp_Connection; rewrite Hpy; cbn [negb]; rewrite Hok;
      unfold bind at 1, set_timeout, update_session, modify_world;
      unfold bind at 1; rewrite logger_ok by reflexivity; unfold ret;
      eexists; (split; [reflexivity|]); cbn; auto.
  - destruct tries as [|tries]; [lia|].
    pose proof (Hfail 0%nat ltac:(lia)) as H0. cbn in H0.
    cbn [sftp_connect_loop]. unfold try_except, bind at 1.
    unfold bind at 1. unfold pysftp_Connection.
    rewrite Hpy. cbn [negb]. rewrite H0. cbn [any_exception].
    unfold bind at 1. rewrite logger_ok by reflexivity.
    unfold bind at 1. rewrite logger_ok by reflexivity.
    unfold bind at 1, time_sleep.
    match goal with
    | |- context [sftp_connect_loop tries ?i conf ?w1] =>
        destruct (IH tries i conf w1 (fun n => fate (S n)))
          as (w' & E & Ht & Ha)
    end.
    + lia.
    + exact Hpy.
    + intros n Hn. cbn [conn_plan attempts add_event add_log set_attempts].
      rewrite <- (Hfail (S n)) by lia. f_equal. lia.
    + cbn [conn_plan attempts add_event add_log set_attempts].
      rewrite <- Hok. f_equal. lia.
    + exists w'. split; [exact E|]. rewrite Ht, Ha. cbn.
      split; [|lia]. rewrite <- !app_assoc. reflexivity.
Qed.



(** X3: every failure of [sftp_from_config] is a [PluginError] whose
    message names the host and the cause, the exception [sftp_connect]
    raised. *)
Theorem sftp_from_config_error config w e w' :
  sftp_from_config config w = (inl e, w') ->
  exists cause,
    sftp_connect (conn_conf_of config) w = (inl cause, w')
    /\ e = mkExn PluginError
             (connect_error_message (cfg_host config) (exn_msg cause)).
Proof.
  unfold sftp_from_config, try_except. fold (conn_conf_of config).
  destruct (sftp_connect (conn_conf_of config) w) as [[cause|v] w1];
    [|discriminate].
  cbn [any_exception]. unfold bind, lift_res, raise. cbn.
  intros E. inversion E; subst. exists cause. split; reflexivity.
Qed.

Lemma sftp_from_config_error_witness :
  exists cause,
    sftp_connect (conn_conf_of Scenes.list_data) Scenes.unreachable
    = (inl cause,
       snd (sftp_from_config Scenes.list_data Scenes.unreachable))
    /\ mkExn PluginError
         "Failed to connect to example.com (Unable to connect)"
       = mkExn PluginError
           (connect_error_message (cfg_host Scenes.list_data)
              (exn_msg cause)).
Proof.
  apply (sftp_from_config_error Scenes.list_data Scenes.unreachable
           (mkExn PluginError
              "Failed to connect to example.com (Unable to connect)")
           (snd (sftp_from_config Scenes.list_data Scenes.unreachable))).
  vm_compute. reflexivity.
Defined.

(** ** What the task handlers leave alone *)

#[global] Instance ignores_sessions_open R `{!IgnoresSessions R}
  : AdmitsOpen R.
Proof. intros conf w. apply ignores_sessions. Qed.

#[global] Instance ignores_sessions_update R `{!IgnoresSessions R}
  : AdmitsUpdate R.
Proof. intros f s w _. apply ignores_sessions. Qed.

#[global] Instance keeps_remote_failed : IgnoresFailed (keeps remote).
Proof. intros e r w. reflexivity. Qed.
#[global] Instance keeps_local_failed : IgnoresFailed (keeps local).
Proof. intros e r w. reflexivity. Qed.
#[global] Instance keeps_sessions_failed : IgnoresFailed (keeps sessions).
Proof. intros e r w. reflexivity. Qed.

#[global] Instance fails_only_failed_all
  : IgnoresFailed (fails_only (fun _ => True)).
Proof.
  intros e r w. exists [(e, r)]. split; [reflexivity|].
  repeat constructor.
Qed.

Lemma lives_alter (f : SessionState -> SessionState) s l :
  (forall ss, ss_live (f ss) = ss_live ss) ->
  map ss_live (alter f s l) = map ss_live l.
Proof.
  intros Hf. revert s. induction l as [|x l IH]; intros [|s]; cbn;
    rewrite ?Hf, ?IH; reflexivity.
Qed.

#[global] Instance keeps_lives_quiet : Quiet (keeps lives).
Proof. split; [exact _ | reflexivity ..]. Qed.
#[global] Instance keeps_lives_remote : IgnoresRemote (keeps lives).
Proof. intros r w. reflexivity. Qed.
#[global] Instance keeps_lives_local : IgnoresLocal (keeps lives).
Proof. intros r w. reflexivity. Qed.
#[global] Instance keeps_lives_failed : IgnoresFailed (keeps lives).
Proof. intros e r w. reflexivity. Qed.
#[global] Instance keeps_lives_update : AdmitsUpdate (keeps lives).
Proof. intros f s w Hf. unfold keeps, lives. cbn. now apply lives_alter. Qed.

Lemma stays_open_same w w' : lives w' = lives w -> stays_open w w'.
Proof.
  intros E. exists []. split; [now rewrite app_nil_r | constructor].
Qed.

#[global] Instance stays_open_preorder : PreOrder stays_open.
Proof.
  split.
  - intros w. now apply stays_open_same.
  - intros a b c [l1 [E1 F1]] [l2 [E2 F2]]. exists (l1 ++ l2)%list. split.
    + rewrite E2, E1. now rewrite app_assoc.
    + apply Forall_app; auto.
Qed.

#[global] Instance stays_open_quiet : Quiet stays_open.
Proof. split; [exact _ | intros; now apply stays_open_same ..]. Qed.
#[global] Instance stays_open_remote : IgnoresRemote stays_open.
Proof. intros r w. now apply stays_open_same. Qed.
#[global] Instance stays_open_local : IgnoresLocal stays_open.
Proof. intros r w. now apply stays_open_same. Qed.
#[global] Instance stays_open_failed : IgnoresFailed stays_open.
Proof. intros e r w. now apply stays_open_same. Qed.
#[global] Instance stays_open_update : AdmitsUpdate stays_open.
Proof.
  intros f s w Hf. apply stays_open_same. unfold lives. cbn.
  now apply lives_alter.
Qed.
#[global] Instance stays_open_open : AdmitsOpen stays_open.
Proof.
  intros conf w. exists [true]. split.
  - unfold lives. cbn. now rewrite map_app.
  - repeat constructor.
Qed.

Section SessionUpdates.
Context (R : relation World) `{!Quiet R} `{!AdmitsUpdate R}.

Lemma respects_update_session_live s f :
  (forall ss, ss_live (f ss) = ss_live ss) ->
  respects R (update_session s f).
Proof.
  intros Hf w r w' E. unfold update_session, modify_world in E.
  inversion E; subst. now apply admits_update.
Qed.

Lemma respects_set_timeout_live s n : respects R (set_timeout s n).
Proof.
  unfold set_timeout. apply respects_update_session_live. reflexivity.
Qed.

Lemma respects_sftp_cwd_live s p : respects R (sftp_cwd s p).
Proof.
  unfold sftp_cwd. respects_tac.
  apply respects_update_session_live. reflexivity.
Qed.

Context `{!AdmitsOpen R}.

Lemma respects_pysftp_Connection_open conf :
  respects R (pysftp_Connection conf).
Proof.
  intros w r w' E. unfold pysftp_Connection in E.
  destruct (negb (has_pysftp w)); [inversion E; reflexivity|].
  destruct (conn_plan w (attempts w)); inversion E; subst.
  - frame_solve.
  - transitivity
      (add_event (EvConnect conf) (set_attempts (S (attempts w)) w));
      [frame_solve|].
    exact (admits_open conf
             (add_event (EvConnect conf) (set_attempts (S (attempts w)) w))).
Qed.

Lemma respects_sftp_connect_loop_open tries : forall interval conf,
  respects R (sftp_connect_loop tries interval conf).
Proof.
  induction tries as [|tries IH]; intros interval conf;
    cbn [sftp_connect_loop];
    (apply respects_try_except; [exact _ | | intros e]).
  - apply respects_bind; [exact _ | apply respects_pysftp_Connection_open |].
    intros s. apply respects_bind; [exact _ | apply respects_set_timeout_live|].
    intros _. respects_tac.
  - respects_tac.
  - apply respects_bind; [exact _ | apply respects_pysftp_Connection_open |].
    intros s. apply respects_bind; [exact _ | apply respects_set_timeout_live|].
    intros _. respects_tac.
  - apply respects_bind; [exact _ | apply respects_logger; exact _ |].
    intros _. apply respects_bind; [exact _ | apply respects_logger; exact _ |].
    intros _. apply respects_bind; [exact _ | apply respects_time_sleep; exact _ |].
    intros _. apply IH.
Qed.

Lemma respects_sftp_connect_open conf : respects R (sftp_connect conf).
Proof. apply respects_sftp_connect_loop_open. Qed.

Lemma respects_sftp_from_config_open config :
  respects R (sftp_from_config config).
Proof.
  unfold sftp_from_config.
  apply respects_try_except; [exact _ | apply respects_sftp_connect_open |].
  intros e. respects_tac.
Qed.
End SessionUpdates.

(** [respects_tac] where a switch of the configuration is off. *)
Ltac respects_off :=
  repeat first
    [ solve [eauto 3 with respects typeclass_instances]
    | match goal with
      | |- respects _ (if _ && false then _ else _) => rewrite andb_false_r
      end
    | respects_step ].

Section HandlerFrames.
Context `{Platform} (R : relation World) `{!Quiet R}.

Lemma respects_on_task_input `{!IgnoresSessions R} depth config :
  respects R (SftpList.on_task_input depth config).
Proof.
  unfold SftpList.on_task_input.
  apply respects_bind; [exact _ | apply respects_dependency_check; exact _ |].
  intros _. cbv zeta.
  apply respects_bind; [exact _ | apply respects_logger; exact _ |].
  intros _.
  apply respects_bind;
    [exact _ | apply respects_sftp_from_config; exact _ |].
  intros sftp. apply respects_bind; [exact _ | |].
  { apply respects_lift_res; preorder. }
  intros prefix. apply respects_bind; [exact _ | |].
  { apply respects_with_captured; preorder.
    apply respects_list_walk. exact _. }
  intros r. apply respects_bind; [exact _ | |].
  { apply respects_on_sftp; preorder. intros s.
    apply respects_sftp_close; exact _. }
  intros _. apply respects_ret; preorder.
Qed.

Context `{!IgnoresFailed R}.

Lemma respects_entry_fail e reason : respects R (entry_fail e reason).
Proof. intros w r w' E. inversion E. apply ignores_failed. Qed.

Hint Resolve respects_entry_fail : respects.

Section Download.
Context `{!IgnoresLocal R} `{!AdmitsUpdate R}.

Lemma respects_download_file_when path dest s del :
  (del = true -> IgnoresRemote R) ->
  respects R (SftpDownload.download_file path dest s del).
Proof.
  intros Hdel. unfold SftpDownload.download_file.
  destruct del.
  - pose proof (Hdel eq_refl). respects_tac.
  - respects_tac.
Qed.

Lemma respects_download_entry_when depth entry config s :
  (cfg_delete_origin config = true -> IgnoresRemote R) ->
  respects R (SftpDownload.download_entry depth entry config s).
Proof.
  intros Hdel.
  assert (Hfile : forall p d,
             respects R (SftpDownload.download_file p d s
                           (cfg_delete_origin config))).
  { intros. now apply respects_download_file_when. }
  assert (Hcwd : forall p, respects R (sftp_cwd s p)).
  { intros. apply respects_sftp_cwd_live; exact _. }
  unfold SftpDownload.download_entry. cbv zeta.
  destruct (cfg_delete_origin config) eqn:Edel.
  - pose proof (Hdel eq_refl).
    respects_tac; try apply respects_walktree; try exact _; intros;
      unfold SftpDownload.handle_dir, SftpDownload.handle_unknown;
      respects_tac.
  - respects_off; try apply respects_walktree; try exact _; intros;
      unfold SftpDownload.handle_dir, SftpDownload.handle_unknown;
      respects_tac.
Qed.

Lemma respects_on_task_download_when `{!IgnoresSessions R} depth accepted
    config :
  (cfg_delete_origin config = true -> IgnoresRemote R) ->
  respects R (SftpDownload.on_task_download depth accepted config).
Proof.
  intros Hdel. unfold SftpDownload.on_task_download.
  apply respects_bind; [exact _ | apply respects_dependency_check; exact _ |].
  intros _.
  apply (respects_for_groupby R _ _ _ _ (fun _ _ => True) (fun _ _ => True));
    try (intros; exact I).
  - intros e. unfold SftpDownload.get_sftp_config. respects_tac.
  - intros [conf|]; respects_tac.
  - intros _ [[[s|] msg]|] x _ _.
    + now apply respects_download_entry_when.
    + respects_tac.
    + respects_tac.
  - intros [[[s|] msg]|]; respects_tac.
Qed.
End Download.

Section Upload.
Context `{!IgnoresRemote R}.

Lemma respects_handle_entry_when entry s config prefix :
  (cfg_delete_origin config = true -> IgnoresLocal R) ->
  respects R (SftpUpload.handle_entry entry s config prefix).
Proof.
  intros Hdel. unfold SftpUpload.handle_entry.
  destruct (cfg_delete_origin config).
  - pose proof (Hdel eq_refl). respects_tac.
  - respects_off.
Qed.

Lemma respects_on_task_output_when `{!AdmitsOpen R} `{!AdmitsUpdate R}
    accepted config :
  (cfg_delete_origin config = true -> IgnoresLocal R) ->
  respects R (SftpUpload.on_task_output accepted config).
Proof.
  intros Hdel. unfold SftpUpload.on_task_output. cbv zeta.
  unfold SftpUpload.prepare_config.
  apply respects_bind;
    [exact _ | apply respects_sftp_from_config_open; exact _ |].
  intros sftp. apply respects_bind; [exact _ | |].
  { apply respects_lift_res; preorder. }
  intros prefix. apply respects_for_each; preorder. intros entry.
  destruct sftp as [s|].
  - apply respects_bind; [exact _ | apply respects_logger; exact _ |].
    intros _. now apply respects_handle_entry_when.
  - respects_tac.
Qed.
End Upload.
End HandlerFrames.

Section ReadOnly.
Context `{Platform}.

(** X4: [on_task_input] only reads.  However it ends, with a list of
    entries or with an exception, no file or directory on any server and
    no local file has changed, and no entry was failed. *)
Theorem on_task_input_read_only depth config w r w' :
  SftpList.on_task_input depth config w = (r, w') ->
  remote w' = remote w /\ local w' = local w /\ failed w' = failed w.
Proof.
  intros E. repeat split.
  - apply (respects_on_task_input (keeps remote) depth config _ _ _ E).
  - apply (respects_on_task_input (keeps local) depth config _ _ _ E).
  - apply (respects_on_task_input (keeps failed) depth config _ _ _ E).
Qed.

(** X5: with [delete_origin] off, [on_task_download] changes nothing on
    any server, however it ends: no remote file or directory is removed
    or created. *)
Theorem on_task_download_keeps_origin depth accepted config w r w' :
  cfg_delete_origin config = false ->
  SftpDownload.on_task_download depth accepted config w = (r, w') ->
  remote w' = remote w.
Proof.
  intros Hdel E.
  apply (respects_on_task_download_when (keeps remote) depth accepted config)
    in E; [exact E|].
  intros Hon. congruence.
Qed.

(** X6: with [delete_origin] off, [on_task_output] leaves every local
    file as it was, however it ends. *)
Theorem on_task_output_keeps_source accepted config w r w' :
  cfg_delete_origin config = false ->
  SftpUpload.on_task_output accepted config w = (r, w') ->
  local w' = local w.
Proof.
  intros Hdel E.
  apply (respects_on_task_output_when (keeps local) accepted config)
    in E; [exact E|].
  intros Hon. congruence.
Qed.

(** X7: [on_task_output] never closes a connection.  However it ends,
    every session that was open before the call is still open, and so is
    every session opened during the call. *)
Theorem on_task_output_never_closes accepted config w r w' :
  SftpUpload.on_task_output accepted config w = (r, w') ->
  stays_open w w'.
Proof.
  intros E.
  apply (respects_on_task_output_when stays_open accepted config) in E;
    [exact E|].
  intros _. exact _.
Qed.

(** X8: without [pysftp], [on_task_input] and [on_task_download] raise
    the dependency error before they do anything else: nothing is logged,
    no connection is attempted and the world is as it was. *)
Theorem dependency_check_first depth accepted config w :
  has_pysftp w = false ->
  SftpList.on_task_input depth config w = (inl dependency_error, w)
  /\ SftpDownload.on_task_download depth accepted config w
     = (inl dependency_error, w).
Proof.
  intros Hpy.
  unfold SftpList.on_task_input, SftpDownload.on_task_download.
  unfold bind, dependency_check, bind, get_world. rewrite Hpy.
  split; reflexivity.
Qed.

End ReadOnly.

Lemma on_task_input_read_only_witness :
  remote (snd (SftpList.on_task_input 5 Scenes.list_data Scenes.served))
  = remote Scenes.served
  /\ local (snd (SftpList.on_task_input 5 Scenes.list_data Scenes.served))
     = local Scenes.served
  /\ failed (snd (SftpList.on_task_input 5 Scenes.list_data Scenes.served))
     = failed Scenes.served.
Proof.
  apply (on_task_input_read_only 5 Scenes.list_data Scenes.served
           (fst (SftpList.on_task_input 5 Scenes.list_data Scenes.served))
           (snd (SftpList.on_task_input 5 Scenes.list_data Scenes.served))).
  vm_compute. reflexivity.
Defined.

Lemma on_task_download_keeps_origin_witness :
  remote (snd (SftpDownload.on_task_download 5 [Scenes.present]
                 Scenes.to_dl Scenes.served))
  = remote Scenes.served.
Proof.
  apply (on_task_download_keeps_origin 5 [Scenes.present] Scenes.to_dl
           Scenes.served
           (fst (SftpDownload.on_task_download 5 [Scenes.present]
                   Scenes.to_dl Scenes.served))
           (snd (SftpDownload.on_task_download 5 [Scenes.present]
                   Scenes.to_dl Scenes.served))).
  - reflexivity.
  - vm_compute. reflexivity.
Defined.

Lemma on_task_output_keeps_source_witness :
  local (snd (SftpUpload.on_task_output [Scenes.report] Scenes.to_incoming
                Scenes.uploading))
  = local Scenes.uploading.
Proof.
  apply (on_task_output_keeps_source [Scenes.report] Scenes.to_incoming
           Scenes.uploading
           (fst (SftpUpload.on_task_output [Scenes.report]
                   Scenes.to_incoming Scenes.uploading))
           (snd (SftpUpload.on_task_output [Scenes.report]
                   Scenes.to_incoming Scenes.uploading))).
  - reflexivity.
  - vm_compute. reflexivity.
Defined.

Lemma on_task_output_never_closes_witness :
  stays_open Scenes.uploading
    (snd (SftpUpload.on_task_output [Scenes.report] Scenes.to_incoming
            Scenes.uploading)).
Proof.
  apply (on_task_output_never_closes [Scenes.report] Scenes.to_incoming
           Scenes.uploading
           (fst (SftpUpload.on_task_output [Scenes.report]
                   Scenes.to_incoming Scenes.uploading))
           (snd (SftpUpload.on_task_output [Scenes.report]
                   Scenes.to_incoming Scenes.uploading))).
  vm_compute. reflexivity.
Defined.

Lemma dependency_check_first_witness :
  SftpList.on_task_input 5 Scenes.list_data Scenes.without_pysftp
  = (inl dependency_error, Scenes.without_pysftp)
  /\ SftpDownload.on_task_download 5 [Scenes.present] Scenes.to_dl
       Scenes.without_pysftp
     = (inl dependency_error, Scenes.without_pysftp).
Proof.
  apply (dependency_check_first 5 [Scenes.present] Scenes.list_data
           Scenes.without_pysftp).
  reflexivity.
Defined.

(** Without [pysftp] every attempt of the loop fails on the missing
    module, after the same waits. *)
Lemma sftp_connect_loop_no_pysftp tries : forall interval conf w,
  has_pysftp w = false ->
  exists w',
    sftp_connect_loop tries interval conf w = (inl no_pysftp, w')
    /\ trace w' = (trace w ++ map EvSleep (waits tries interval))%list
    /\ attempts w' = attempts w /\ requests w' = requests w
    /\ sessions w' = sessions w /\ remote w' = remote w
    /\ local w' = local w /\ failed w' = failed w.
Proof.
  induction tries as [|tries IH]; intros interval conf w Hpy;
    cbn [sftp_connect_loop]; unfold try_except, bind at 1;
    unfold pysftp_Connection; rewrite Hpy; cbn [negb any_exception].
  - eexists. split; [reflexivity|]. cbn. rewrite app_nil_r. tauto.
  - unfold bind at 1. rewrite logger_ok by reflexivity.
    unfold bind at 1. rewrite logger_ok by reflexivity.
    unfold bind at 1, time_sleep.
    match goal with
    | |- context [sftp_connect_loop tries ?i conf ?w1] =>
        destruct (IH i conf w1 Hpy) as (w' & E & Ht & Ha & Hr & Hs & Hm & Hl & Hf)
    end.
    exists w'. split; [exact E|].
    rewrite Ht, Ha, Hr, Hs, Hm, Hl, Hf. cbn.
    rewrite <- app_assoc. tauto.
Qed.

(** X9: [on_task_output] has no dependency check.  Without [pysftp] it
    goes through all four connection attempts, waits 15, 20 and 25
    seconds between them and then raises the plugin error for the host;
    no entry is uploaded or failed. *)
Theorem on_task_output_without_pysftp `{Platform} accepted config w :
  has_pysftp w = false ->
  exists w',
    SftpUpload.on_task_output accepted config w
    = (inl (mkExn PluginError
              (connect_error_message (cfg_host config) (exn_msg no_pysftp))),
       w')
    /\ sleeps (trace w') = (sleeps (trace w) ++ [15; 20; 25])%list
    /\ requests w' = requests w /\ sessions w' = sessions w
    /\ remote w' = remote w /\ local w' = local w
    /\ failed w' = failed w.
Proof.
  intros Hpy.
  destruct (sftp_connect_loop_no_pysftp CONNECT_TRIES RETRY_INTERVAL
              (conn_conf_of config) w Hpy)
    as (w' & E & Ht & Ha & Hr & Hs & Hm & Hl & Hf).
  exists w'. split.
  - unfold SftpUpload.on_task_output, SftpUpload.prepare_config. cbv zeta.
    unfold bind at 1. unfold sftp_from_config, try_except.
    fold (conn_conf_of config). unfold sftp_connect. rewrite E.
    reflexivity.
  - rewrite Ht, sleeps_app. cbn. tauto.
Qed.

Lemma on_task_output_without_pysftp_witness :
  exists w',
    SftpUpload.on_task_output [Scenes.report] Scenes.to_incoming
      Scenes.without_pysftp
    = (inl (mkExn PluginError
              (connect_error_message (cfg_host Scenes.to_incoming)
                 (exn_msg no_pysftp))),
       w')
    /\ sleeps (trace w')
       = (sleeps (trace Scenes.without_pysftp) ++ [15; 20; 25])%list
    /\ requests w' = requests Scenes.without_pysftp
    /\ sessions w' = sessions Scenes.without_pysftp
    /\ remote w' = remote Scenes.without_pysftp
    /\ local w' = local Scenes.without_pysftp
    /\ failed w' = failed Scenes.without_pysftp.
Proof.
  apply (on_task_output_without_pysftp [Scenes.report] Scenes.to_incoming
           Scenes.without_pysftp).
  reflexivity.
Defined.

(** ** Entries that cannot be handled *)

Section EdgeEntries.
Context `{Platform}.

(** X10: with no [to] in the configuration, [handle_entry] raises a
    [TypeError] for every entry that has a location, before it looks at
    the local file or sends a request; the entry is not failed. *)
Theorem handle_entry_without_to entry s config prefix l w :
  location entry = Some l ->
  cfg_to config = None ->
  SftpUpload.handle_entry entry s config prefix w
  = (inl (mkExn TypeError
            "expected str, bytes or os.PathLike object, not NoneType"), w).
Proof.
  intros Hl Hto. unfold SftpUpload.handle_entry. rewrite Hl, Hto.
  reflexivity.
Qed.

(** X11: an entry whose local file is gone is skipped with a warning:
    [handle_entry] returns normally, sends no request and does not fail
    the entry. *)
Theorem handle_entry_source_missing entry s config prefix l t w :
  location entry = Some l ->
  cfg_to config = Some t ->
  (t = "" \/ exists t', render_from_entry t entry = inr t') ->
  local w !! l = None ->
  SftpUpload.handle_entry entry s config prefix w
  = (inr tt,
     add_log (mkLogRecord WARNING "File no longer exists: {}" [l]) w).
Proof.
  intros Hl Hto Hrender Hgone. unfold SftpUpload.handle_entry.
  rewrite Hl, Hto. cbn [truthy_str str_opt].
  assert (Hexists : forall w0, local w0 = local w ->
            os_path_exists l w0 = (inr false, w0)).
  { intros w0 E. unfold os_path_exists. rewrite E, Hgone.
    rewrite bool_decide_eq_false_2; [reflexivity|].
    intros [x Hx]. discriminate Hx. }
  unfold bind at 1. cbn [ret].
  destruct Hrender as [-> | [t' Ht']].
  - cbn [String.eqb negb]. unfold bind at 1. cbn [ret].
    unfold bind at 1, lift_res. cbn [SftpUpload.join_to].
    unfold bind at 1. rewrite Hexists by reflexivity. cbn [negb].
    now rewrite logger_ok by reflexivity.
  - destruct (String.eqb t ""); cbn [negb].
    + unfold bind at 1. cbn [ret].
      unfold bind at 1, lift_res. cbn [SftpUpload.join_to].
      unfold bind at 1. rewrite Hexists by reflexivity. cbn [negb].
      now rewrite logger_ok by reflexivity.
    + unfold bind at 1, try_except, bind at 1, lift_res. rewrite Ht'.
      cbn [ret].
      unfold bind at 1. cbn [SftpUpload.join_to].
      unfold bind at 1. rewrite Hexists by reflexivity. cbn [negb].
      now rewrite logger_ok by reflexivity.
Qed.

(** X12: a destination template that cannot be rendered fails the entry
    with the message of the render error, in [download_entry] and in
    [handle_entry] alike; the call returns normally and has sent no
    request. *)
Theorem render_error_fails_entry depth entry s config prefix l t e w :
  cfg_to config = Some t ->
  t <> "" ->
  render_from_entry t entry = inl e ->
  exn_class e = RenderError ->
  location entry = Some l ->
  let w' :=
    add_failed entry (exn_msg e)
      (add_log (mkLogRecord ERROR "Could not render path: {}" [t]) w) in
  SftpDownload.download_entry depth entry config s w = (inr tt, w')
  /\ SftpUpload.handle_entry entry s config prefix w = (inr tt, w').
Proof.
  intros Hto Ht Hrender Hclass Hl w'.
  apply String.eqb_neq in Ht.
  split.
  - unfold SftpDownload.download_entry. cbv zeta. rewrite Hto.
    unfold bind at 1. cbn [ret]. rewrite Ht. cbn [negb].
    unfold bind at 1, try_except, bind at 1, lift_res. rewrite Hrender.
    unfold is_class. rewrite bool_decide_eq_true_2 by exact Hclass.
    unfold bind at 1. rewrite logger_ok by reflexivity.
    reflexivity.
  - unfold SftpUpload.handle_entry. rewrite Hl, Hto.
    unfold bind at 1. cbn [ret truthy_str str_opt]. rewrite Ht.
    cbn [negb].
    unfold bind at 1, try_except, bind at 1, lift_res. rewrite Hrender.
    unfold is_class. rewrite bool_decide_eq_true_2 by exact Hclass.
    unfold bind at 1. rewrite logger_ok by reflexivity.
    reflexivity.
Qed.

End EdgeEntries.

Lemma handle_entry_without_to_witness :
  SftpUpload.handle_entry Scenes.report Scenes.sftp0 Scenes.no_to
    "sftp://example.com/" Scenes.uploading
  = (inl (mkExn TypeError
            "expected str, bytes or os.PathLike object, not NoneType"),
     Scenes.uploading).
Proof.
  apply (handle_entry_without_to Scenes.report Scenes.sftp0 Scenes.no_to
           "sftp://example.com/" "/up/report.txt" Scenes.uploading).
  - reflexivity.
  - reflexivity.
Defined.

Lemma handle_entry_source_missing_witness :
  SftpUpload.handle_entry Scenes.report Scenes.sftp0 Scenes.to_incoming
    "sftp://example.com/" Scenes.connected
  = (inr tt,
     add_log (mkLogRecord WARNING "File no longer exists: {}"
                ["/up/report.txt"]) Scenes.connected).
Proof.
  apply (handle_entry_source_missing Scenes.report Scenes.sftp0
           Scenes.to_incoming "sftp://example.com/" "/up/report.txt"
           "/incoming" Scenes.connected).
  - reflexivity.
  - reflexivity.
  - right. exists "/incoming". reflexivity.
  - vm_compute. reflexivity.
Defined.

Lemma render_error_fails_entry_witness :
  let w' :=
    add_failed Scenes.report "'nope' is undefined"
      (add_log (mkLogRecord ERROR "Could not render path: {}"
                  ["/incoming/{{ nope }}"]) Scenes.uploading) in
  @SftpDownload.download_entry Scenes.strict_templates 5 Scenes.report
     Scenes.to_nope Scenes.sftp0 Scenes.uploading = (inr tt, w')
  /\ @SftpUpload.handle_entry Scenes.strict_templates Scenes.report
       Scenes.sftp0 Scenes.to_nope "sftp://example.com/" Scenes.uploading
     = (inr tt, w').
Proof.
  apply (@render_error_fails_entry Scenes.strict_templates 5 Scenes.report
           Scenes.sftp0 Scenes.to_nope "sftp://example.com/"
           "/up/report.txt" "/incoming/{{ nope }}"
           (mkExn RenderError "'nope' is undefined") Scenes.uploading).
  - reflexivity.
  - discriminate.
  - reflexivity.
  - reflexivity.
  - reflexivity.
Defined.

(** ** The connections of a download run *)

Section ForGroupbyReturns.
Context {St A K G : Type} `{EqDecision K}.
Variables (key : A -> M St K) (start : K -> M St G).
Variables (item : G -> A -> M St unit) (finish : G -> M St unit).
(** [Between] holds between two groups, [Within g] inside the group that
    runs with [g]. *)
Variables (Between : St -> Prop) (Within : G -> St -> Prop).

Hypothesis key_between :
  forall x s k s', Between s -> key x s = (inr k, s') -> Between s'.
Hypothesis key_within :
  forall g x s k s', Within g s -> key x s = (inr k, s') -> Within g s'.
Hypothesis start_within :
  forall k s g s', Between s -> start k s = (inr g, s') -> Within g s'.
Hypothesis item_within :
  forall g x s u s', Within g s -> item g x s = (inr u, s') -> Within g s'.
Hypothesis finish_between :
  forall g s u s', Within g s -> finish g s = (inr u, s') -> Between s'.


End ForGroupbyReturns.


Section DownloadSessions.
Context `{Platform}.
Variables (depth : nat) (config : Config).



End DownloadSessions.


(** ** Servers that cannot be reached *)

Lemma sftp_connect_loop_unreachable tries : forall interval conf w cause,
  all_refused cause w ->
  exists w',
    sftp_connect_loop tries interval conf w = (inl cause, w')
    /\ all_refused cause w'
    /\ requests w' = requests w /\ sessions w' = sessions w
    /\ remote w' = remote w /\ local w' = local w
    /\ failed w' = failed w.
Proof.
  induction tries as [|tries IH]; intros interval conf w cause [Hpy Hplan];
    cbn [sftp_connect_loop]; unfold try_except, bind at 1;
    unfold bind at 1; unfold pysftp_Connection;
    rewrite Hpy; cbn [negb]; rewrite Hplan; cbn [any_exception].
  - eexists. split; [reflexivity|]. cbn. repeat split; auto.
  - unfold bind at 1. rewrite logger_ok by reflexivity.
    unfold bind at 1. rewrite logger_ok by reflexivity.
    unfold bind at 1, time_sleep.
    match goal with
    | |- context [sftp_connect_loop tries ?i conf ?w1] =>
        destruct (IH i conf w1 cause)
          as (w' & E & Hall & Hr & Hs & Hm & Hl & Hf);
        [split; [exact Hpy | exact Hplan]|]
    end.
    exists w'. split; [exact E|]. rewrite Hr, Hs, Hm, Hl, Hf.
    cbn. repeat split; auto; apply Hall.
Qed.

Section Unreachable.
Context `{Platform}.
Variables (depth : nat) (config : Config) (cause : Exn).

(** The three parts of the loop body of [on_task_download]. *)
Let start (sftp_config : option ConnectionConfig)
    : M World SftpDownload.GroupState :=
  match sftp_config with
  | None => ret None
  | Some conf =>
      r <- try_except
             (sftp <- sftp_connect conf ;; ret (sftp, None))
             any_exception
             (fun e =>
                error_message <- lift_res
                  (percent_format "Failed to connect to %s (%s)"
                     [str_opt (conf_host conf); exn_msg e]) ;;
                logger ERROR error_message [] ;;;
                ret (None, Some error_message)) ;;
      ret (Some r)
  end.

Let item (g : SftpDownload.GroupState) (entry : Entry) : M World unit :=
  match g with
  | None => ret tt
  | Some (Some sftp, _) => SftpDownload.download_entry depth entry config sftp
  | Some (None, error_message) => entry_fail entry (str_opt error_message)
  end.

Let finish (g : SftpDownload.GroupState) : M World unit :=
  match g with
  | Some (Some sftp, _) => sftp_close sftp
  | _ => ret tt
  end.

(** What the loop holds inside a group of identity [k] when no
    connection could be made. *)
Let stranded (k : option ConnectionConfig) : SftpDownload.GroupState :=
  match k with
  | None => None
  | Some conf =>
      Some (None,
            Some (connect_error_message (str_opt (conf_host conf))
                    (exn_msg cause)))
  end.

(** What a step of the run leaves as it was. *)
Let calm (w w' : World) : Prop :=
  all_refused cause w'
  /\ requests w' = requests w /\ sessions w' = sessions w
  /\ remote w' = remote w /\ local w' = local w.

Lemma percent_format_connect_error host msg :
  percent_format "Failed to connect to %s (%s)" [host; msg]
  = inr (connect_error_message host msg).
Proof. reflexivity. Qed.

Lemma start_unreachable k w :
  all_refused cause w ->
  exists w',
    start k w = (inr (stranded k), w')
    /\ calm w w' /\ failed w' = failed w.
Proof.
  intros Hall. destruct k as [conf|]; cbn [start stranded].
  - destruct (sftp_connect_loop_unreachable CONNECT_TRIES RETRY_INTERVAL
                conf w cause Hall)
      as (w' & E & Hall' & Hr & Hs & Hm & Hl & Hf).
    unfold bind at 1, try_except, bind at 1, sftp_connect. rewrite E.
    cbn [any_exception]. unfold bind at 1, lift_res.
    rewrite percent_format_connect_error.
    unfold bind at 1. rewrite logger_ok by reflexivity.
    eexists. split; [reflexivity|]. unfold calm. cbn.
    repeat split; auto; apply Hall'.
  - exists w. unfold calm. repeat split; auto; apply Hall.
Qed.

Lemma key_unreachable entry w :
  port_readable entry ->
  all_refused cause w ->
  exists w',
    SftpDownload.get_sftp_config entry w = (inr (identity_of entry), w')
    /\ calm w w' /\ failed w' = failed w.
Proof.
  intros Hp Hall. rewrite (get_sftp_config_split entry Hp w).
  unfold scheme_warning, bind.
  destruct (String.eqb (pr_scheme (urlparse (url entry))) "sftp").
  - exists w. unfold calm. repeat split; auto; apply Hall.
  - rewrite logger_ok by reflexivity. eexists. split; [reflexivity|].
    unfold calm. cbn. repeat split; auto; apply Hall.
Qed.

Lemma item_unreachable entry w :
  item (stranded (identity_of entry)) entry w
  = (inr tt,
     match identity_of entry with
     | Some conf =>
         add_failed entry
           (connect_error_message (str_opt (conf_host conf))
              (exn_msg cause)) w
     | None => w
     end).
Proof. destruct (identity_of entry); reflexivity. Qed.

Lemma finish_unreachable k w : finish (stranded k) w = (inr tt, w).
Proof. destruct k; reflexivity. Qed.

Lemma for_groupby_from_unreachable rest : forall k w,
  Forall port_readable rest ->
  all_refused cause w ->
  exists w',
    for_groupby_from SftpDownload.get_sftp_config start item finish
      k (stranded k) rest w = (inr tt, w')
    /\ calm w w'
    /\ failed w' = (failed w ++ unreachable_failures cause rest)%list.
Proof.
  induction rest as [|x rest IH]; intros k w Hports Hall;
    cbn [for_groupby_from].
  - rewrite finish_unreachable. exists w. unfold calm. cbn.
    rewrite app_nil_r. repeat split; auto; apply Hall.
  - apply Forall_cons in Hports as [Hx Hports].
    destruct (key_unreachable x w Hx Hall)
      as (w1 & Ek & (Hall1 & Hr1 & Hs1 & Hm1 & Hl1) & Hf1).
    unfold bind at 1. rewrite Ek.
    assert (Hitem : forall w2, all_refused cause w2 ->
              exists w3,
                item (stranded (identity_of x)) x w2 = (inr tt, w3)
                /\ calm w2 w3
                /\ failed w3
                   = (failed w2 ++ unreachable_failures cause [x])%list).
    { intros w2 Hall2. rewrite item_unreachable.
      eexists. split; [reflexivity|].
      unfold unreachable_failures, calm. cbn [omap list_omap]. cbn beta.
      destruct (identity_of x); cbn; rewrite ?app_nil_r;
        repeat split; auto; apply Hall2. }
    assert (Hcons : unreachable_failures cause (x :: rest)
                    = (unreachable_failures cause [x]
                         ++ unreachable_failures cause rest)%list).
    { unfold unreachable_failures. cbn [omap list_omap]. cbn beta.
      destruct (identity_of x); reflexivity. }
    destruct (decide (identity_of x = k)) as [<-|N].
    + destruct (Hitem w1 Hall1)
        as (w2 & Ei & (Hall2 & Hr2 & Hs2 & Hm2 & Hl2) & Hf2).
      unfold bind at 1. rewrite Ei.
      destruct (IH (identity_of x) w2 Hports Hall2)
        as (w' & E & (Hall' & Hr & Hs & Hm & Hl) & Hf).
      exists w'. split; [exact E|]. unfold calm.
      rewrite Hr, Hs, Hm, Hl, Hf, Hr2, Hs2, Hm2, Hl2, Hf2, Hf1, Hcons.
      rewrite <- app_assoc. repeat split; auto; apply Hall'.
    + unfold bind at 1. rewrite finish_unreachable.
      destruct (start_unreachable (identity_of x) w1 Hall1)
        as (w2 & Es & (Hall2 & Hr2 & Hs2 & Hm2 & Hl2) & Hf2).
      unfold bind at 1. rewrite Es.
      destruct (Hitem w2 Hall2)
        as (w3 & Ei & (Hall3 & Hr3 & Hs3 & Hm3 & Hl3) & Hf3).
      unfold bind at 1. rewrite Ei.
      destruct (IH (identity_of x) w3 Hports Hall3)
        as (w' & E & (Hall' & Hr & Hs & Hm & Hl) & Hf).
      exists w'. split; [exact E|]. unfold calm.
      rewrite Hr, Hs, Hm, Hl, Hf, Hr3, Hs3, Hm3, Hl3, Hf3,
        Hr2, Hs2, Hm2, Hl2, Hf2, Hf1, Hcons.
      rewrite <- app_assoc. repeat split; auto; apply Hall'.
Qed.

(** X14: when no server can be reached, [on_task_download] still returns
    normally.  It fails every entry that has a connection identity, in
    input order, with the message that names the entry's host and the
    cause, and nothing else: no session is opened, no request is sent and
    no file changes on either side. *)
Theorem on_task_download_unreachable accepted w :
  Forall port_readable accepted ->
  all_refused cause w ->
  exists w',
    SftpDownload.on_task_download depth accepted config w = (inr tt, w')
    /\ failed w' = (failed w ++ unreachable_failures cause accepted)%list
    /\ requests w' = requests w /\ sessions w' = sessions w
    /\ remote w' = remote w /\ local w' = local w.
Proof.
  intros Hports Hall.
  change (SftpDownload.on_task_download depth accepted config)
    with (dependency_check ;;;
          for_groupby SftpDownload.get_sftp_config start item finish
            accepted).
  unfold bind at 1, dependency_check, bind at 1, get_world.
  rewrite (proj1 Hall). cbn [negb ret].
  destruct accepted as [|x rest]; cbn [for_groupby].
  - exists w. cbn. rewrite app_nil_r. repeat split; auto.
  - apply Forall_cons in Hports as [Hx Hports].
    destruct (key_unreachable x w Hx Hall)
      as (w1 & Ek & (Hall1 & Hr1 & Hs1 & Hm1 & Hl1) & Hf1).
    unfold bind at 1. rewrite Ek.
    destruct (start_unreachable (identity_of x) w1 Hall1)
      as (w2 & Es & (Hall2 & Hr2 & Hs2 & Hm2 & Hl2) & Hf2).
    unfold bind at 1. rewrite Es.
    unfold bind at 1. rewrite item_unreachable.
    match goal with
    | |- context [for_groupby_from _ _ _ _ _ _ rest ?w3] =>
        destruct (for_groupby_from_unreachable rest (identity_of x) w3
                    Hports)
          as (w' & E & (Hall' & Hr & Hs & Hm & Hl) & Hf)
    end.
    { destruct (identity_of x); [|exact Hall2].
      split; [apply Hall2 | intros n; apply Hall2]. }
    exists w'. split; [exact E|].
    rewrite Hf, Hr, Hs, Hm, Hl.
    unfold unreachable_failures. cbn [omap list_omap]. cbn beta.
    destruct (identity_of x); cbn;
      rewrite ?Hr2, ?Hs2, ?Hm2, ?Hl2, ?Hf2, ?Hr1, ?Hs1, ?Hm1, ?Hl1, ?Hf1,
        <- ?app_assoc;
      repeat split; auto.
Qed.
End Unreachable.

Lemma on_task_download_unreachable_witness :
  exists w',
    SftpDownload.on_task_download 5 [Scenes.a1; Scenes.on_web; Scenes.b1]
      Scenes.to_dl Scenes.unreachable = (inr tt, w')
    /\ failed w'
       = (failed Scenes.unreachable
            ++ unreachable_failures Demo.refused
                 [Scenes.a1; Scenes.on_web; Scenes.b1])%list
    /\ requests w' = requests Scenes.unreachable
    /\ sessions w' = sessions Scenes.unreachable
    /\ remote w' = remote Scenes.unreachable
    /\ local w' = local Scenes.unreachable.
Proof.
  apply (on_task_download_unreachable 5 Scenes.to_dl Demo.refused
           [Scenes.a1; Scenes.on_web; Scenes.b1] Scenes.unreachable).
  - repeat constructor; eexists; vm_compute; reflexivity.
  - split; [reflexivity | intros n; reflexivity].
Defined.

(** The failures of that run: the entry on the web is not among them. *)
Example unreachable_failures_example :
  unreachable_failures Demo.refused [Scenes.a1; Scenes.on_web; Scenes.b1]
  = [(Scenes.a1, "Failed to connect to a.example (Unable to connect)");
     (Scenes.b1, "Failed to connect to b.example (Unable to connect)")].
Proof. vm_compute. reflexivity. Qed.

(** ** Paths *)

Lemma no_slash_cut b : no_slash b = true -> posixpath.cut_last_slash b = None.
Proof.
  induction b as [|c b IH]; [reflexivity|]. cbn [no_slash].
  intros Hb. apply andb_true_iff in Hb as [Hc Hb].
  cbn [posixpath.cut_last_slash]. rewrite (IH Hb).
  apply negb_true_iff in Hc. now rewrite Hc.
Qed.

Lemma cut_last_slash_app a b :
  no_slash b = true ->
  posixpath.cut_last_slash (a +:+ b)
  = match posixpath.cut_last_slash a with
    | Some (h, t) => Some (h, t +:+ b)
    | None => None
    end.
Proof.
  intros Hb. induction a as [|c a IH]; simpl.
  - now apply no_slash_cut.
  - rewrite IH. destruct (posixpath.cut_last_slash a) as [[h t]|];
      [reflexivity|]. destruct (posixpath.is_slash c); reflexivity.
Qed.

Lemma endswith_slash_cut a :
  posixpath.endswith_slash a = true ->
  posixpath.cut_last_slash a = Some (a, "").
Proof.
  induction a as [|c a IH]; [discriminate|].
  cbn [posixpath.endswith_slash posixpath.cut_last_slash].
  destruct a as [|d a].
  - intros ->. reflexivity.
  - intros Ha. now rewrite (IH Ha).
Qed.

Lemma cut_last_slash_sep a b :
  no_slash b = true ->
  posixpath.cut_last_slash (a +:+ "/" +:+ b) = Some (a +:+ "/", b).
Proof.
  intros Hb. induction a as [|c a IH].
  - change (posixpath.cut_last_slash (String "/" b) = Some ("/", b)).
    cbn [posixpath.cut_last_slash]. now rewrite (no_slash_cut _ Hb).
  - change (posixpath.cut_last_slash (String c (a +:+ "/" +:+ b))
            = Some (String c (a +:+ "/"), b)).
    cbn [posixpath.cut_last_slash]. now rewrite IH.
Qed.

Lemma no_slash_start b :
  no_slash b = true -> posixpath.startswith_slash b = false.
Proof.
  destruct b as [|c b]; [reflexivity|]. cbn.
  intros Hb. apply andb_true_iff in Hb as [Hc _].
  now apply negb_true_iff in Hc.
Qed.

(** Joining a name to a directory and taking the base name gives the
    name back, for every name without a slash. *)
Lemma basename_join parent name :
  no_slash name = true ->
  posixpath.basename (posixpath.join parent name) = name.
Proof.
  intros Hn. unfold posixpath.join, posixpath.basename.
  rewrite (no_slash_start _ Hn).
  destruct (String.eqb_spec parent "") as [->|Hp]; cbn [orb].
  - change ("" +:+ name) with name. now rewrite (no_slash_cut _ Hn).
  - destruct (posixpath.endswith_slash parent) eqn:He.
    + rewrite (cut_last_slash_app _ _ Hn), (endswith_slash_cut _ He).
      reflexivity.
    + now rewrite (cut_last_slash_sep _ _ Hn).
Qed.

(** ** What a listing yields *)

Lemma calm_add_log sftp ss fs r w :
  calm sftp ss fs w -> calm sftp ss fs (add_log r w).
Proof. intros (Hs & Hf & Hfs). repeat split; assumption. Qed.

Section ListWalk.
Context `{Platform}.
Variables (sftp : Session) (ss : SessionState) (fs : gmap string rnode).
Hypothesis live : ss_live ss = true.
Variables (depth0 : nat) (prefix : string) (files_only get_size : bool).
Variables (private_key private_key_pass : option string).

#[local] Abbreviation calm := (calm sftp ss fs).
#[local] Abbreviation tick := (tick sftp).

Let hf := SftpList.handle_file (Some sftp) prefix files_only get_size
            private_key private_key_pass.
Let hd := SftpList.handle_dir depth0 (Some sftp) prefix files_only get_size
            private_key private_key_pass.
Let hu := SftpList.handle_unknown.

(** In a calm world [handle_node] reports the node under its base name,
    unless it is a directory and only files are wanted. *)
Lemma handle_node_calm path size_handler is_dir acc w :
  calm w ->
  (get_size = true ->
   forall w0, calm w0 ->
     exists sz w1, size_handler path w0 = (inr sz, w1) /\ calm w1) ->
  exists new w',
    SftpList.handle_node (Some sftp) prefix files_only get_size private_key
      private_key_pass path size_handler is_dir (acc, w)
    = (inr tt, ((acc ++ new)%list, w'))
    /\ map title new
       = (if is_dir && files_only then [] else [posixpath.basename path])
    /\ calm w'.
Proof.
  intros Hc Hsize. unfold SftpList.handle_node.
  destruct (is_dir && files_only).
  { exists [], w. rewrite app_nil_r. auto. }
  unfold bind at 1, liftW at 1, on_sftp at 1, sftp_normalize.
  cbn [snd fst]. unfold bind at 1.
  rewrite (request_calm sftp ss fs live _ _ Hc). unfold ret at 1.
  pose proof (calm_tick sftp ss fs (CNormalize path) w Hc) as Hc1.
  destruct get_size.
  - destruct (Hsize eq_refl _ Hc1) as (sz & w1 & E & Hc2).
    unfold bind at 1. unfold bind at 1, liftW at 1, try_except.
    cbn [snd fst]. rewrite E. unfold ret, append_captured. cbn [snd fst].
    eexists [_], w1. split; [reflexivity|]. split; [|exact Hc2].
    destruct (truthy_str private_key); [|reflexivity].
    destruct (truthy_str private_key_pass); reflexivity.
  - unfold bind at 1. unfold ret, append_captured. cbn [snd fst].
    eexists [_], _. split; [reflexivity|]. split; [|exact Hc1].
    destruct (truthy_str private_key); [|reflexivity].
    destruct (truthy_str private_key_pass); reflexivity.
Qed.

Lemma file_size_calm path node w :
  calm w -> fs !! adjust_cwd (ss_cwd ss) path = Some node ->
  exists sz w1,
    SftpList.file_size (Some sftp) path w = (inr sz, w1) /\ calm w1.
Proof.
  intros Hc Hn. unfold SftpList.file_size, on_sftp, bind.
  rewrite (sftp_lstat_calm sftp ss fs live _ _ _ Hc Hn).
  eexists _, _. split; [reflexivity|].
  now apply (calm_tick sftp ss fs).
Qed.

(** The body of the loop of [walktree] over the children of [parent]. *)
Let visit (recurse : bool) (depth : nat) (parent entry : string)
    : M (list Entry * World) unit :=
  let pathname := posixpath.join parent entry in
  a <- liftW (sftp_stat sftp pathname) ;;
  match st_mode a with
  | S_IFDIR =>
      hd pathname ;;;
      if recurse then walktree depth sftp pathname hf hd hu true
      else ret tt
  | S_IFREG => hf pathname
  | S_IFOTHER => hu pathname
  end.

Lemma list_walk_unfold recurse depth path :
  walktree (S depth) sftp path hf hd hu recurse
  = (names <- liftW (sftp_listdir sftp path) ;;
     for_each names (visit recurse depth path)).
Proof. reflexivity. Qed.

(** What visiting the child [c] of [parent] yields. *)
Let visits (recurse : bool) (c : rtree) : Prop :=
  forall depth parent acc w,
    calm w ->
    shaped fs (ss_cwd ss) (posixpath.join parent (node_name c)) c = true ->
    slash_free c = true ->
    (recurse = true -> (need c <= depth)%nat) ->
    (get_size = true -> (need c <= depth0)%nat) ->
    exists new w',
      visit recurse depth parent (node_name c) (acc, w)
      = (inr tt, ((acc ++ new)%list, w'))
      /\ map title new
         = (if recurse then listed files_only c
            else listed_flat files_only c)
      /\ calm w'.

Lemma for_each_list_visits recurse children : forall depth path acc w,
  Forall (visits recurse) children ->
  calm w ->
  forallb (fun c => shaped fs (ss_cwd ss)
                      (posixpath.join path (node_name c)) c) children = true ->
  forallb slash_free children = true ->
  (recurse = true ->
   (fold_right Nat.max 0%nat (map need children) <= depth)%nat) ->
  (get_size = true ->
   (fold_right Nat.max 0%nat (map need children) <= depth0)%nat) ->
  exists new w',
    for_each (map node_name children) (visit recurse depth path) (acc, w)
    = (inr tt, ((acc ++ new)%list, w'))
    /\ map title new
       = flat_map (if recurse then listed files_only
                   else listed_flat files_only) children
    /\ calm w'.
Proof.
  induction children as [|c children IH];
    intros depth path acc w Hv Hc Hs Hsf Hn Hn0.
  - exists [], w. cbn. rewrite app_nil_r. auto.
  - apply Forall_cons in Hv as [Hvc Hv].
    cbn [forallb] in Hs, Hsf.
    apply andb_true_iff in Hs as [Hsc Hs].
    apply andb_true_iff in Hsf as [Hsfc Hsf].
    cbn [map fold_right] in Hn, Hn0.
    destruct (Hvc depth path acc w Hc Hsc Hsfc)
      as (new1 & w1 & E1 & Ht1 & Hc1).
    { intros Hr. specialize (Hn Hr). lia. }
    { intros Hg. specialize (Hn0 Hg). lia. }
    destruct (IH depth path (acc ++ new1)%list w1 Hv Hc1 Hs Hsf)
      as (new2 & w2 & E2 & Ht2 & Hc2).
    { intros Hr. specialize (Hn Hr). lia. }
    { intros Hg. specialize (Hn0 Hg). lia. }
    exists (new1 ++ new2)%list, w2. split; [|split; [|exact Hc2]].
    + cbn [map for_each]. unfold bind at 1. rewrite E1, E2.
      now rewrite <- app_assoc.
    + cbn [flat_map]. rewrite map_app, Ht1, Ht2.
      now destruct recurse.
Qed.

Lemma list_walk_calm recurse depth path n sz children acc w :
  Forall (visits recurse) children ->
  calm w ->
  shaped fs (ss_cwd ss) path (T_dir n sz children) = true ->
  forallb slash_free children = true ->
  (0 < depth)%nat ->
  (recurse = true -> (need (T_dir n sz children) <= depth)%nat) ->
  (get_size = true -> (need (T_dir n sz children) <= S depth0)%nat) ->
  exists new w',
    walktree depth sftp path hf hd hu recurse (acc, w)
    = (inr tt, ((acc ++ new)%list, w'))
    /\ map title new = listing files_only recurse (T_dir n sz children)
    /\ calm w'.
Proof.
  intros Hv Hc Hs Hsf Hd Hn Hn0. cbn [need] in Hn, Hn0.
  destruct depth as [|depth]; [lia|].
  cbn [shaped] in Hs.
  destruct (fs !! adjust_cwd (ss_cwd ss) path) as [[?|s names|?]|] eqn:Hp;
    try discriminate Hs.
  apply andb_true_iff in Hs as [Hs Hch].
  apply andb_true_iff in Hs as [_ Hnames].
  apply bool_decide_eq_true_1 in Hnames.
  rewrite list_walk_unfold. unfold bind at 1, liftW at 1. cbn [snd fst].
  rewrite (sftp_listdir_calm sftp ss fs live _ _ _ _ Hc Hp). rewrite Hnames.
  apply for_each_list_visits; auto using calm_tick.
  - intros Hr. specialize (Hn Hr). lia.
  - intros Hg. specialize (Hn0 Hg). lia.
Qed.

Lemma visits_file recurse n s : visits recurse (T_file n s).
Proof.
  intros depth parent acc w Hc Hs Hsf _ _. cbn [node_name] in *.
  cbn [shaped] in Hs.
  destruct (fs !! _) as [[content| |]|] eqn:Hp; try discriminate Hs.
  unfold visit, bind at 1, liftW at 1. cbn [snd fst].
  rewrite (sftp_stat_calm sftp ss fs live _ _ _ Hc Hp).
  cbn [attrs_of st_mode]. unfold hf, SftpList.handle_file.
  destruct (handle_node_calm (posixpath.join parent n)
              (SftpList.file_size (Some sftp)) false acc
              (tick (CStat (posixpath.join parent n)) w))
    as (new & w' & E & Ht & Hc');
    [now apply (calm_tick sftp ss fs) | |].
  { intros _ w0 Hc0. eapply file_size_calm; eauto. }
  exists new, w'. split; [exact E|]. split; [|exact Hc'].
  rewrite Ht. cbn [andb slash_free node_name] in *.
  apply andb_true_iff in Hsf as [Hsf _].
  rewrite (basename_join _ _ Hsf). now destruct recurse.
Qed.

Lemma visits_other recurse n s : visits recurse (T_other n s).
Proof.
  intros depth parent acc w Hc Hs Hsf _ _. cbn [node_name] in *.
  cbn [shaped] in Hs.
  destruct (fs !! _) as [[?| |s0]|] eqn:Hp; try discriminate Hs.
  unfold visit, bind at 1, liftW at 1. cbn [snd fst].
  rewrite (sftp_stat_calm sftp ss fs live _ _ _ Hc Hp).
  cbn [attrs_of st_mode]. unfold hu, SftpList.handle_unknown, liftW.
  cbn [snd fst]. rewrite logger_ok by reflexivity.
  exists []. eexists. rewrite app_nil_r. split; [reflexivity|].
  split; [now destruct recurse|].
  apply calm_add_log. now apply (calm_tick sftp ss fs).
Qed.

(** The directory [c] itself, before the walk enters it. *)
Lemma handle_dir_calm parent n s children acc w :
  calm w ->
  shaped fs (ss_cwd ss) (posixpath.join parent n) (T_dir n s children)
  = true ->
  no_slash n = true ->
  (get_size = true -> (need (T_dir n s children) <= depth0)%nat) ->
  exists new w',
    hd (posixpath.join parent n) (acc, w)
    = (inr tt, ((acc ++ new)%list, w'))
    /\ map title new = (if files_only then [] else [n])
    /\ calm w'.
Proof.
  intros Hc Hs Hsf Hn0. unfold hd, SftpList.handle_dir.
  destruct (handle_node_calm (posixpath.join parent n)
              (SftpList.dir_size depth0 (Some sftp)) true acc w Hc)
    as (new & w' & E & Ht & Hc').
  { intros Hg w0 Hc0.
    destruct (dir_size_below sftp ss fs live depth0 _ n s children w0 Hc0 Hs
                (Hn0 Hg)) as (w1 & E & Hc1).
    eauto. }
  exists new, w'. split; [exact E|]. split; [|exact Hc'].
  rewrite Ht. cbn [andb]. now rewrite (basename_join _ _ Hsf).
Qed.

Lemma visits_deep t : visits true t.
Proof.
  induction t as [n s|n s children IH|n s] using rtree_ind.
  - apply visits_file.
  - intros depth parent acc w Hc Hs Hsf Hn Hn0. cbn [node_name] in *.
    cbn [slash_free node_name] in Hsf.
    apply andb_true_iff in Hsf as [Hname Hsf].
    pose proof Hs as Hs'. cbn [shaped] in Hs'.
    destruct (fs !! _) as [[?|s0 names|?]|] eqn:Hp; try discriminate Hs'.
    clear Hs'.
    unfold visit, bind at 1, liftW at 1. cbn [snd fst].
    rewrite (sftp_stat_calm sftp ss fs live _ _ _ Hc Hp).
    cbn [attrs_of st_mode].
    destruct (handle_dir_calm parent n s children acc
                (tick (CStat (posixpath.join parent n)) w))
      as (new1 & w1 & E1 & Ht1 & Hc1); auto using calm_tick.
    unfold bind at 1. rewrite E1.
    specialize (Hn eq_refl).
    destruct (list_walk_calm true depth (posixpath.join parent n) n s
                children (acc ++ new1)%list w1)
      as (new2 & w2 & E2 & Ht2 & Hc2); auto;
      try solve [cbn [need] in Hn; lia
                | intros Hg; specialize (Hn0 Hg); lia].
    exists (new1 ++ new2)%list, w2. split; [|split; [|exact Hc2]].
    + rewrite E2. now rewrite <- app_assoc.
    + rewrite map_app, Ht1, Ht2. reflexivity.
  - apply visits_other.
Qed.

Lemma visits_flat t : visits false t.
Proof.
  destruct t as [n s|n s children|n s].
  - apply visits_file.
  - intros depth parent acc w Hc Hs Hsf _ Hn0. cbn [node_name] in *.
    cbn [slash_free node_name] in Hsf.
    apply andb_true_iff in Hsf as [Hname Hsf].
    pose proof Hs as Hs'. cbn [shaped] in Hs'.
    destruct (fs !! _) as [[?|s0 names|?]|] eqn:Hp; try discriminate Hs'.
    clear Hs'.
    unfold visit, bind at 1, liftW at 1. cbn [snd fst].
    rewrite (sftp_stat_calm sftp ss fs live _ _ _ Hc Hp).
    cbn [attrs_of st_mode].
    destruct (handle_dir_calm parent n s children acc
                (tick (CStat (posixpath.join parent n)) w))
      as (new1 & w1 & E1 & Ht1 & Hc1); auto using calm_tick.
    unfold bind at 1. rewrite E1. unfold ret.
    exists new1, w1. auto.
  - apply visits_other.
Qed.

(** The walk in full: every child of the directory is visited. *)
Lemma list_walk_entries recursive depth path n sz children acc w :
  calm w ->
  shaped fs (ss_cwd ss) path (T_dir n sz children) = true ->
  forallb slash_free children = true ->
  (0 < depth)%nat ->
  (recursive = true -> (need (T_dir n sz children) <= depth)%nat) ->
  (get_size = true -> (need (T_dir n sz children) <= S depth0)%nat) ->
  exists new w',
    walktree depth sftp path hf hd hu recursive (acc, w)
    = (inr tt, ((acc ++ new)%list, w'))
    /\ map title new = listing files_only recursive (T_dir n sz children)
    /\ calm w'.
Proof.
  intros Hc Hs Hsf Hd Hn Hn0.
  apply list_walk_calm; auto.
  apply Forall_forall. intros c _.
  destruct recursive; [apply visits_deep | apply visits_flat].
Qed.

(** X15: the walk of [on_task_input] over a directory on a server that
    answers every request.  It reports the files below the directory
    under their names, in the order of the sorted listings, each
    directory before what it holds; directories are left out when
    [files_only] is set, nodes that are neither file nor directory are
    always left out, and without [recursive] only the directory's own
    children are reported. *)
Theorem list_walk_titles recursive depth path n sz children acc w :
  calm w ->
  shaped fs (ss_cwd ss) path (T_dir n sz children) = true ->
  forallb slash_free children = true ->
  (0 < depth)%nat ->
  (recursive = true -> (need (T_dir n sz children) <= depth)%nat) ->
  (get_size = true -> (need (T_dir n sz children) <= S depth0)%nat) ->
  exists new w',
    walktree depth sftp path
      (SftpList.handle_file (Some sftp) prefix files_only get_size
         private_key private_key_pass)
      (SftpList.handle_dir depth0 (Some sftp) prefix files_only get_size
         private_key private_key_pass)
      SftpList.handle_unknown recursive (acc, w)
    = (inr tt, ((acc ++ new)%list, w'))
    /\ map title new = listing files_only recursive (T_dir n sz children)
    /\ calm w'.
Proof.
  intros Hc Hs Hsf Hd Hn Hn0.
  apply list_walk_calm; auto.
  apply Forall_forall. intros c _.
  destruct recursive; [apply visits_deep | apply visits_flat].
Qed.
End ListWalk.

#[global] Instance keeps_fault_plan_quiet : Quiet (keeps fault_plan).
Proof. split; [exact _ | reflexivity ..]. Qed.
#[global] Instance keeps_fault_plan_sessions
  : IgnoresSessions (keeps fault_plan).
Proof. intros r w. reflexivity. Qed.

Section ListRun.
Context `{Platform}.

(** X16: [on_task_input] on a server that accepts the connection and
    answers every request, for one root directory.  It returns one entry
    for each name of the listing of the root, in that order, closes the
    session it opened and changes nothing on the server. *)
Theorem on_task_input_lists depth config path fs n sz children w :
  has_pysftp w = true ->
  conn_plan w (attempts w) = None ->
  (forall k, fault_plan w k = None) ->
  remote w !! cfg_host config = Some fs ->
  cfg_dirs config = Some (One path) ->
  shaped fs None path (T_dir n sz children) = true ->
  forallb slash_free children = true ->
  (need (T_dir n sz children) <= depth)%nat ->
  exists entries w',
    SftpList.on_task_input depth config w = (inr entries, w')
    /\ map title entries
       = listing (cfg_files_only config) (cfg_recursive config)
           (T_dir n sz children)
    /\ sessions w'
       = (sessions w
            ++ [mkSessionState (conn_conf_of config) None
                  (Some SOCKET_TIMEOUT) false])%list
    /\ remote w' = remote w.
Proof.
  intros Hpy Hconn Hfault Hfs Hdirs Hshape Hsf Hneed.
  cut (exists entries w',
         SftpList.on_task_input depth config w = (inr entries, w')
         /\ map title entries
            = listing (cfg_files_only config) (cfg_recursive config)
                (T_dir n sz children)
         /\ sessions w'
            = (sessions w
                 ++ [mkSessionState (conn_conf_of config) None
                       (Some SOCKET_TIMEOUT) false])%list).
  { intros (entries & w' & E & Ht & Hs). exists entries, w'.
    repeat split; auto.
    apply (respects_on_task_input (keeps remote) depth config _ _ _ E). }
  unfold SftpList.on_task_input. cbv zeta.
  unfold bind at 1.
  unfold dependency_check, bind at 1, get_world.
  rewrite Hpy. cbn [negb ret].
  unfold bind at 1. rewrite logger_ok by reflexivity.
  set (w0 := add_log _ w).
  (* the connection *)
  destruct (sftp_connect_loop_recovers 0 CONNECT_TRIES RETRY_INTERVAL
              (conn_conf_of config) w0 (fun _ => no_pysftp))
    as (w1 & Ec & _ & _);
    [unfold CONNECT_TRIES; lia | exact Hpy | | exact Hconn |].
  { intros k Hk. lia. }
  assert (Efrom : sftp_from_config (SftpList.prepare_config config) w0
                  = (inr (Some (length (sessions w))), w1)).
  { unfold sftp_from_config, try_except. cbn [cfg_host cfg_port cfg_username
      cfg_password cfg_private_key cfg_private_key_pass
      SftpList.prepare_config]. fold (conn_conf_of config).
    unfold sftp_connect. now rewrite Ec. }
  pose proof (sftp_connect_loop_sessions _ _ _ _ _ _ Ec) as [_ Hsess].
  cbn [sessions add_log w0] in Hsess.
  pose proof (respects_sftp_connect (keeps remote) _ _ _ _ Ec) as Hrem1.
  pose proof (respects_sftp_connect (keeps fault_plan) _ _ _ _ Ec) as Hfp1.
  unfold keeps in Hrem1, Hfp1.
  cbn [remote fault_plan add_log w0] in Hrem1, Hfp1.
  unfold bind at 1. rewrite Efrom.
  set (sftp := length (sessions w)) in *.
  set (ss := mkSessionState (conn_conf_of config) None (Some SOCKET_TIMEOUT)
               true) in *.
  assert (Hcalm : calm sftp ss fs w1).
  { repeat split.
    - rewrite Hsess. rewrite lookup_app_r by (unfold sftp; lia).
      unfold sftp. now rewrite Nat.sub_diag.
    - intros k. rewrite Hfp1. apply Hfault.
    - unfold server_of, ss. cbn [ss_conf conn_conf_of conf_host].
      now rewrite Hrem1, Hfs. }
  (* the prefix *)
  destruct (sftp_prefix_total (SftpList.prepare_config config)) as [p Ep].
  unfold bind at 1. unfold lift_res at 1. rewrite Ep.
  (* the walk *)
  cbn [cfg_dirs SftpList.prepare_config]. rewrite Hdirs.
  cbn [default from_option id for_each].
  destruct (list_walk_entries sftp ss fs eq_refl depth p
              (cfg_files_only config) (cfg_get_size config)
              (cfg_private_key config) (cfg_private_key_pass config)
              (cfg_recursive config) depth path n sz children [] w1)
    as (new & w2 & Ew & Ht & Hc2); auto.
  { cbn [need] in Hneed. lia. }
  assert (Hsess2 : sessions w2 = sessions w1).
  { change (on_world (keeps sessions) ([] : list Entry, w1)
              (new, w2)).
    rewrite <- (app_nil_l new).
    eapply (respects_walktree (keeps sessions)); [| | | exact Ew].
    - intros q. apply respects_handle_node; [exact _|].
      intros. apply respects_file_size. exact _.
    - intros q. apply respects_handle_node; [exact _|].
      intros. apply respects_dir_size. exact _.
    - intros q. unfold SftpList.handle_unknown. respects_tac. }
  unfold bind at 1.
  unfold with_captured, bind at 1, try_except, on_sftp at 1.
  cbn [SftpList.prepare_config cfg_files_only cfg_get_size cfg_private_key
         cfg_private_key_pass cfg_recursive].
  unfold Session in *. rewrite Ew. cbn [app].
  unfold on_sftp, sftp_close, update_session, modify_world, bind, ret.
  eexists new, _. split; [reflexivity|].
  split; [exact Ht|].
  cbn [sessions set_sessions add_event]. rewrite Hsess2, Hsess.
  unfold sftp. rewrite alter_last. reflexivity.
Qed.
End ListRun.

Lemma list_walk_titles_witness :
  exists new w',
    walktree 5 Scenes.sftp0 "/data"
      (SftpList.handle_file (Some Scenes.sftp0) "sftp://example.com/" false
         true None None)
      (SftpList.handle_dir 5 (Some Scenes.sftp0) "sftp://example.com/" false
         true None None)
      SftpList.handle_unknown true ([], Scenes.connected)
    = (inr tt, (([] ++ new)%list, w'))
    /\ map title new = listing false true Scenes.data_t
    /\ calm Scenes.sftp0
         (mkSessionState (Demo.conf_of "example.com") (Some "/data")
            (Some 15) true)
         Scenes.data_tree w'.
Proof.
  apply (list_walk_titles Scenes.sftp0
           (mkSessionState (Demo.conf_of "example.com") (Some "/data")
              (Some 15) true)
           Scenes.data_tree eq_refl 5 "sftp://example.com/" false true None
           None true 5 "/data" "data" 4096
           [T_file "a.txt" 10; T_dir "sub" 4096 []] [] Scenes.connected).
  - split; [reflexivity|]. split; [intros n; reflexivity|].
    vm_compute. reflexivity.
  - vm_compute. reflexivity.
  - vm_compute. reflexivity.
  - lia.
  - intros _. vm_compute. lia.
  - intros _. vm_compute. lia.
Defined.

(** The listing of [/data]: the file, then the directory. *)
Example listing_data_example :
  listing false true Scenes.data_t = ["a.txt"; "sub"]
  /\ listing true true Scenes.data_t = ["a.txt"].
Proof. split; reflexivity. Qed.

Lemma on_task_input_lists_witness :
  exists entries w',
    SftpList.on_task_input 5 Scenes.list_data Scenes.served
    = (inr entries, w')
    /\ map title entries
       = listing (cfg_files_only Scenes.list_data)
           (cfg_recursive Scenes.list_data)
           (T_dir "data" 4096 [T_file "a.txt" 10; T_dir "sub" 4096 []])
    /\ sessions w'
       = (sessions Scenes.served
            ++ [mkSessionState (conn_conf_of Scenes.list_data) None
                  (Some SOCKET_TIMEOUT) false])%list
    /\ remote w' = remote Scenes.served.
Proof.
  apply (on_task_input_lists 5 Scenes.list_data "/data" Scenes.data_tree
           "data" 4096 [T_file "a.txt" 10; T_dir "sub" 4096 []]
           Scenes.served).
  - reflexivity.
  - reflexivity.
  - intros k. reflexivity.
  - vm_compute. reflexivity.
  - reflexivity.
  - vm_compute. reflexivity.
  - vm_compute. reflexivity.
  - vm_compute. lia.
Defined.

(** ** What a download that returns has done *)

(** A [get] that returns has copied the whole remote file. *)
Lemma sftp_get_copies `{Platform} s rp lp w w' :
  lp <> "" ->
  sftp_get s rp lp w = (inr tt, w') ->
  exists ss content,
    sessions w !! s = Some ss
    /\ node_at w ss rp = Some (RFile content)
    /\ local w' !! lp = Some (LFile content).
Proof.
  intros Hlp. unfold sftp_get.
  destruct (String.eqb_spec lp "") as [->|_]; [congruence|].
  intros E. apply bind_ok_inv in E as ([ss fault] & w1 & Eb & E).
  cbn [snd fst] in E.
  assert (Hb : sessions w !! s = Some ss /\ remote w1 = remote w).
  { unfold begin_request in Eb.
    destruct (sessions w !! s) as [ss0|]; [|discriminate Eb].
    destruct (ss_live ss0); inversion Eb; subst. split; reflexivity. }
  destruct Hb as [Hss Hrem1].
  assert (Hrest :
    (local_write lp "" ;;;
     w0 <- get_world ;;
     match node_at w0 ss rp with
     | Some (RFile content) =>
         match fault with
         | Some (Cut k e) =>
             local_write lp (String.substring 0 k content) ;;; raise e
         | _ => local_write lp content
         end
     | _ => raise (no_such_file rp)
     end) w1 = (inr tt, w')).
  { destruct fault as [[e|k e]|]; [discriminate E | exact E | exact E]. }
  clear E.
  apply bind_ok_inv in Hrest as (? & w2 & Ew & E).
  pose proof (respects_local_write (keeps remote) _ _ _ _ _ Ew) as Hrem2.
  apply bind_ok_inv in E as (w3 & w4 & Eg & E).
  inversion Eg; subst w3 w4; clear Eg.
  assert (Hnode : node_at w2 ss rp = node_at w ss rp).
  { unfold node_at, server_of. unfold keeps in Hrem2.
    now rewrite Hrem2, Hrem1. }
  rewrite Hnode in E.
  destruct (node_at w ss rp) as [[content| |]|] eqn:Hn; try discriminate E.
  exists ss, content. split; [exact Hss|]. split; [exact Hn|].
  destruct fault as [[e|k e]|].
  - apply local_write_ok in E. rewrite E. apply lookup_insert_eq.
  - apply bind_ok_inv in E as (? & ? & _ & E). discriminate E.
  - apply local_write_ok in E. rewrite E. apply lookup_insert_eq.
Qed.

Section DownloadCopies.
Context `{Platform}.
Variables (path dest : string) (sftp : Session) (delete_origin : bool).

Let destination := SftpDownload.destination_of path dest.

(** X17: when nothing is at the destination and [download_file]
    returns, the remote path was a regular file and the destination now
    holds its whole content, also when the origin was deleted
    afterwards. *)
Theorem download_file_copies w w' :
  local w !! destination = None ->
  destination <> "" ->
  SftpDownload.download_file path dest sftp delete_origin w = (inr tt, w') ->
  exists ss content,
    sessions w !! sftp = Some ss
    /\ node_at w ss path = Some (RFile content)
    /\ local w' !! destination = Some (LFile content).
Proof.
  intros Hfresh Hne E. unfold SftpDownload.download_file in E.
  fold destination in E.
  apply bind_ok_inv in E as (ex & w1 & Eex & E).
  unfold os_path_exists in Eex. inversion Eex; subst w1 ex; clear Eex.
  rewrite bool_decide_eq_false_2 in E
    by (rewrite Hfresh; intros [? ?]; discriminate).
  apply bind_ok_inv in E as (dex & w1 & Edex & E).
  unfold os_path_exists in Edex. inversion Edex; subst w1 dex; clear Edex.
  apply bind_ok_inv in E as (? & w2 & Emk & E).
  assert (Hmk : sessions w2 = sessions w /\ remote w2 = remote w).
  { destruct (negb _) in Emk.
    - split.
      + apply (respects_os_makedirs (keeps sessions) _ _ _ _ Emk).
      + apply (respects_os_makedirs (keeps remote) _ _ _ _ Emk).
    - inversion Emk; subst. split; reflexivity. }
  destruct Hmk as [Hs2 Hr2].
  apply bind_ok_inv in E as (? & w3 & Elog & E).
  pose proof (respects_logger (keeps sessions) _ _ _ _ _ _ Elog) as Hs3.
  pose proof (respects_logger (keeps remote) _ _ _ _ _ _ Elog) as Hr3.
  unfold keeps in Hs3, Hr3.
  apply bind_ok_inv in E as (? & w4 & Eget & E).
  assert (Hw4 : exists ss content,
             sessions w !! sftp = Some ss
             /\ node_at w ss path = Some (RFile content)
             /\ local w4 !! destination = Some (LFile content)).
  { unfold try_except in Eget.
    destruct (sftp_get sftp path destination w3) as [[e|[]] w5] eqn:Eg.
    - cbn [any_exception] in Eget.
      apply bind_ok_inv in Eget as (? & ? & _ & Eget).
      apply bind_ok_inv in Eget as (? & ? & _ & Eget).
      apply bind_ok_inv in Eget as (? & ? & _ & Eget).
      discriminate Eget.
    - inversion Eget; subst.
      destruct (sftp_get_copies _ _ _ _ _ Hne Eg) as (ss & c & Hss & Hn & Hc).
      exists ss, c. rewrite <- Hs2, <- Hs3. split; [exact Hss|].
      split; [|exact Hc].
      unfold node_at, server_of in *. now rewrite <- Hr2, <- Hr3. }
  assert (Hkeep : local w' = local w4).
  { revert E. generalize w4 (inr (A:=Exn) tt) w'.
    change (respects (keeps local)
      (if delete_origin
       then
         logger DEBUG "Deleting remote file {}" [path] ;;;
         removed <-
           try_except (sftp_remove sftp path ;;; ret true) any_exception
             (fun e =>
                logger ERROR "Failed to delete file {} ({})"
                  [path; exn_msg e] ;;;
                ret false) ;;
         (if removed
          then SftpDownload.remove_dir sftp (pm_dirname remotepath path)
          else ret tt)
       else ret tt)).
    respects_tac. }
  rewrite Hkeep. exact Hw4.
Qed.
End DownloadCopies.

Lemma download_file_copies_witness :
  exists ss content,
    sessions Scenes.connected !! Scenes.sftp0 = Some ss
    /\ node_at Scenes.connected ss "a.txt" = Some (RFile content)
    /\ local (snd (SftpDownload.download_file "a.txt" "/dl" Scenes.sftp0
                     true Scenes.connected))
         !! SftpDownload.destination_of "a.txt" "/dl"
       = Some (LFile content).
Proof.
  apply (download_file_copies "a.txt" "/dl" Scenes.sftp0 true
           Scenes.connected).
  - vm_compute. reflexivity.
  - vm_compute. discriminate.
  - vm_compute. reflexivity.
Defined.

(** ** Removing directories: [remove_dir] *)

Lemma sorted_nonempty names : names <> [] -> sorted names <> [].
Proof.
  destruct names as [|x names]; [congruence|]. intros _.
  unfold sorted. cbn [fold_right].
  destruct (fold_right insert_sorted [] names) as [|y l]; cbn;
    [discriminate|]. destruct (String.leb x y); discriminate.
Qed.

Section RemoveDir.
Context `{Platform}.
Variables (sftp : Session) (ss : SessionState) (fs : gmap string rnode).
Hypothesis live : ss_live ss = true.

#[local] Abbreviation calm := (calm sftp ss fs).
#[local] Abbreviation tick := (tick sftp).

(** X18: [remove_dir] leaves a directory that is not empty alone.  On a
    server that answers every request it looks the directory up, lists
    it and returns: no [rmdir] is sent, nothing is logged and nothing
    changes on the server. *)
Theorem remove_dir_keeps_nonempty path sz names w :
  calm w ->
  fs !! adjust_cwd (ss_cwd ss) path = Some (RDir sz names) ->
  names <> [] ->
  SftpDownload.remove_dir sftp path w
  = (inr tt, tick (CListdir path) (tick (CStat path) w)).
Proof.
  intros Hc Hp Hne. unfold SftpDownload.remove_dir.
  unfold bind at 1, sftp_exists, try_except, bind at 1.
  rewrite (sftp_stat_calm sftp ss fs live _ _ _ Hc Hp). cbn [ret].
  unfold bind at 1. unfold bind at 1.
  rewrite (sftp_listdir_calm sftp ss fs live _ _ _ _
             (calm_tick sftp ss fs _ _ Hc) Hp).
  cbn [ret].
  rewrite bool_decide_eq_false_2 by now apply sorted_nonempty.
  reflexivity.
Qed.
End RemoveDir.

Lemma remove_dir_keeps_nonempty_witness :
  SftpDownload.remove_dir Scenes.sftp0 "/data" Scenes.connected
  = (inr tt,
     tick Scenes.sftp0 (CListdir "/data")
       (tick Scenes.sftp0 (CStat "/data") Scenes.connected)).
Proof.
  apply (remove_dir_keeps_nonempty Scenes.sftp0
           (mkSessionState (Demo.conf_of "example.com") (Some "/data")
              (Some 15) true)
           Scenes.data_tree eq_refl "/data" 4096 ["a.txt"; "sub"]
           Scenes.connected).
  - split; [reflexivity|]. split; [intros n; reflexivity|].
    vm_compute. reflexivity.
  - vm_compute. reflexivity.
  - discriminate.
Defined.

(** ** What an upload that succeeds has done *)

Section Uploads.
Context `{Platform}.
Variables (sftp : Session) (ss : SessionState) (fs : gmap string rnode).
Hypothesis live : ss_live ss = true.

#[local] Abbreviation calm := (calm sftp ss fs).
#[local] Abbreviation tick := (tick sftp).

Lemma begin_request_calm c w :
  calm w -> begin_request sftp c w = (inr (ss, None), tick c w).
Proof.
  intros (Hs & Hf & Hfs). unfold begin_request.
  rewrite Hs, live, Hf. reflexivity.
Qed.

Lemma server_of_set_server m w :
  fs <> ∅ -> server_of w ss = fs -> server_of (set_server ss m w) ss = m.
Proof.
  unfold server_of, set_server. intros Hne Hfs.
  destruct (conf_host (ss_conf ss)) as [h|]; [|congruence].
  cbn [remote set_remote]. now rewrite lookup_insert_eq.
Qed.

(** X19: [handle_entry] on a server that answers every request, for an
    entry whose local file exists and a destination directory that
    exists.  The file arrives under its base name in that directory with
    the content of the local file; the local file is removed exactly when
    [delete_origin] is set; the entry is not failed. *)
Theorem handle_entry_uploads entry config prefix l t t' content w :
  calm w ->
  location entry = Some l ->
  cfg_to config = Some t ->
  t <> "" ->
  render_from_entry t entry = inr t' ->
  local w !! l = Some (LFile content) ->
  posixpath.join t' (pm_basename localpath l) <> "" ->
  is_rdir (fs !! adjust_cwd (ss_cwd ss) t') = true ->
  is_rdir
    (fs !! parent_key
             (adjust_cwd (ss_cwd ss)
                (posixpath.join t' (pm_basename localpath l)))) = true ->
  is_rdir
    (fs !! adjust_cwd (ss_cwd ss)
             (posixpath.join t' (pm_basename localpath l))) = false ->
  exists w',
    SftpUpload.handle_entry entry sftp config prefix w = (inr tt, w')
    /\ server_of w' ss
         !! adjust_cwd (ss_cwd ss)
              (posixpath.join t' (pm_basename localpath l))
       = Some (RFile content)
    /\ local w' !! l
       = (if cfg_delete_origin config then None else Some (LFile content))
    /\ failed w' = failed w.
Proof.
  intros Hc Hl Hto Ht Hrender Hsrc Hdest Hdir Hparent Hfree.
  apply String.eqb_neq in Ht. apply String.eqb_neq in Hdest.
  assert (Hfs : fs <> ∅).
  { intros ->. rewrite lookup_empty in Hdir. discriminate Hdir. }
  destruct (fs !! adjust_cwd (ss_cwd ss) t') as [[?|dsz dnames|?]|] eqn:Hp;
    try discriminate Hdir.
  unfold SftpUpload.handle_entry. rewrite Hl, Hto.
  unfold bind at 1. cbn [ret truthy_str str_opt]. rewrite Ht. cbn [negb].
  unfold bind at 1, try_except at 1, bind at 1, lift_res at 1.
  rewrite Hrender. cbn [ret].
  unfold bind at 1, lift_res at 1. cbn [SftpUpload.join_to str_opt].
  unfold bind at 1, os_path_exists at 1.
  rewrite bool_decide_eq_true_2 by (rewrite Hsrc; eauto). cbn [negb].
  (* the destination directory *)
  unfold bind at 1, sftp_lexists, try_except at 1, bind at 1.
  rewrite (sftp_lstat_calm sftp ss fs live _ _ _ Hc Hp). cbn [ret negb].
  pose proof (calm_tick sftp ss fs (CLstat t') w Hc) as Hc1.
  unfold bind at 1. cbn [ret negb].
  unfold bind at 1, sftp_isdir, try_except at 1, bind at 1.
  rewrite (sftp_stat_calm sftp ss fs live _ _ _ Hc1 Hp).
  cbn [ret negb attrs_of st_mode].
  pose proof (calm_tick sftp ss fs (CStat t') _ Hc1) as Hc2.
  (* the transfer *)
  unfold bind at 1, try_except_IOError_else, bind at 1, sftp_put.
  cbn [pm_join remotepath]. rewrite Hdest.
  unfold bind at 1. rewrite (begin_request_calm _ _ Hc2). cbn [snd fst].
  unfold bind at 1, get_world at 1. cbn [local tick add_event set_requests].
  rewrite Hsrc.
  destruct Hc2 as (Hs2 & Hf2 & Hfs2).
  match goal with
  | |- context [server_of ?w3 ss] =>
      replace (server_of w3 ss) with fs by (symmetry; exact Hfs2)
  end.
  rewrite Hparent, Hfree. cbn [andb negb].
  unfold modify_world at 1.
  unfold bind at 1. rewrite logger_ok by reflexivity. cbn [ret andb].
  destruct (cfg_delete_origin config).
  - unfold try_except at 1, os_remove, bind at 1, get_world at 1.
    match goal with
    | |- context [local ?w4 !! l] =>
        replace (local w4 !! l) with (Some (LFile content))
    end.
    2:{ unfold set_server. destruct (conf_host (ss_conf ss));
          cbn; now rewrite Hsrc. }
    unfold modify_world.
    eexists. split; [reflexivity|]. split; [|split].
    + unfold server_of, set_server.
      destruct (conf_host (ss_conf ss)) as [h|] eqn:Hh.
      * cbn. rewrite lookup_insert_eq. cbn. apply lookup_insert_eq.
      * exfalso. apply Hfs. rewrite <- Hfs2. unfold server_of.
        now rewrite Hh.
    + cbn [local set_local]. apply lookup_delete_eq.
    + unfold set_server. destruct (conf_host (ss_conf ss)); reflexivity.
  - eexists. split; [reflexivity|]. split; [|split].
    + unfold server_of, set_server.
      destruct (conf_host (ss_conf ss)) as [h|] eqn:Hh.
      * cbn. rewrite lookup_insert_eq. cbn. apply lookup_insert_eq.
      * exfalso. apply Hfs. rewrite <- Hfs2. unfold server_of.
        now rewrite Hh.
    + unfold set_server. destruct (conf_host (ss_conf ss)); cbn;
        now rewrite Hsrc.
    + unfold set_server. destruct (conf_host (ss_conf ss)); reflexivity.
Qed.
End Uploads.

Lemma handle_entry_uploads_witness :
  exists w',
    SftpUpload.handle_entry Scenes.report Scenes.sftp0 Scenes.to_incoming
      "sftp://example.com/" Scenes.uploading = (inr tt, w')
    /\ server_of w'
         (mkSessionState (Demo.conf_of "example.com") None (Some 15) true)
         !! adjust_cwd None
              (posixpath.join "/incoming"
                 (pm_basename localpath "/up/report.txt"))
       = Some (RFile "figures")
    /\ local w' !! "/up/report.txt"
       = (if cfg_delete_origin Scenes.to_incoming then None
          else Some (LFile "figures"))
    /\ failed w' = failed Scenes.uploading.
Proof.
  apply (handle_entry_uploads Scenes.sftp0
           (mkSessionState (Demo.conf_of "example.com") None (Some 15) true)
           (server_of Scenes.uploading
              (mkSessionState (Demo.conf_of "example.com") None (Some 15)
                 true))
           eq_refl Scenes.report Scenes.to_incoming "sftp://example.com/"
           "/up/report.txt" "/incoming" "/incoming" "figures"
           Scenes.uploading).
  - split; [reflexivity|]. split; [intros n; reflexivity | reflexivity].
  - reflexivity.
  - reflexivity.
  - discriminate.
  - reflexivity.
  - vm_compute. reflexivity.
  - vm_compute. discriminate.
  - vm_compute. reflexivity.
  - vm_compute. reflexivity.
  - vm_compute. reflexivity.
Defined.

(** ** Sizes that cannot be read *)

Section SizeFailure.
Context `{Platform}.

(** X20: with [get_size], a size that cannot be read does not stop the
    listing.  Whatever exception the size handler raises, [handle_node]
    logs an error, reports the node with the size -1 and returns
    normally. *)
Theorem handle_node_size_failure sftp prefix files_only private_key
    private_key_pass path size_handler is_dir acc w normalized w1 e w2 :
  is_dir && files_only = false ->
  on_sftp sftp (fun s => sftp_normalize s path) w = (inr normalized, w1) ->
  size_handler path w1 = (inl e, w2) ->
  exists entry,
    SftpList.handle_node sftp prefix files_only true private_key
      private_key_pass path size_handler is_dir (acc, w)
    = (inr tt,
       ((acc ++ [entry])%list,
        add_log (mkLogRecord ERROR "Failed to get size for {} ({})"
                   [path; exn_msg e]) w2))
    /\ title entry = posixpath.basename path
    /\ url entry = urljoin prefix (quote normalized)
    /\ content_size entry = Some (-1).
Proof.
  intros Hskip Hnorm Hsize. unfold SftpList.handle_node. rewrite Hskip.
  unfold bind at 1, liftW at 1. cbn [snd fst]. rewrite Hnorm.
  unfold bind at 1. unfold bind at 1, liftW at 1, try_except.
  cbn [snd fst]. rewrite Hsize. cbn [any_exception].
  unfold bind at 1. rewrite logger_ok by reflexivity.
  unfold ret, append_captured. cbn [snd fst].
  eexists. split; [reflexivity|].
  destruct (truthy_str private_key); [|repeat split].
  destruct (truthy_str private_key_pass); repeat split.
Qed.
End SizeFailure.

Lemma handle_node_size_failure_witness :
  exists entry,
    SftpList.handle_node (Some Scenes.sftp0) "sftp://example.com/" false
      true None None "a.txt" (SftpList.file_size (Some Scenes.sftp0)) false
      ([], Demo.with_fault_plan (Demo.fault_at 1 (Abort Demo.dropped))
             Scenes.connected)
    = (inr tt,
       (([] ++ [entry])%list,
        add_log (mkLogRecord ERROR "Failed to get size for {} ({})"
                   ["a.txt"; exn_msg Demo.dropped])
          (snd (SftpList.file_size (Some Scenes.sftp0) "a.txt"
                  (snd (sftp_normalize Scenes.sftp0 "a.txt"
                          (Demo.with_fault_plan
                             (Demo.fault_at 1 (Abort Demo.dropped))
                             Scenes.connected)))))))
    /\ title entry = posixpath.basename "a.txt"
    /\ url entry = urljoin "sftp://example.com/" (quote "/data/a.txt")
    /\ content_size entry = Some (-1).
Proof.
  apply (handle_node_size_failure (Some Scenes.sftp0) "sftp://example.com/"
           false None None "a.txt" (SftpList.file_size (Some Scenes.sftp0))
           false []
           (Demo.with_fault_plan (Demo.fault_at 1 (Abort Demo.dropped))
              Scenes.connected)
           "/data/a.txt"
           (snd (sftp_normalize Scenes.sftp0 "a.txt"
                   (Demo.with_fault_plan
                      (Demo.fault_at 1 (Abort Demo.dropped))
                      Scenes.connected)))
           Demo.dropped
           (snd (SftpList.file_size (Some Scenes.sftp0) "a.txt"
                   (snd (sftp_normalize Scenes.sftp0 "a.txt"
                           (Demo.with_fault_plan
                              (Demo.fault_at 1 (Abort Demo.dropped))
                              Scenes.connected)))))).
  - reflexivity.
  - vm_compute. reflexivity.
  - vm_compute. reflexivity.
Defined.

(** ** Entries the handlers cannot read or must not touch *)

Section ForGroupbyKeys.
Context {St A K G : Type} `{EqDecision K}.
Variables (key : A -> M St K) (start : K -> M St G).
Variables (item : G -> A -> M St unit) (finish : G -> M St unit).

(** A loop over groups that returns has computed the key of every
    item. *)
Lemma for_groupby_from_keys rest : forall k g s u s',
  for_groupby_from key start item finish k g rest s = (inr u, s') ->
  Forall (fun x => exists s1 k1 s2, key x s1 = (inr k1, s2)) rest.
Proof.
  induction rest as [|x rest IH]; intros k g s u s' E;
    cbn [for_groupby_from] in E; [constructor|].
  apply bind_ok_inv in E as (k' & s1 & Ek & E).
  constructor; [eauto|].
  destruct (decide (k' = k)) as [->|N].
  - apply bind_ok_inv in E as (u1 & s2 & _ & E). eauto.
  - apply bind_ok_inv in E as (u1 & s2 & _ & E).
    apply bind_ok_inv in E as (g' & s3 & _ & E).
    apply bind_ok_inv in E as (u2 & s4 & _ & E). eauto.
Qed.

Lemma for_groupby_keys l s u s' :
  for_groupby key start item finish l s = (inr u, s') ->
  Forall (fun x => exists s1 k1 s2, key x s1 = (inr k1, s2)) l.
Proof.
  destruct l as [|x rest]; cbn [for_groupby]; intros E; [constructor|].
  apply bind_ok_inv in E as (k & s1 & Ek & E).
  constructor; [eauto|].
  apply bind_ok_inv in E as (g & s2 & _ & E).
  apply bind_ok_inv in E as (u1 & s3 & _ & E).
  eapply for_groupby_from_keys; eauto.
Qed.
End ForGroupbyKeys.

Lemma for_each_respects_in {St A} (R : relation St) `{!PreOrder R}
    (l : list A) (body : A -> M St unit) :
  (forall x, In x l -> respects R (body x)) ->
  respects R (for_each l body).
Proof.
  induction l as [|x l IH]; intros Hb; cbn [for_each].
  - apply respects_ret; exact _.
  - apply respects_bind; [exact _ | apply Hb; now left |].
    intros _. apply IH. intros y Hy. apply Hb. now right.
Qed.

Section OwnEntries.
Context `{Platform}.

(** X21: [on_task_download] reads the port of every accepted entry's
    URL, whatever its scheme: it returns only when every port can be
    read.  When the port of the first accepted entry cannot be read and
    [pysftp] is there, the error of the URL parser leaves the run at
    once, with nothing logged, no connection tried and no entry failed. *)
Theorem on_task_download_reads_every_port depth accepted config w r w' :
  SftpDownload.on_task_download depth accepted config w = (r, w') ->
  (forall u, r = inr u -> Forall port_readable accepted)
  /\ (forall x rest e,
        accepted = x :: rest ->
        has_pysftp w = true ->
        pr_port (urlparse (url x)) = inl e ->
        r = inl e /\ w' = w).
Proof.
  intros E. split.
  - intros u ->. unfold SftpDownload.on_task_download in E.
    apply bind_ok_inv in E as (u0 & w1 & _ & E).
    apply for_groupby_keys in E.
    eapply Forall_impl; [exact E|].
    intros x (s1 & k1 & s2 & Ek). unfold SftpDownload.get_sftp_config in Ek.
    apply bind_ok_inv in Ek as (p & s3 & Ep & _).
    unfold lift_res in Ep. exists p. congruence.
  - intros x rest e -> Hpy Hport.
    unfold SftpDownload.on_task_download in E.
    unfold bind at 1, dependency_check, bind at 1, get_world in E.
    rewrite Hpy in E. cbn [negb ret for_groupby] in E.
    unfold bind at 1, SftpDownload.get_sftp_config, bind at 1, lift_res in E.
    rewrite Hport in E. inversion E. split; reflexivity.
Qed.

(** [handle_entry] fails no entry but its own. *)
Lemma respects_handle_entry_own (R : relation World) `{!Quiet R}
    `{!IgnoresRemote R} `{!IgnoresLocal R} entry s config prefix :
  (forall reason w, R w (add_failed entry reason w)) ->
  respects R (SftpUpload.handle_entry entry s config prefix).
Proof.
  intros Hfail.
  assert (Hf : forall reason, respects R (entry_fail entry reason)).
  { intros reason w r w' E. inversion E. apply Hfail. }
  unfold SftpUpload.handle_entry. respects_tac.
Qed.

(** X22: [on_task_output] fails only entries of the accepted list,
    however it ends. *)
Theorem on_task_output_fails_only_accepted accepted config w r w' :
  SftpUpload.on_task_output accepted config w = (r, w') ->
  exists l,
    failed w' = (failed w ++ l)%list
    /\ Forall (fun p => In (fst p) accepted) l.
Proof.
  revert w r w'.
  change (respects (fails_only (fun e => In e accepted))
            (SftpUpload.on_task_output accepted config)).
  unfold SftpUpload.on_task_output. cbv zeta.
  apply respects_bind;
    [exact _ | apply respects_sftp_from_config; exact _ |].
  intros sftp. apply respects_bind; [exact _ | |].
  { apply respects_lift_res; preorder. }
  intros prefix. apply for_each_respects_in; [exact _|].
  intros entry Hin.
  assert (Hfail : forall reason w,
             fails_only (fun e => In e accepted) w
               (add_failed entry reason w)).
  { intros reason w. now apply fails_only_add. }
  destruct sftp as [s|].
  - apply respects_bind; [exact _ | apply respects_logger; exact _ |].
    intros _. apply respects_handle_entry_own; try exact _. exact Hfail.
  - assert (Hf : forall reason, respects (fails_only (fun e => In e accepted))
                                  (entry_fail entry reason)).
    { intros reason w r w' E. inversion E. apply Hfail. }
    respects_tac.
Qed.
End OwnEntries.

Lemma on_task_download_reads_every_port_witness :
  (forall u,
     fst (SftpDownload.on_task_download 5
            [Demo.entry_of "sftp://example.com:x/data/a.txt"] Scenes.to_dl
            Scenes.served) = inr u ->
     Forall port_readable [Demo.entry_of "sftp://example.com:x/data/a.txt"])
  /\ fst (SftpDownload.on_task_download 5
            [Demo.entry_of "sftp://example.com:x/data/a.txt"] Scenes.to_dl
            Scenes.served)
     = inl (mkExn ValueError "Port could not be cast to integer value")
  /\ snd (SftpDownload.on_task_download 5
            [Demo.entry_of "sftp://example.com:x/data/a.txt"] Scenes.to_dl
            Scenes.served)
     = Scenes.served.
Proof.
  assert (Hrun :
    (forall u,
       fst (SftpDownload.on_task_download 5
              [Demo.entry_of "sftp://example.com:x/data/a.txt"] Scenes.to_dl
              Scenes.served) = inr u ->
       Forall port_readable
         [Demo.entry_of "sftp://example.com:x/data/a.txt"])
    /\ (forall x rest e,
          [Demo.entry_of "sftp://example.com:x/data/a.txt"] = x :: rest ->
          has_pysftp Scenes.served = true ->
          pr_port (urlparse (url x)) = inl e ->
          fst (SftpDownload.on_task_download 5
                 [Demo.entry_of "sftp://example.com:x/data/a.txt"]
                 Scenes.to_dl Scenes.served) = inl e
          /\ snd (SftpDownload.on_task_download 5
                    [Demo.entry_of "sftp://example.com:x/data/a.txt"]
                    Scenes.to_dl Scenes.served) = Scenes.served)).
  { apply (on_task_download_reads_every_port 5
             [Demo.entry_of "sftp://example.com:x/data/a.txt"] Scenes.to_dl
             Scenes.served).
    vm_compute. reflexivity. }
  destruct Hrun as [Hall Hfirst]. split; [exact Hall|].
  apply (Hfirst (Demo.entry_of "sftp://example.com:x/data/a.txt") []
           (mkExn ValueError "Port could not be cast to integer value")).
  - reflexivity.
  - reflexivity.
  - vm_compute. reflexivity.
Defined.

(** A port that is not a number: the parser's error leaves the run before
    any connection is made. *)
Example on_task_download_bad_port :
  SftpDownload.on_task_download 5
    [Demo.entry_of "sftp://example.com:x/data/a.txt"] Scenes.to_dl
    Scenes.served
  = (inl (mkExn ValueError "Port could not be cast to integer value"),
     Scenes.served).
Proof. vm_compute. reflexivity. Qed.

Lemma on_task_output_fails_only_accepted_witness :
  exists l,
    failed (snd (SftpUpload.on_task_output [Scenes.report]
                   Scenes.to_incoming Scenes.uploading))
    = (failed Scenes.uploading ++ l)%list
    /\ Forall (fun p => In (fst p) [Scenes.report]) l.
Proof.
  apply (on_task_output_fails_only_accepted [Scenes.report]
           Scenes.to_incoming Scenes.uploading
           (fst (SftpUpload.on_task_output [Scenes.report]
                   Scenes.to_incoming Scenes.uploading))
           (snd (SftpUpload.on_task_output [Scenes.report]
                   Scenes.to_incoming Scenes.uploading))).
  vm_compute. reflexivity.
Defined.

(** ** The URL prefix: [sftp_prefix] *)

Lemma append_empty_r (s : string) : s +:+ "" = s.
Proof.
  induction s as [|c s IH]; [reflexivity|].
  change (String c (s +:+ "") = String c s). now rewrite IH.
Qed.

(** X23: [sftp_prefix] never raises.  Its result is [sftp://], the login,
    the host, the port and [/]: without a user name there is no login,
    also when a password is set; the port is left out when it is 22 or 0
    and is written after a colon otherwise. *)
Theorem sftp_prefix_shape config :
  exists login port,
    sftp_prefix config
    = inr ("sftp://" +:+ login +:+ cfg_host config +:+ port +:+ "/")
    /\ (cfg_username config = "" -> login = "")
    /\ (cfg_username config <> "" -> cfg_password config = None ->
        login = cfg_username config +:+ "@")
    /\ (cfg_port config = 22 \/ cfg_port config = 0 -> port = "")
    /\ (cfg_port config <> 22 -> cfg_port config <> 0 ->
        port = ":" +:+ pretty (cfg_port config)).
Proof.
  unfold sftp_prefix.
  destruct (String.eqb_spec (cfg_username config) "") as [Hu|Hu];
    destruct (Z.eqb_spec (cfg_port config) 0) as [Hp0|Hp0];
    destruct (Z.eqb_spec (cfg_port config) 22) as [Hp|Hp];
    cbn [negb andb];
    try (destruct (truthy_str (cfg_password config)) eqn:Hpw);
    cbn [percent_format Ascii.eqb Bool.eqb orb andb];
    (eexists _, _; split; [reflexivity|]);
    repeat split; intros; try congruence; try lia; try tauto;
    try (match goal with
         | Hn : cfg_password config = None |- _ =>
             rewrite Hn in Hpw; discriminate Hpw
         end);
    try (change (String ":" (pretty (cfg_port config) +:+ "")
                 = String ":" (pretty (cfg_port config)));
         now rewrite append_empty_r).
Qed.
